(** * Commit-metrics collector and dashboard renderer

    A shallow embedding of [scripts/collect_metrics.py] and of the parts of
    [scripts/generate_dashboard.py] that compute data (number formatting, the
    language list, the markdown summary), followed by the properties proved
    about them.

    Conventions of the embedding:
    - a Python [int] is a [Z]; a count reported by the remote platform (lines
      added, lines deleted, bytes of a language) is an [N] injected into [Z];
    - a Python [str] is the string of the bytes of its UTF-8 encoding;
    - a Python [float] is a binary64 [float] of the kernel;
    - a [dict] is an association list in insertion order with distinct keys;
      the dictionaries whose key set is the five period names are records
      indexed by the enumeration [period];
    - a naive [datetime] is its number of microseconds since
      0001-01-01T00:00:00 (naive datetimes have no time zone, no DST and no
      leap seconds, so [timedelta] arithmetic is integer arithmetic);
    - a call that may raise returns a [res]; a [try] block that mutates local
      state runs in the state-and-exception monad [proc];
    - the remote platform (the PyGithub client) and the clock are the fields
      of a [Platform] record: the program is a function of what they answer;
    - what the program prints and the files it writes are left out. *)

From Stdlib Require Import ZArith NArith List String Ascii Bool Lia.
From Stdlib Require Import DecimalString Floats Sorted Permutation.
Import ListNotations.
Open Scope string_scope.
Open Scope list_scope.
Open Scope Z_scope.

(* ================================================================== *)
(** * Python runtime                                                    *)
(* ================================================================== *)

Module Py.

(** ** Exceptions *)

(** The exceptions of the model are instances of [Exception], the class
    the handlers of the program catch. *)
Inductive exn : Type :=
| GithubException (status : Z)
| ZeroDivisionError.

Inductive res (A : Type) : Type :=
| Ret (a : A)
| Raise (e : exn).
Arguments Ret {A} a.
Arguments Raise {A} e.

Definition rbind {A B : Type} (c : res A) (k : A -> res B) : res B :=
  match c with
  | Ret a => k a
  | Raise e => Raise e
  end.

(** A lazily paginated answer of the platform, as a [for] loop sees it: the
    items it yields, then either the end of the iteration or an exception. A
    call that raises before it yields anything is [Paged [] (Some e)]. *)
Record paged (A : Type) : Type := Paged {
  items : list A;
  failure : option exn
}.
Arguments Paged {A} items failure.
Arguments items {A} p.
Arguments failure {A} p.

(** ** Statements over mutable local state *)

Definition proc (S A : Type) : Type := S -> S * res A.

Definition ret {S A : Type} (a : A) : proc S A := fun s => (s, Ret a).

Definition raise {S A : Type} (e : exn) : proc S A := fun s => (s, Raise e).

Definition bind {S A B : Type} (c : proc S A) (k : A -> proc S B) : proc S B :=
  fun s =>
    match c s with
    | (s', Ret a) => k a s'
    | (s', Raise e) => (s', Raise e)
    end.

Definition lift {S A : Type} (c : res A) : proc S A := fun s => (s, c).

Definition modify {S : Type} (f : S -> S) : proc S unit := fun s => (f s, Ret tt).

(** [try: body / except Exception: pass] (a handler that only prints is the
    same for the state): the state keeps what the body did before it raised. *)
Definition try_except {S : Type} (body : proc S unit) : proc S unit :=
  fun s => (fst (body s), Ret tt).

Fixpoint for_each {S A : Type} (body : A -> proc S unit) (l : list A) : proc S unit :=
  match l with
  | [] => ret tt
  | x :: l' => bind (body x) (fun _ => for_each body l')
  end.

Definition for_paged {S A : Type} (body : A -> proc S unit) (p : paged A) : proc S unit :=
  bind (for_each body (items p))
       (fun _ => match failure p with
                 | Some e => raise e
                 | None => ret tt
                 end).

(** The statements of a function body followed by [return f(state)]. *)
Definition returning {S A : Type} (c : proc S unit) (f : S -> A) (s0 : S) : res A :=
  match c s0 with
  | (s, Ret _) => Ret (f s)
  | (_, Raise e) => Raise e
  end.

Fixpoint foldM {A B : Type} (f : B -> A -> res B) (l : list A) (b : B) : res B :=
  match l with
  | [] => Ret b
  | x :: l' => rbind (f b x) (foldM f l')
  end.

Fixpoint mapM {A B : Type} (f : A -> res B) (l : list A) : res (list B) :=
  match l with
  | [] => Ret []
  | x :: l' => rbind (f x) (fun y => rbind (mapM f l') (fun ys => Ret (y :: ys)))
  end.

Declare Scope res_scope.
Delimit Scope res_scope with res.
Notation "x <- c ;; k" := (rbind c (fun x => k))
  (at level 61, c at next level, right associativity) : res_scope.
Notation "' pat <- c ;; k" := (rbind c (fun x => match x with pat => k end))
  (at level 61, pat pattern, c at next level, right associativity) : res_scope.

Declare Scope proc_scope.
Delimit Scope proc_scope with proc.
Notation "x <- c ;; k" := (bind c (fun x => k))
  (at level 61, c at next level, right associativity) : proc_scope.
Notation "c ;; k" := (bind c (fun _ => k))
  (at level 61, right associativity) : proc_scope.

(** ** Dictionaries with string keys, in insertion order *)

Definition dict (V : Type) : Type := list (string * V).

Fixpoint dict_get {V : Type} (k : string) (d : dict V) : option V :=
  match d with
  | [] => None
  | (k', v) :: d' => if String.eqb k k' then Some v else dict_get k d'
  end.

(** [d[k] = v]: an existing key keeps its place, a new key goes last. *)
Fixpoint dict_set {V : Type} (k : string) (v : V) (d : dict V) : dict V :=
  match d with
  | [] => [(k, v)]
  | (k', v') :: d' =>
      if String.eqb k k' then (k', v) :: d' else (k', v') :: dict_set k v d'
  end.

(** [d[k]] of a [defaultdict] whose factory returns [dflt], followed by an
    in-place update of the value. *)
Definition dict_update {V : Type} (dflt : V) (k : string) (f : V -> V) (d : dict V) : dict V :=
  match dict_get k d with
  | Some v => dict_set k (f v) d
  | None => dict_set k (f dflt) d
  end.

Definition dict_keys {V : Type} (d : dict V) : list string := map fst d.

Definition dict_values {V : Type} (d : dict V) : list V := map snd d.

(** ** Lists *)

(** [range(start, -1, -1)]. *)
Definition range_down (start : Z) : list Z :=
  map (fun k => start - Z.of_nat k) (seq 0 (Z.to_nat (start + 1))).

(** [sorted(l, key=key, reverse=True)]: the sort is stable, and [reverse]
    keeps elements with equal keys in their original order. The model is the
    insertion sort that folds from the right: an element goes after the
    elements with a strictly larger key and before all the others, which were
    behind it in the input. *)
Fixpoint insert_desc {A : Type} (key : A -> Z) (x : A) (l : list A) : list A :=
  match l with
  | [] => [x]
  | y :: l' => if key x <? key y then y :: insert_desc key x l' else x :: y :: l'
  end.

Fixpoint sorted_desc {A : Type} (key : A -> Z) (l : list A) : list A :=
  match l with
  | [] => []
  | x :: l' => insert_desc key x (sorted_desc key l')
  end.

(** [sum(l)] of integers. *)
Definition sum (l : list Z) : Z := fold_left Z.add l 0.

(** ** Strings *)

(** [str(n)] of an integer. *)
Definition str (n : Z) : string := NilZero.string_of_int (Z.to_int n).

(** A [str] is the string of the bytes of its UTF-8 encoding. The white
    space of [str.strip()] is that of [str.isspace()]: the ASCII characters
    tab, line feed, vertical tab, form feed, carriage return, the four
    separators 0x1c-0x1f and the space, recognised by [isspace], and the code
    points U+0085, U+00A0, U+1680, U+2000-U+200A, U+2028, U+2029, U+202F,
    U+205F and U+3000, which take two or three bytes. *)
Definition isspace (c : ascii) : bool :=
  let n := nat_of_ascii c in
  ((9 <=? n) && (n <=? 13) || (28 <=? n) && (n <=? 32))%nat.

(** U+0085 is C2 85 and U+00A0 is C2 A0. *)
Definition isspace2 (a b : ascii) : bool :=
  let x := nat_of_ascii a in
  let y := nat_of_ascii b in
  ((x =? 194) && ((y =? 133) || (y =? 160)))%nat.

(** U+1680 is E1 9A 80; U+2000-U+200A are E2 80 80 to E2 80 8A; U+2028,
    U+2029 and U+202F are E2 80 A8, E2 80 A9 and E2 80 AF; U+205F is
    E2 81 9F; U+3000 is E3 80 80. *)
Definition isspace3 (a b c : ascii) : bool :=
  let x := nat_of_ascii a in
  let y := nat_of_ascii b in
  let z := nat_of_ascii c in
  ((x =? 225) && (y =? 154) && (z =? 128)
   || (x =? 226) && (y =? 128)
      && ((128 <=? z) && (z <=? 138) || (z =? 168) || (z =? 169) || (z =? 175))
   || (x =? 226) && (y =? 129) && (z =? 159)
   || (x =? 227) && (y =? 128) && (z =? 128))%nat.

(** [s.lstrip()]: the leading white-space characters are removed, of one,
    two or three bytes each. *)
Fixpoint lstrip (s : string) : string :=
  match s with
  | EmptyString => EmptyString
  | String a s1 =>
      if isspace a then lstrip s1
      else match s1 with
           | EmptyString => s
           | String b s2 =>
               if isspace2 a b then lstrip s2
               else match s2 with
                    | EmptyString => s
                    | String c s3 => if isspace3 a b c then lstrip s3 else s
                    end
           end
  end.

(** The same from the end, on the reversed list of the bytes: the last byte
    comes first, so the bytes of a character are met in reverse. *)
Fixpoint drop_space (r : list ascii) : list ascii :=
  match r with
  | [] => []
  | a :: r1 =>
      if isspace a then drop_space r1
      else match r1 with
           | [] => r
           | b :: r2 =>
               if isspace2 b a then drop_space r2
               else match r2 with
                    | [] => r
                    | c :: r3 => if isspace3 c b a then drop_space r3 else r
                    end
           end
  end.

(** [s.rstrip()] *)
Definition rstrip (s : string) : string :=
  string_of_list_ascii (rev (drop_space (rev (list_ascii_of_string s)))).

(** [s.strip()]. *)
Definition strip (s : string) : string := rstrip (lstrip s).

(** [s.split(sep)] for a one-character separator: the empty string gives one
    empty field. *)
Fixpoint split (sep : ascii) (s : string) : list string :=
  match s with
  | EmptyString => [EmptyString]
  | String c s' =>
      if Ascii.eqb c sep then EmptyString :: split sep s'
      else match split sep s' with
           | [] => [String c EmptyString]
           | f :: fs => String c f :: fs
           end
  end.

(** [c in s]. *)
Fixpoint contains (c : ascii) (s : string) : bool :=
  match s with
  | EmptyString => false
  | String c' s' => Ascii.eqb c c' || contains c s'
  end.

(** [s.replace(a, b)] for single characters. *)
Fixpoint replace (a b : ascii) (s : string) : string :=
  match s with
  | EmptyString => EmptyString
  | String c s' => String (if Ascii.eqb c a then b else c) (replace a b s')
  end.

(** [s[:n]] of a string of ASCII characters, one byte each. *)
Definition take (n : nat) (s : string) : string := substring 0 n s.

(** [l[-1]] of a non-empty list. *)
Definition last_field (l : list string) : string := last l EmptyString.

(** Decimal digits of [n], padded with zeros on the left to [width]. *)
Fixpoint zeros (k : nat) : string :=
  match k with
  | O => EmptyString
  | S k' => String "0"%char (zeros k')
  end.

Definition zfill (width : nat) (n : Z) : string :=
  let d := str n in (zeros (width - String.length d) ++ d)%string.

(** ** Floats *)

Definition prec : Z := 53.
Definition emax : Z := 1024.

(** [float(n)]: the nearest binary64, ties to even; exact below 2^53. *)
Definition float_of_int (n : Z) : float :=
  SF2Prim (binary_normalize prec emax n 0 false).

(** [a / b] on integers. Python rounds the exact quotient once; the model
    divides the two conversions, which is the same value whenever both
    operands are below 2^53 in magnitude. *)
Definition truediv (a b : Z) : res float :=
  if b =? 0 then Raise ZeroDivisionError
  else Ret (float_of_int a / float_of_int b)%float.

(** [x * n] of a float and an integer. *)
Definition fmul_int (x : float) (n : Z) : float := (x * float_of_int n)%float.

(** The integer nearest to [n / d] for [0 < d], ties to the even one. *)
Definition div_half_even (n d : Z) : Z :=
  let q := n / d in
  let r := n mod d in
  if 2 * r <? d then q
  else if d <? 2 * r then q + 1
  else if Z.even q then q else q + 1.

(** The magnitude of [x] scaled by [10^ndigits] and rounded to the nearest
    integer, ties to even, computed on the exact binary value of [x]; with
    the sign of [x]. [None] for an infinity or a NaN. *)
Definition scaled (x : float) (ndigits : Z) : option (bool * Z) :=
  match Prim2SF x with
  | S754_zero s => Some (s, 0)
  | S754_finite s m e =>
      let n := Z.pos m * 10 ^ ndigits in
      Some (s, if 0 <=? e then n * 2 ^ e else div_half_even n (2 ^ (- e)))
  | _ => None
  end.

(** [round(x, ndigits)] of a float, for [0 <= ndigits]: the binary64 nearest
    to the correctly rounded decimal. *)
Definition round (x : float) (ndigits : Z) : float :=
  match scaled x ndigits with
  | Some (s, q) =>
      let r := (float_of_int q / float_of_int (10 ^ ndigits))%float in
      if s then (- r)%float else r
  | None => x
  end.

(** [f"{x:.1f}"] of a finite float. *)
Definition format_1f (x : float) : string :=
  match scaled x 1 with
  | Some (s, q) =>
      ((if s then "-" else "") ++ str (q / 10) ++ "." ++ str (q mod 10))%string
  | None => "nan"
  end.

(** [sum(l)] of floats: the integer 0 plus the elements, left to right. *)
Definition fsum (l : list float) : float :=
  fold_left PrimFloat.add l (float_of_int 0).

End Py.

(* ================================================================== *)
(** * Naive datetimes                                                  *)
(* ================================================================== *)

Module Datetime.
Import Py.

(** Microseconds since 0001-01-01T00:00:00. *)
Definition datetime : Type := Z.

Definition us_per_second : Z := 1000000.
Definition us_per_minute : Z := 60 * us_per_second.
Definition us_per_hour : Z := 60 * us_per_minute.
Definition us_per_day : Z := 24 * us_per_hour.

(** [timedelta(days=n)]. *)
Definition days (n : Z) : Z := n * us_per_day.

(** [t.replace(hour=0, minute=0, second=0, microsecond=0)]. *)
Definition midnight (t : datetime) : datetime := t - t mod us_per_day.

(** [t.replace(hour=h, minute=m, second=0, microsecond=0)]. *)
Definition at_time (t : datetime) (h m : Z) : datetime :=
  midnight t + h * us_per_hour + m * us_per_minute.

(** [t.toordinal()]: day 1 is 0001-01-01. *)
Definition toordinal (t : datetime) : Z := t / us_per_day + 1.

Definition days_before_month (month : Z) : Z :=
  nth (Z.to_nat month) [0; 0; 31; 59; 90; 120; 151; 181; 212; 243; 273; 304; 334] 0.

Definition days_in_month (month : Z) : Z :=
  nth (Z.to_nat month) [0; 31; 28; 31; 30; 31; 30; 31; 31; 30; 31; 30; 31] 0.

(** The proleptic Gregorian (year, month, day) of an ordinal, as the
    [datetime] module computes it. *)
Definition ord2ymd (ordinal : Z) : Z * Z * Z :=
  let n := ordinal - 1 in
  let n400 := n / 146097 in
  let n := n mod 146097 in
  let n100 := n / 36524 in
  let n := n mod 36524 in
  let n4 := n / 1461 in
  let n := n mod 1461 in
  let n1 := n / 365 in
  let n := n mod 365 in
  let year := n400 * 400 + 1 + n100 * 100 + n4 * 4 + n1 in
  if (n1 =? 4) || (n100 =? 4) then (year - 1, 12, 31)
  else
    let leapyear := (n1 =? 3) && (negb (n4 =? 24) || (n100 =? 3)) in
    let month := Z.shiftr (n + 50) 5 in
    let preceding :=
      days_before_month month + (if (2 <? month) && leapyear then 1 else 0) in
    if n <? preceding then
      let month' := month - 1 in
      let preceding' :=
        preceding
        - (days_in_month month' + (if (month' =? 2) && leapyear then 1 else 0)) in
      (year, month', n - preceding' + 1)
    else (year, month, n - preceding + 1).

(** [t.strftime('%Y-%m-%d')], for the years 1000 to 9999. *)
Definition strftime_ymd (t : datetime) : string :=
  let '(y, m, d) := ord2ymd (toordinal t) in
  (zfill 4 y ++ "-" ++ zfill 2 m ++ "-" ++ zfill 2 d)%string.

(** [t.isoformat()]: the microseconds are printed when they are not zero. *)
Definition isoformat (t : datetime) : string :=
  let r := t mod us_per_day in
  let hh := r / us_per_hour in
  let mm := r mod us_per_hour / us_per_minute in
  let ss := r mod us_per_minute / us_per_second in
  let us := r mod us_per_second in
  let frac := if us =? 0 then "" else ("." ++ zfill 6 us)%string in
  (strftime_ymd t ++ "T" ++ zfill 2 hh ++ ":" ++ zfill 2 mm ++ ":" ++ zfill 2 ss
   ++ frac)%string.

(** Membership in the half-open window [[since, until)] that a commit query
    is made for. *)
Definition in_window (since until t : datetime) : bool :=
  (since <=? t) && (t <? until).

End Datetime.

(* ================================================================== *)
(** * scripts/collect_metrics.py                                       *)
(* ================================================================== *)

Module Collector.
Import Py Datetime.

(** ** What the platform answers *)

(** The attributes of a repository handle that the collector reads. *)
Record Repository : Type := {
  name : string;
  full_name : string;
  html_url : string;
  description : option string;
  stargazers_count : Z;
  forks_count : Z;
  fork : bool
}.

(** A commit of a listing. [stats] and [files] are fetched when they are
    first read, so reading them may raise; each may be missing ([None]).
    [stats] holds the lines added and the lines deleted. *)
Record Commit : Type := {
  commit_stats : res (option (N * N));
  commit_files : res (option (list string))
}.

Definition User : Type := string.
Definition Organization : Type := string.

Record Platform : Type := {
  (** [g.get_user(login)] *)
  api_get_user : string -> res User;
  (** [g.get_repo(full_name)] *)
  api_get_repo : string -> res Repository;
  (** [g.get_user().get_repos(affiliation=...)] *)
  api_auth_repos : paged Repository;
  (** [user.get_orgs()] *)
  api_get_orgs : User -> paged Organization;
  (** [org.get_repos()] *)
  api_org_repos : Organization -> paged Repository;
  (** [repo.get_commits(author=, since=, until=)] *)
  api_get_commits : Repository -> string -> datetime -> datetime -> paged Commit;
  (** [repo.get_languages()] *)
  api_get_languages : Repository -> res (dict N);
  (** the n-th call of [datetime.now()] *)
  clock : nat -> datetime
}.

(** The environment variables read at import time. *)
Record Config : Type := {
  GH_USERNAME : string;
  REPOS_TO_TRACK : string
}.

(** ** Data of the snapshot *)

Record Stats : Type := {
  commits : Z;
  additions : Z;
  deletions : Z;
  files_changed : Z
}.

Definition zero_stats : Stats :=
  {| commits := 0; additions := 0; deletions := 0; files_changed := 0 |}.

Inductive period : Type := today | week | month | quarter | year.

Definition period_eqb (p q : period) : bool :=
  match p, q with
  | today, today | week, week | month, month | quarter, quarter | year, year => true
  | _, _ => false
  end.

(** A dictionary whose keys are the five period names. *)
Record period_map (A : Type) : Type := {
  at_today : A;
  at_week : A;
  at_month : A;
  at_quarter : A;
  at_year : A
}.
Arguments at_today {A} p.
Arguments at_week {A} p.
Arguments at_month {A} p.
Arguments at_quarter {A} p.
Arguments at_year {A} p.

Definition pconst {A : Type} (a : A) : period_map A :=
  {| at_today := a; at_week := a; at_month := a; at_quarter := a; at_year := a |}.

Definition pget {A : Type} (p : period) (m : period_map A) : A :=
  match p with
  | today => at_today m
  | week => at_week m
  | month => at_month m
  | quarter => at_quarter m
  | year => at_year m
  end.

Definition pset {A : Type} (p : period) (a : A) (m : period_map A) : period_map A :=
  match p with
  | today => {| at_today := a; at_week := at_week m; at_month := at_month m;
                at_quarter := at_quarter m; at_year := at_year m |}
  | week => {| at_today := at_today m; at_week := a; at_month := at_month m;
               at_quarter := at_quarter m; at_year := at_year m |}
  | month => {| at_today := at_today m; at_week := at_week m; at_month := a;
                at_quarter := at_quarter m; at_year := at_year m |}
  | quarter => {| at_today := at_today m; at_week := at_week m; at_month := at_month m;
                  at_quarter := a; at_year := at_year m |}
  | year => {| at_today := at_today m; at_week := at_week m; at_month := at_month m;
               at_quarter := at_quarter m; at_year := a |}
  end.

Record DailyEntry : Type := {
  date : string;
  day_commits : Z;
  day_additions : Z;
  day_deletions : Z;
  day_files_changed : Z
}.

Record DailyTotals : Type := {
  total_commits : Z;
  total_additions : Z;
  total_deletions : Z
}.

Record RepoData : Type := {
  rd_name : string;
  rd_full_name : string;
  rd_url : string;
  rd_description : option string;
  rd_stars : Z;
  rd_forks : Z;
  rd_periods : period_map Stats
}.

Record TopRepo : Type := {
  top_name : string;
  top_url : string;
  top_commits : Z;
  top_additions : Z;
  top_deletions : Z
}.

Record Meta : Type := {
  updated_at : string;
  username : string;
  generated_by : string
}.

Record Metrics : Type := {
  meta : Meta;
  summary : period_map Stats;
  repos : dict RepoData;
  daily : dict DailyTotals;
  languages : dict Z;
  top_repos : list TopRepo
}.

(** ** get_repos_to_track *)

Record Tracking : Type := {
  tracked : list Repository;
  seen : list string
}.

Definition is_seen (key : string) (t : Tracking) : bool :=
  existsb (String.eqb key) (seen t).

(** [repos.append(repo); seen.add(key)] *)
Definition track (repo : Repository) (key : string) : proc Tracking unit :=
  modify (fun t => {| tracked := tracked t ++ [repo]; seen := key :: seen t |}).

(** One entry of the configured list: the lookup is the only step that can
    raise, and the entry is appended without a look at [seen]. *)
Definition track_configured (W : Platform) (entry : string) : proc Tracking unit :=
  let repo_name := strip entry in
  if negb (String.eqb repo_name "") && contains "/"%char repo_name then
    try_except (repo <- lift (api_get_repo W repo_name) ;; track repo repo_name)%proc
  else ret tt.

(** One repository of a discovery listing. *)
Definition track_unseen (repo : Repository) : proc Tracking unit :=
  fun t => if is_seen (full_name repo) t then ret tt t
           else track repo (full_name repo) t.

Definition get_repos_to_track (W : Platform) (cfg : Config) (user : User)
  : res (list Repository) :=
  let start := {| tracked := []; seen := [] |} in
  if negb (String.eqb (REPOS_TO_TRACK cfg) "") then
    returning (for_each (track_configured W) (split ","%char (REPOS_TO_TRACK cfg)))
              tracked start
  else
    returning
      (try_except (for_paged track_unseen (api_auth_repos W)) ;;
       try_except
         (for_paged (fun org => for_paged track_unseen (api_org_repos W org))
                    (api_get_orgs W user)))%proc
      tracked start.

(** ** get_commit_stats *)

Definition count_commit (commit : Commit) : proc Stats unit :=
  (modify (fun s => {| commits := commits s + 1; additions := additions s;
                       deletions := deletions s; files_changed := files_changed s |}) ;;
   st <- lift (commit_stats commit) ;;
   match st with
   | Some (a, d) =>
       modify (fun s => {| commits := commits s;
                           additions := additions s + Z.of_N a;
                           deletions := deletions s + Z.of_N d;
                           files_changed := files_changed s |})
   | None => ret tt
   end ;;
   fs <- lift (commit_files commit) ;;
   match fs with
   | Some (f :: fs') =>
       modify (fun s => {| commits := commits s; additions := additions s;
                           deletions := deletions s;
                           files_changed := files_changed s
                                            + Z.of_nat (List.length (f :: fs')) |})
   | _ => ret tt
   end)%proc.

Definition get_commit_stats (W : Platform) (repo : Repository) (author : string)
  (since until : datetime) : res Stats :=
  returning
    (try_except (for_paged count_commit (api_get_commits W repo author since until)))
    (fun stats => stats) zero_stats.

(** ** get_daily_stats *)

Definition daily_entry (day : string) (s : Stats) : DailyEntry :=
  {| date := day; day_commits := commits s; day_additions := additions s;
     day_deletions := deletions s; day_files_changed := files_changed s |}.

Definition day_start (now : datetime) (i : Z) : datetime := midnight (now - days i).

Definition day_end (now : datetime) (i : Z) : datetime := day_start now i + days 1.

(** [now] is what the function's own call of [datetime.now()] returned. *)
Definition get_daily_stats (W : Platform) (now : datetime) (repo : Repository)
  (author : string) (ndays : Z) : res (list DailyEntry) :=
  mapM (fun i =>
          (stats <- get_commit_stats W repo author (day_start now i) (day_end now i) ;;
           Ret (daily_entry (strftime_ymd (day_start now i)) stats))%res)
       (range_down ndays).

(** ** get_language_stats *)

Definition get_language_stats (W : Platform) (repo : Repository) : res (dict N) :=
  match api_get_languages W repo with
  | Ret d => Ret d
  | Raise _ => Ret []
  end.

(** ** collect_all_metrics *)

Definition all_periods : list period := [today; week; month; quarter; year].

Definition period_window (now : datetime) (p : period) : datetime * datetime :=
  match p with
  | today => (midnight (now - days 1), now)
  | week => (now - days 7, now)
  | month => (now - days 30, now)
  | quarter => (now - days 90, now)
  | year => (now - days 365, now)
  end.

(** [periods.items()] *)
Definition periods (now : datetime) : list (period * (datetime * datetime)) :=
  map (fun p => (p, period_window now p)) all_periods.

(** [for key in [...]: total[key] += stats[key]] *)
Definition add_stats (total stats : Stats) : Stats :=
  {| commits := commits total + commits stats;
     additions := additions total + additions stats;
     deletions := deletions total + deletions stats;
     files_changed := files_changed total + files_changed stats |}.

Definition set_periods (ps : period_map Stats) (d : RepoData) : RepoData :=
  {| rd_name := rd_name d; rd_full_name := rd_full_name d; rd_url := rd_url d;
     rd_description := rd_description d; rd_stars := rd_stars d;
     rd_forks := rd_forks d; rd_periods := ps |}.

Definition set_summary (s : period_map Stats) (r : Metrics) : Metrics :=
  {| meta := meta r; summary := s; repos := repos r; daily := daily r;
     languages := languages r; top_repos := top_repos r |}.

Definition set_repos (d : dict RepoData) (r : Metrics) : Metrics :=
  {| meta := meta r; summary := summary r; repos := d; daily := daily r;
     languages := languages r; top_repos := top_repos r |}.

Definition set_daily (d : dict DailyTotals) (r : Metrics) : Metrics :=
  {| meta := meta r; summary := summary r; repos := repos r; daily := d;
     languages := languages r; top_repos := top_repos r |}.

Definition set_languages (d : dict Z) (r : Metrics) : Metrics :=
  {| meta := meta r; summary := summary r; repos := repos r; daily := daily r;
     languages := d; top_repos := top_repos r |}.

Definition set_top_repos (l : list TopRepo) (r : Metrics) : Metrics :=
  {| meta := meta r; summary := summary r; repos := repos r; daily := daily r;
     languages := languages r; top_repos := l |}.

(** The body of the loop over [periods.items()] for one repository. *)
Definition period_step (W : Platform) (cfg : Config) (repo : Repository)
  (acc : RepoData * Metrics * bool) (p : period * (datetime * datetime))
  : res (RepoData * Metrics * bool) :=
  let '(repo_data, results, has_activity) := acc in
  let '(period_name, (since, until)) := p in
  (stats <- get_commit_stats W repo (GH_USERNAME cfg) since until ;;
   let repo_data := set_periods (pset period_name stats (rd_periods repo_data)) repo_data in
   let results :=
     set_summary (pset period_name (add_stats (pget period_name (summary results)) stats)
                       (summary results)) results in
   let has_activity := if 0 <? commits stats then true else has_activity in
   Ret (repo_data, results, has_activity))%res.

Definition zero_totals : DailyTotals :=
  {| total_commits := 0; total_additions := 0; total_deletions := 0 |}.

(** The body of [for day in daily]. *)
Definition add_day (results : Metrics) (day : DailyEntry) : Metrics :=
  set_daily
    (dict_update zero_totals (date day)
       (fun t => {| total_commits := total_commits t + day_commits day;
                    total_additions := total_additions t + day_additions day;
                    total_deletions := total_deletions t + day_deletions day |})
       (daily results))
    results.

(** The body of [for lang, bytes_count in languages.items()]. *)
Definition add_language (results : Metrics) (kv : string * N) : Metrics :=
  set_languages
    (dict_update 0 (fst kv) (fun b => b + Z.of_N (snd kv)) (languages results))
    results.

(** The body of [for repo in repos]; [tick] counts the calls of
    [datetime.now()] made so far. The loop over the periods assigns all five
    keys of [repo_data['periods']], so the value it starts from never shows. *)
Definition process_repo (W : Platform) (cfg : Config)
  (ps : list (period * (datetime * datetime)))
  (st : nat * Metrics) (repo : Repository) : res (nat * Metrics) :=
  let '(tick, results) := st in
  let repo_data :=
    {| rd_name := name repo; rd_full_name := full_name repo; rd_url := html_url repo;
       rd_description := description repo; rd_stars := stargazers_count repo;
       rd_forks := forks_count repo; rd_periods := pconst zero_stats |} in
  ('(repo_data, results, has_activity) <-
     foldM (period_step W cfg repo) ps (repo_data, results, false) ;;
   '(tick, results) <-
     (if has_activity : bool then
        daily <- get_daily_stats W (clock W tick) repo (GH_USERNAME cfg) 90 ;;
        Ret (S tick, fold_left add_day daily results)
      else Ret (tick, results)) ;;
   languages <- get_language_stats W repo ;;
   let results := fold_left add_language languages results in
   let results :=
     if has_activity : bool then
       set_repos (dict_set (full_name repo) repo_data (repos results)) results
     else results in
   Ret (tick, results))%res.

Definition top_entry (item : string * RepoData) : TopRepo :=
  let data := snd item in
  {| top_name := rd_full_name data;
     top_url := rd_url data;
     top_commits := commits (pget year (rd_periods data));
     top_additions := additions (pget year (rd_periods data));
     top_deletions := deletions (pget year (rd_periods data)) |}.

Definition has_year_commits (item : string * RepoData) : bool :=
  0 <? commits (pget year (rd_periods (snd item))).

Definition top_ranking (d : dict RepoData) : list TopRepo :=
  firstn 10 (sorted_desc top_additions (map top_entry (filter has_year_commits d))).

Definition collect_all_metrics (W : Platform) (cfg : Config) : res Metrics :=
  (user <- api_get_user W (GH_USERNAME cfg) ;;
   let now := clock W 0 in
   let results :=
     {| meta := {| updated_at := isoformat now; username := GH_USERNAME cfg;
                   generated_by := "GitHub Metrics Dashboard" |};
        summary := pconst zero_stats;
        repos := [];
        daily := [];
        languages := [];
        top_repos := [] |} in
   repos <- get_repos_to_track W cfg user ;;
   '(_, results) <- foldM (process_repo W cfg (periods now)) repos (1%nat, results) ;;
   Ret (set_top_repos (top_ranking (Collector.repos results)) results))%res.

End Collector.

(* ================================================================== *)
(** * scripts/generate_dashboard.py                                    *)
(* ================================================================== *)

Module Dashboard.
Import Py Collector.

Definition unwrap (c : res float) : float :=
  match c with
  | Ret x => x
  | Raise _ => nan
  end.

(** The divisors are non-zero constants, so the divisions cannot raise. *)
Definition format_number (n : Z) : string :=
  if 1000000 <=? n then (format_1f (unwrap (truediv n 1000000)) ++ "M")%string
  else if 1000 <=? n then (format_1f (unwrap (truediv n 1000)) ++ "K")%string
  else str n.

(** ** The language list of generate_html_dashboard *)

Record LangEntry : Type := {
  lang_name : string;
  lang_bytes : Z;
  lang_percent : float
}.

Definition total_bytes (languages : dict Z) : Z :=
  match languages with
  | [] => 1
  | _ :: _ => sum (dict_values languages)
  end.

Definition sorted_langs (languages : dict Z) : list (string * Z) :=
  firstn 6 (sorted_desc snd languages).

Definition lang_entry (total : Z) (l : string * Z) : res LangEntry :=
  (q <- truediv (snd l) total ;;
   Ret {| lang_name := fst l; lang_bytes := snd l;
          lang_percent := round (fmul_int q 100) 1 |})%res.

(** [lang_data] as the function computes it before it fills the template. *)
Definition lang_data (languages : dict Z) : res (list LangEntry) :=
  mapM (lang_entry (total_bytes languages)) (sorted_langs languages).

(** ** generate_readme *)

Definition nl : string := String (ascii_of_nat 10) EmptyString.

(** [metrics['meta']['updated_at'][:16].replace('T', ' ')] *)
Definition shown_updated_at (metrics : Metrics) : string :=
  replace "T"%char " "%char (take 16 (updated_at (meta metrics))).

(** One line of the summary table: the four lines of the template differ in
    the label and in the period they read. *)
Definition summary_row (label : string) (s : Stats) : string :=
  ("| " ++ label ++ " | " ++ str (commits s)
   ++ " | +" ++ format_number (additions s)
   ++ " | -" ++ format_number (deletions s)
   ++ " | " ++ format_number (additions s - deletions s) ++ " |")%string.

Definition readme_head (metrics : Metrics) : string :=
  ("# 📊 Code Metrics Dashboard" ++ nl
   ++ nl
   ++ "> **@" ++ username (meta metrics) ++ "** · Updated: "
   ++ shown_updated_at metrics ++ " UTC" ++ nl
   ++ nl
   ++ "| Period | Commits | Additions | Deletions | Net |" ++ nl
   ++ "|--------|---------|-----------|-----------|-----|" ++ nl)%string.

Definition top_heading : string :=
  (nl
   ++ "## Top Repositories" ++ nl
   ++ nl
   ++ "| Repository | Commits | ++ | -- |" ++ nl
   ++ "|------------|---------|----|----|" ++ nl)%string.

(** The body of [for repo in top_repos[:10]]. *)
Definition top_row (repo : TopRepo) : string :=
  let short := last_field (split "/"%char (top_name repo)) in
  ("| [" ++ short ++ "](" ++ top_url repo ++ ") | " ++ str (top_commits repo)
   ++ " | +" ++ format_number (top_additions repo)
   ++ " | -" ++ format_number (top_deletions repo) ++ " |" ++ nl)%string.

Definition readme_foot : string :=
  (nl ++ "---" ++ nl
   ++ "🔗 [View Dashboard](../../) · 🤖 Auto-updated daily" ++ nl)%string.

Definition generate_readme (metrics : Metrics) : string :=
  let summary := summary metrics in
  (readme_head metrics
   ++ summary_row "Today" (pget today summary) ++ nl
   ++ summary_row "Week" (pget week summary) ++ nl
   ++ summary_row "Month" (pget month summary) ++ nl
   ++ summary_row "Year" (pget year summary) ++ nl
   ++ top_heading
   ++ String.concat "" (map top_row (firstn 10 (top_repos metrics)))
   ++ readme_foot)%string.

End Dashboard.

(* ================================================================== *)
(** * Vocabulary of the statements                                     *)
(* ================================================================== *)

Module Spec.
Import Py Datetime Collector Dashboard.

(** Field-wise order on statistics. *)
Definition stats_le (s t : Stats) : Prop :=
  commits s <= commits t /\ additions s <= additions t
  /\ deletions s <= deletions t /\ files_changed s <= files_changed t.

(** Both lazily fetched attributes of the commit can be read. *)
Definition readable (c : Commit) : bool :=
  match commit_stats c, commit_files c with
  | Ret _, Ret _ => true
  | _, _ => false
  end.

(** Lines added and deleted that a commit reports, zero when unavailable. *)
Definition lines_of (c : Commit) : Z * Z :=
  match commit_stats c with
  | Ret (Some (a, d)) => (Z.of_N a, Z.of_N d)
  | _ => (0, 0)
  end.

(** Number of files a commit reports, zero when unavailable. *)
Definition files_of (c : Commit) : Z :=
  match commit_files c with
  | Ret (Some l) => Z.of_nat (List.length l)
  | _ => 0
  end.

(** What a readable commit adds to the statistics. *)
Definition contribution (c : Commit) : Stats :=
  {| commits := 1; additions := fst (lines_of c); deletions := snd (lines_of c);
     files_changed := files_of c |}.

(** What a commit has added when reading one of its attributes raised: the
    commit itself, and its lines when it was the file list that failed. *)
Definition interrupted (c : Commit) : Stats :=
  {| commits := 1; additions := fst (lines_of c); deletions := snd (lines_of c);
     files_changed := 0 |}.

Definition total_of (l : list Commit) : Stats :=
  fold_left (fun acc c => add_stats acc (contribution c)) l zero_stats.

(** The statistics a listing leaves in the accumulator. *)
Definition counted (p : paged Commit) : Stats :=
  fst (for_each count_commit (items p) zero_stats).

(** The statistics of one repository in one period of the run that started
    at [now]. *)
Definition stats_in (W : Platform) (cfg : Config) (now : datetime)
  (repo : Repository) (p : period) : Stats :=
  counted (api_get_commits W repo (GH_USERNAME cfg)
             (fst (period_window now p)) (snd (period_window now p))).

Definition period_stats (W : Platform) (cfg : Config) (now : datetime)
  (repo : Repository) : period_map Stats :=
  {| at_today := stats_in W cfg now repo today;
     at_week := stats_in W cfg now repo week;
     at_month := stats_in W cfg now repo month;
     at_quarter := stats_in W cfg now repo quarter;
     at_year := stats_in W cfg now repo year |}.

(** Active: at least one commit in at least one period. *)
Definition active (W : Platform) (cfg : Config) (now : datetime)
  (repo : Repository) : bool :=
  existsb (fun p => 0 <? commits (stats_in W cfg now repo p)) all_periods.

(** The detail record of a repository. *)
Definition detail (W : Platform) (cfg : Config) (now : datetime)
  (repo : Repository) : RepoData :=
  {| rd_name := name repo; rd_full_name := full_name repo; rd_url := html_url repo;
     rd_description := description repo; rd_stars := stargazers_count repo;
     rd_forks := forks_count repo; rd_periods := period_stats W cfg now repo |}.

(** Period-wise sum of two summaries. *)
Definition padd (m1 m2 : period_map Stats) : period_map Stats :=
  {| at_today := add_stats (at_today m1) (at_today m2);
     at_week := add_stats (at_week m1) (at_week m2);
     at_month := add_stats (at_month m1) (at_month m2);
     at_quarter := add_stats (at_quarter m1) (at_quarter m2);
     at_year := add_stats (at_year m1) (at_year m2) |}.

Definition sum_stats (l : list Stats) : Stats := fold_right add_stats zero_stats l.

(** The language mapping of a repository, empty when the query failed. *)
Definition languages_of (W : Platform) (repo : Repository) : dict N :=
  match api_get_languages W repo with
  | Ret d => d
  | Raise _ => []
  end.

(** Bytes of [lang] among the items of a language mapping. *)
Definition bytes_in (lang : string) (d : dict N) : Z :=
  fold_right (fun kv acc => if String.eqb lang (fst kv) then Z.of_N (snd kv) + acc else acc)
             0 d.

(** Bytes recorded for [lang], zero when the language is absent. *)
Definition bytes_of (lang : string) (d : dict Z) : Z :=
  match dict_get lang d with
  | Some b => b
  | None => 0
  end.

(** The entry of the daily series for the day [i] days before [now]. *)
Definition day_entry (W : Platform) (now : datetime) (repo : Repository)
  (author : string) (i : Z) : DailyEntry :=
  daily_entry (strftime_ymd (day_start now i))
    (counted (api_get_commits W repo author (day_start now i) (day_end now i))).

(** The body of [for lang, bytes_count in languages.items()] on the mapping. *)
Definition merge_language (d : dict Z) (kv : string * N) : dict Z :=
  dict_update 0 (fst kv) (fun b => b + Z.of_N (snd kv)) d.

(** The daily series of the 90-day window, as the loop over a repository
    folds it into the buckets. *)
Definition series_90 (W : Platform) (cfg : Config) (tick : nat) (repo : Repository)
  : list DailyEntry :=
  map (day_entry W (clock W tick) repo (GH_USERNAME cfg)) (range_down 90).

(** The state of the loop over the repositories after [repo]. *)
Definition processed (W : Platform) (cfg : Config) (now : datetime)
  (st : nat * Metrics) (repo : Repository) : nat * Metrics :=
  let act := active W cfg now repo in
  let r1 := set_summary (padd (summary (snd st)) (period_stats W cfg now repo)) (snd st) in
  let r2 := if act then fold_left add_day (series_90 W cfg (fst st) repo) r1 else r1 in
  let r3 := fold_left add_language (languages_of W repo) r2 in
  (if act then S (fst st) else fst st,
   if act then set_repos (dict_set (full_name repo) (detail W cfg now repo) (repos r3)) r3
   else r3).

(** The snapshot before the first repository. *)
Definition initial (cfg : Config) (now : datetime) : Metrics :=
  {| meta := {| updated_at := isoformat now; username := GH_USERNAME cfg;
                generated_by := "GitHub Metrics Dashboard" |};
     summary := pconst zero_stats;
     repos := [];
     daily := [];
     languages := [];
     top_repos := [] |}.

(** The snapshot after the loop over the repositories [rs]. *)
Definition final (W : Platform) (cfg : Config) (rs : list Repository) : Metrics :=
  snd (fold_left (processed W cfg (clock W 0)) rs (1%nat, initial cfg (clock W 0))).

(** Bytes of [lang] over the language mappings of the repositories [rs]. *)
Definition merged_bytes (W : Platform) (lang : string) (rs : list Repository) : Z :=
  fold_right (fun r acc => bytes_in lang (languages_of W r) + acc) 0 rs.

(** [row] is a whole line of the text [doc], and not its first one. *)
Definition is_line (row doc : string) : Prop :=
  exists above below,
    doc = (above ++ Dashboard.nl ++ row ++ Dashboard.nl ++ below)%string.

(** A statement keeps an invariant of the state, whether it returns or
    raises. *)
Definition preserves {S A : Type} (I : S -> Prop) (c : proc S A) : Prop :=
  forall s, I s -> I (fst (c s)).

(** A statement that cannot raise. *)
Definition returns {S : Type} (c : proc S unit) : Prop :=
  forall s, snd (c s) = Ret tt.

(** Distinct identifiers, all of them recorded in [seen]. *)
Definition distinct_tracking (t : Tracking) : Prop :=
  NoDup (map full_name (tracked t))
  /\ forall r, In r (tracked t) -> is_seen (full_name r) t = true.

(** The detail mapping after the repositories [rs], from the mapping [d]. *)
Definition recorded (W : Platform) (cfg : Config) (now : datetime)
  (d : dict RepoData) (rs : list Repository) : dict RepoData :=
  fold_left (fun d r => if active W cfg now r
                        then dict_set (full_name r) (detail W cfg now r) d else d)
            rs d.

(** Descending order of the keys. *)
Definition desc {A : Type} (key : A -> Z) (a b : A) : Prop := key b <= key a.

(** [k in l] for a list of strings. *)
Definition mem (k : string) (l : list string) : bool := existsb (String.eqb k) l.

(** The body of the discovery loops on the state. *)
Definition see (t : Tracking) (repo : Repository) : Tracking :=
  if is_seen (full_name repo) t then t
  else {| tracked := tracked t ++ [repo]; seen := full_name repo :: seen t |}.

(** The repositories the loops over the organisations visit: the listings
    of the organisations in order, up to and including the items of the first
    listing that fails. The flag tells whether all listings ended well. *)
Fixpoint org_visits (W : Platform) (orgs : list Organization) : list Repository * bool :=
  match orgs with
  | [] => ([], true)
  | org :: orgs' =>
      match failure (api_org_repos W org) with
      | Some _ => (items (api_org_repos W org), false)
      | None => (items (api_org_repos W org) ++ fst (org_visits W orgs'),
                 snd (org_visits W orgs'))
      end
  end.

(** The repositories discovery visits, in order. *)
Definition visited (W : Platform) (user : User) : list Repository :=
  items (api_auth_repos W) ++ fst (org_visits W (items (api_get_orgs W user))).

(** The repositories of a list without those whose full identifier occurred
    earlier in it. *)
Fixpoint first_by_name (l : list Repository) : list Repository :=
  match l with
  | [] => []
  | r :: l' =>
      r :: filter (fun r' => negb (String.eqb (full_name r') (full_name r)))
                  (first_by_name l')
  end.

(** The repositories the entries of a configured list resolve to, one per
    entry that has a slash and that the platform can look up. *)
Fixpoint resolved (W : Platform) (entries : list string) : list Repository :=
  match entries with
  | [] => []
  | entry :: entries' =>
      let repo_name := strip entry in
      if negb (String.eqb repo_name "") && contains "/"%char repo_name then
        match api_get_repo W repo_name with
        | Ret repo => repo :: resolved W entries'
        | Raise _ => resolved W entries'
        end
      else resolved W entries'
  end.

(** The instant [h]:[m] of the calendar day of ordinal [day]; the day of
    ordinal 1 begins at the instant 0. *)
Definition instant (day h m : Z) : datetime :=
  (day - 1) * us_per_day + h * us_per_hour + m * us_per_minute.

(** What the platform lists for a repository in a period of the run. *)
Definition period_listing (W : Platform) (cfg : Config) (now : datetime)
  (repo : Repository) (p : period) : paged Commit :=
  api_get_commits W repo (GH_USERNAME cfg)
    (fst (period_window now p)) (snd (period_window now p)).

(** A repository with a commit in some period: one of its five listings
    yields a commit. *)
Definition has_commit (W : Platform) (cfg : Config) (now : datetime)
  (repo : Repository) : bool :=
  existsb (fun p => match items (period_listing W cfg now repo p) with
                    | [] => false
                    | _ :: _ => true
                    end)
          all_periods.

(** The repositories a run processes. *)
Definition enumerated (W : Platform) (cfg : Config) : list Repository :=
  match api_get_user W (GH_USERNAME cfg) with
  | Ret user =>
      match get_repos_to_track W cfg user with
      | Ret rs => rs
      | Raise _ => []
      end
  | Raise _ => []
  end.

(** A string of a list of strings without its later repetitions. *)
Fixpoint first_seen (l : list string) : list string :=
  match l with
  | [] => []
  | x :: l' => x :: filter (fun y => negb (String.eqb y x)) (first_seen l')
  end.

(** [x] stands at an earlier position than [y]. *)
Inductive before {A : Type} (x y : A) : list A -> Prop :=
| before_here : forall l, In y l -> before x y (x :: l)
| before_later : forall z l, before x y l -> before x y (z :: l).

(** ** White space and comma-separated lists *)

(** The code points of the characters that [str.isspace] accepts and
    [str.strip] removes. *)
Definition white_space_points : list N :=
  [9; 10; 11; 12; 13; 28; 29; 30; 31; 32; 133; 160; 5760;
   8192; 8193; 8194; 8195; 8196; 8197; 8198; 8199; 8200; 8201; 8202;
   8232; 8233; 8239; 8287; 12288]%N.

(** The UTF-8 encoding of a code point below U+10000. *)
Definition utf8 (n : N) : string :=
  (if n <? 128 then String (ascii_of_N n) ""
   else if n <? 2048 then
     String (ascii_of_N (192 + n / 64)) (String (ascii_of_N (128 + n mod 64)) "")
   else
     String (ascii_of_N (224 + n / 4096))
       (String (ascii_of_N (128 + (n / 64) mod 64))
          (String (ascii_of_N (128 + n mod 64)) "")))%N.

Definition white_space : list string := map utf8 white_space_points.

(** The concatenation of the strings of a list. *)
Definition joined (l : list string) : string := fold_right String.append "" l.

Definition reversed (s : string) : string :=
  string_of_list_ascii (rev (list_ascii_of_string s)).

(** [s.startswith(w)]. *)
Fixpoint starts_with (w s : string) : bool :=
  match w, s with
  | EmptyString, _ => true
  | String a w', String b s' => Ascii.eqb a b && starts_with w' s'
  | String _ _, EmptyString => false
  end.

Definition starts_blank (s : string) : bool :=
  existsb (fun w => starts_with w s) white_space.

Definition ends_blank (s : string) : bool :=
  existsb (fun w => starts_with (reversed w) (reversed s)) white_space.

(** Neither the first nor the last character is white space. *)
Definition trimmed (s : string) : bool :=
  negb (starts_blank s) && negb (ends_blank s).

(** A list of white-space characters. *)
Definition blanks (l : list string) : bool :=
  forallb (fun w => existsb (String.eqb w) white_space) l.

(** [core] is [entry] without the white space around it. *)
Definition trims (entry core : string) : Prop :=
  exists l r,
    blanks l = true /\ blanks r = true /\ trimmed core = true
    /\ entry = (joined l ++ core ++ joined r)%string.

(** The repositories the platform returns for the names that are not empty
    and hold a slash, one lookup per name, in order. *)
Definition looked_up (W : Platform) (names : list string) : list Repository :=
  flat_map (fun n =>
              if negb (String.eqb n "")
                 && existsb (Ascii.eqb "/"%char) (list_ascii_of_string n)
              then match api_get_repo W n with
                   | Ret repo => [repo]
                   | Raise _ => []
                   end
              else [])
           names.

(** [entries] are the fields of the comma-separated list [s]. *)
Definition listed (entries : list string) (s : string) : Prop :=
  entries <> []
  /\ s = String.concat "," entries
  /\ forallb (fun e => negb (existsb (Ascii.eqb ","%char) (list_ascii_of_string e)))
             entries = true.

End Spec.

(* ================================================================== *)
(** * Concrete platforms                                               *)
(* ================================================================== *)

Module Examples.
Import Py Datetime Collector.

(** A platform built from a commit log per repository: a listing returns the
    commits of the log whose timestamp is in the window asked for. *)
Definition log : Type := list (datetime * Commit).

Definition listing (l : log) (since until : datetime) : paged Commit :=
  Paged (map snd (filter (fun tc => in_window since until (fst tc)) l)) None.

Definition plain_commit (a d : N) (fs : list string) : Commit :=
  {| commit_stats := Ret (Some (a, d)); commit_files := Ret (Some fs) |}.

Definition repo_named (full : string) : Repository :=
  {| name := last_field (split "/"%char full); full_name := full;
     html_url := ("https://github.com/" ++ full)%string; description := None;
     stargazers_count := 0; forks_count := 0; fork := false |}.

(** 2026-11-04T12:00:00. *)
Definition noon : datetime := (739924 - 1) * us_per_day + 12 * us_per_hour.

Definition platform_of (logs : string -> log) (langs : string -> res (dict N))
  (owned : list string) : Platform :=
  {| api_get_user := fun login => Ret login;
     api_get_repo := fun full => Ret (repo_named full);
     api_auth_repos := Paged (map repo_named owned) None;
     api_get_orgs := fun _ => Paged [] None;
     api_org_repos := fun _ => Paged [] None;
     api_get_commits := fun repo _ since until => listing (logs (full_name repo)) since until;
     api_get_languages := fun repo => langs (full_name repo);
     clock := fun _ => noon |}.

(** One repository, ["a/b"], with one commit an hour before noon; ["c/d"]
    has no commit but reports a language. *)
Definition one_commit (full : string) : log :=
  if String.eqb full "a/b" then [(noon - us_per_hour, plain_commit 10 2 ["README.md"])]
  else [].

Definition some_langs (full : string) : res (dict N) :=
  if String.eqb full "a/b" then Ret [("Python", 800%N)]
  else if String.eqb full "c/d" then Ret [("Python", 100%N); ("Shell", 7%N)]
  else Raise (GithubException 404).

Definition small : Platform := platform_of one_commit some_langs ["a/b"; "c/d"].

(** The same repository named twice in the configured list. *)
Definition twice : Config := {| GH_USERNAME := "djok"; REPOS_TO_TRACK := "a/b,a/b" |}.

(** No configured list: the repositories are discovered. *)
Definition discover : Config := {| GH_USERNAME := "djok"; REPOS_TO_TRACK := "" |}.

(** Four repositories with one commit each within the year, two of them
    with equal additions, and one whose only commit is two years old. *)
Definition yearly (full : string) : log :=
  if String.eqb full "x/a" then [(noon - days 40, plain_commit 5 1 ["f"])]
  else if String.eqb full "x/b" then [(noon - days 3, plain_commit 9 0 ["f"; "g"])]
  else if String.eqb full "x/c" then [(noon - days 100, plain_commit 5 2 [])]
  else if String.eqb full "x/d" then [(noon - days 730, plain_commit 50 0 ["f"])]
  else if String.eqb full "x/e" then [(noon - days 200, plain_commit 7 7 ["f"])]
  else [].

Definition ranked : Platform :=
  platform_of yearly (fun _ => Ret []) ["x/a"; "x/b"; "x/c"; "x/d"; "x/e"].

(** Twelve repositories with one commit each ten days before noon; the
    number is the additions of the commit. *)
Definition crowd : list (string * N) :=
  [("o/01", 1%N); ("o/02", 2%N); ("o/03", 3%N); ("o/04", 4%N); ("o/05", 6%N);
   ("o/06", 6%N); ("o/07", 7%N); ("o/08", 8%N); ("o/09", 9%N); ("o/10", 10%N);
   ("o/11", 11%N); ("o/12", 12%N)].

Definition crowd_log (full : string) : log :=
  match dict_get full crowd with
  | Some a => [(noon - days 10, plain_commit a 0 [])]
  | None => []
  end.

Definition crowded : Platform :=
  platform_of crowd_log (fun _ => Ret []) (dict_keys crowd).

(** A listing that fails after its first commit, and one whose second commit
    cannot be read. *)
Definition failing_listing : paged Commit :=
  Paged [plain_commit 3 1 ["x"; "y"]] (Some (GithubException 502)).

Definition unreadable_commit : Commit :=
  {| commit_stats := Ret (Some (5%N, 4%N)); commit_files := Raise (GithubException 500) |}.

Definition flaky : Platform :=
  {| api_get_user := fun login => Ret login;
     api_get_repo := fun full => Ret (repo_named full);
     api_auth_repos := Paged [] None;
     api_get_orgs := fun _ => Paged [] None;
     api_org_repos := fun _ => Paged [] None;
     api_get_commits := fun repo _ _ _ =>
       if String.eqb (full_name repo) "a/b" then failing_listing
       else if String.eqb (full_name repo) "c/d" then
         Paged [plain_commit 3 1 ["x"; "y"]; unreadable_commit; plain_commit 9 9 []] None
       else Paged [] (Some (GithubException 409));
     api_get_languages := fun _ => Raise (GithubException 500);
     clock := fun _ => noon |}.

(** A snapshot with the month of the end-to-end scenario. *)
Definition scenario : Metrics :=
  {| meta := {| updated_at := "2026-11-04T07:20:33.123456"; username := "djok";
                generated_by := "GitHub Metrics Dashboard" |};
     summary :=
       {| at_today := zero_stats;
          at_week := {| commits := 3; additions := 1500; deletions := 20;
                        files_changed := 4 |};
          at_month := {| commits := 12; additions := 340; deletions := 55;
                         files_changed := 8 |};
          at_quarter := zero_stats;
          at_year := {| commits := 900; additions := 1234567; deletions := 2345678;
                        files_changed := 1000 |} |};
     repos := [];
     daily := [];
     languages := [("Python", 800); ("JavaScript", 200)];
     top_repos := [{| top_name := "djok/me"; top_url := "https://github.com/djok/me";
                      top_commits := 5; top_additions := 999; top_deletions := 1000 |}] |}.

(** Six languages of one byte each. *)
Definition six_equal : dict Z :=
  [("a", 1); ("b", 1); ("c", 1); ("d", 1); ("e", 1); ("f", 1)].

End Examples.

(* ================================================================== *)
(** * scripts/generate_dashboard.py: the data of the charts             *)
(* ================================================================== *)

Module Charts.
Import Py Collector.

(** [sorted(l)] of strings: ascending by code points, stable. The model is
    the insertion sort that folds from the right: an element goes after the
    strictly smaller ones. *)
Fixpoint insert_str (x : string) (l : list string) : list string :=
  match l with
  | [] => [x]
  | y :: l' => if String.ltb y x then y :: insert_str x l' else x :: y :: l'
  end.

Fixpoint sorted_str (l : list string) : list string :=
  match l with
  | [] => []
  | x :: l' => insert_str x (sorted_str l')
  end.

(** [l[-n:]] for [0 < n]: the whole list when it has at most [n] elements. *)
Definition last_n {A : Type} (n : nat) (l : list A) : list A :=
  skipn (List.length l - n) l.

(** [dates = sorted(daily.keys())[-90:]] *)
Definition dates (daily : dict DailyTotals) : list string :=
  last_n 90 (sorted_str (dict_keys daily)).

(** [daily.get(d, {}).get(field, 0)] *)
Definition bucket (field : DailyTotals -> Z) (daily : dict DailyTotals) (d : string) : Z :=
  match dict_get d daily with
  | Some b => field b
  | None => 0
  end.

Definition commits_data (daily : dict DailyTotals) : list Z :=
  map (bucket total_commits daily) (dates daily).

Definition additions_data (daily : dict DailyTotals) : list Z :=
  map (bucket total_additions daily) (dates daily).

Definition deletions_data (daily : dict DailyTotals) : list Z :=
  map (bucket total_deletions daily) (dates daily).

(** The script of the page. [periodDays] is its table of days per period. *)
Definition periodDays (p : period) : Z :=
  match p with
  | today => 1
  | week => 7
  | month => 30
  | quarter => 90
  | year => 365
  end.

(** [a.slice(start)] of an array for [0 <= start]. *)
Definition slice {A : Type} (start : Z) (a : list A) : list A :=
  skipn (Z.to_nat start) a.

Record Series : Type := {
  series_dates : list string;
  series_commits : list Z;
  series_additions : list Z;
  series_deletions : list Z
}.

(** [getDataForPeriod(period)] over the four embedded arrays. *)
Definition getDataForPeriod (allDates : list string)
  (allCommits allAdditions allDeletions : list Z) (p : period) : Series :=
  let days := Z.min (periodDays p) (Z.of_nat (List.length allDates)) in
  let start := Z.of_nat (List.length allDates) - days in
  {| series_dates := slice start allDates;
     series_commits := slice start allCommits;
     series_additions := slice start allAdditions;
     series_deletions := slice start allDeletions |}.

(** The series the page shows for a period of a snapshot. *)
Definition shown_series (metrics : Metrics) (p : period) : Series :=
  getDataForPeriod (dates (daily metrics)) (commits_data (daily metrics))
                   (additions_data (daily metrics)) (deletions_data (daily metrics)) p.

End Charts.

(* ================================================================== *)
(** * Vocabulary of the further statements                              *)
(* ================================================================== *)

Module Terms.
Import Py Datetime Collector Dashboard Spec.

(** The entries of the daily series the loop over the repositories folds
    into the buckets, in order; [tick] counts the calls of the clock. *)
Fixpoint folded_days (W : Platform) (cfg : Config) (now : datetime) (tick : nat)
  (rs : list Repository) : list DailyEntry :=
  match rs with
  | [] => []
  | r :: rs' =>
      if has_commit W cfg now r
      then series_90 W cfg tick r ++ folded_days W cfg now (S tick) rs'
      else folded_days W cfg now tick rs'
  end.

(** Sum of a field over the entries dated [d]. *)
Definition day_sum (field : DailyEntry -> Z) (d : string) (l : list DailyEntry) : Z :=
  fold_right (fun e acc => if String.eqb d (date e) then field e + acc else acc) 0 l.

(** Sum of a field over all the buckets. *)
Definition buckets_sum (field : DailyTotals -> Z) (daily : dict DailyTotals) : Z :=
  fold_right (fun kv acc => field (snd kv) + acc) 0 daily.

Definition entries_sum (field : DailyEntry -> Z) (l : list DailyEntry) : Z :=
  fold_right (fun e acc => field e + acc) 0 l.

(** Ascending order of strings. *)
Definition ascending (s t : string) : Prop := String.leb s t = true.

(** The body of [for day in daily] on the mapping. *)
Definition merge_day (d : dict DailyTotals) (day : DailyEntry) : dict DailyTotals :=
  dict_update zero_totals (date day)
    (fun t => {| total_commits := total_commits t + day_commits day;
                 total_additions := total_additions t + day_additions day;
                 total_deletions := total_deletions t + day_deletions day |})
    d.

(** The first byte of a white-space character is no later byte of one. *)
Definition lead (a : ascii) : bool :=
  let n := nat_of_ascii a in
  ((9 <=? n) && (n <=? 13) || (28 <=? n) && (n <=? 32)
   || (n =? 194) || (n =? 225) || (n =? 226) || (n =? 227))%nat.

End Terms.

(* ================================================================== *)
(** * Further concrete inputs                                           *)
(* ================================================================== *)

Module Cases.
Import Py Datetime Collector Examples.

(** A configured list that is not empty and names no repository. *)
Definition blank : Config := {| GH_USERNAME := "djok"; REPOS_TO_TRACK := " , x" |}.

(** A platform on which the lookup of the user fails. *)
Definition unknown_user : Platform :=
  {| api_get_user := fun _ => Raise (GithubException 404);
     api_get_repo := api_get_repo small;
     api_auth_repos := api_auth_repos small;
     api_get_orgs := api_get_orgs small;
     api_org_repos := api_org_repos small;
     api_get_commits := api_get_commits small;
     api_get_languages := api_get_languages small;
     clock := clock small |}.

(** A configured list with white space of one, two and three bytes around
    the names, a bare name and an empty entry. *)
Definition padded : Config :=
  {| GH_USERNAME := "djok";
     REPOS_TO_TRACK :=
       (" a/b ," ++ Spec.utf8 160 ++ "c/d" ++ Spec.utf8 8195 ++ Spec.utf8 9 ++ ",x,,a/b")%string |}.

End Cases.

(* ================================================================== *)
(** * Properties                                                       *)
(* ================================================================== *)

Import Py Datetime Collector Dashboard Spec Examples.
Import Charts Terms Cases.

(** ** The statement monad *)

Lemma for_each_app {S A : Type} (body : A -> proc S unit) (l1 l2 : list A) (s : S) :
  for_each body (l1 ++ l2) s =
  match for_each body l1 s with
  | (s', Ret _) => for_each body l2 s'
  | (s', Raise e) => (s', Raise e)
  end.
Proof.
  revert s. induction l1 as [|x l1 IH]; intros s; simpl.
  - reflexivity.
  - unfold bind. destruct (body x s) as [s' [[]|e]]; [apply IH | reflexivity].
Qed.

(** A loop whose body always returns is a [fold_left]. *)
Lemma foldM_total {A B : Type} (f : B -> A -> res B) (g : B -> A -> B) (l : list A) :
  (forall b x, f b x = Ret (g b x)) ->
  forall b, foldM f l b = Ret (fold_left g l b).
Proof.
  intros Hf. induction l as [|x l IH]; intros b; simpl.
  - reflexivity.
  - rewrite Hf. simpl. apply IH.
Qed.

Lemma mapM_total {A B : Type} (f : A -> res B) (g : A -> B) (l : list A) :
  (forall x, f x = Ret (g x)) -> mapM f l = Ret (map g l).
Proof.
  intros Hf. induction l as [|x l IH]; simpl.
  - reflexivity.
  - rewrite Hf, IH. reflexivity.
Qed.

(** ** get_commit_stats *)

Lemma stats_le_refl (s : Stats) : stats_le s s.
Proof. unfold stats_le; lia. Qed.

Lemma stats_le_trans (s t u : Stats) : stats_le s t -> stats_le t u -> stats_le s u.
Proof. unfold stats_le; lia. Qed.

Lemma lines_of_nonneg (c : Commit) : 0 <= fst (lines_of c) /\ 0 <= snd (lines_of c).
Proof.
  unfold lines_of. destruct (commit_stats c) as [[[a d]|]|e]; simpl; lia.
Qed.

Lemma files_of_nonneg (c : Commit) : 0 <= files_of c.
Proof.
  unfold files_of. destruct (commit_files c) as [[l|]|e]; lia.
Qed.

(** One commit, read without failure, adds its contribution. *)
Lemma count_commit_readable (c : Commit) (s : Stats) :
  readable c = true ->
  count_commit c s = (add_stats s (contribution c), Ret tt).
Proof.
  unfold readable, count_commit, contribution, lines_of, files_of, add_stats,
    bind, modify, lift, ret.
  destruct (commit_stats c) as [[[a d]|]|e1]; [| |discriminate];
    (destruct (commit_files c) as [[[|f fs]|]|e2]; [| | |discriminate]);
    intros _; simpl; repeat f_equal; lia.
Qed.

(** One commit whose attributes cannot all be read stops the loop after it
    was counted. *)
Lemma count_commit_interrupted (c : Commit) (s : Stats) :
  readable c = false ->
  exists e, count_commit c s = (add_stats s (interrupted c), Raise e).
Proof.
  unfold readable, count_commit, interrupted, lines_of, add_stats,
    bind, modify, lift, ret.
  destruct (commit_stats c) as [[[a d]|]|e1];
    [destruct (commit_files c) as [x|e2]; [discriminate|]
    |destruct (commit_files c) as [x|e2]; [discriminate|] | ];
    intros _; simpl; eexists; repeat f_equal; lia.
Qed.

Lemma count_commit_monotone (c : Commit) (s : Stats) :
  stats_le s (fst (count_commit c s)).
Proof.
  destruct (readable c) eqn:R.
  - rewrite (count_commit_readable c s R). simpl.
    pose proof (lines_of_nonneg c). pose proof (files_of_nonneg c).
    unfold stats_le, add_stats, contribution; simpl. lia.
  - destruct (count_commit_interrupted c s R) as [e ->]. simpl.
    pose proof (lines_of_nonneg c).
    unfold stats_le, add_stats, interrupted; simpl. lia.
Qed.

Lemma for_each_count_monotone (l : list Commit) (s : Stats) :
  stats_le s (fst (for_each count_commit l s)).
Proof.
  revert s. induction l as [|c l IH]; intros s; simpl.
  - apply stats_le_refl.
  - unfold bind. pose proof (count_commit_monotone c s) as H.
    destruct (count_commit c s) as [s' [[]|e]]; simpl in *.
    + eapply stats_le_trans; [exact H | apply IH].
    + exact H.
Qed.

Lemma fold_add_contribution (l : list Commit) (s : Stats) :
  fold_left (fun acc c => add_stats acc (contribution c)) l s
  = add_stats s (total_of l).
Proof.
  unfold total_of. revert s. induction l as [|c l IH] using rev_ind; intros s.
  - simpl. unfold add_stats, zero_stats; destruct s; simpl; f_equal; lia.
  - rewrite !fold_left_app. simpl. rewrite IH.
    unfold add_stats; simpl; f_equal; lia.
Qed.

Lemma for_each_count_readable (l : list Commit) (s : Stats) :
  forallb readable l = true ->
  for_each count_commit l s = (add_stats s (total_of l), Ret tt).
Proof.
  rewrite <- fold_add_contribution.
  revert s. induction l as [|c l IH]; intros s H; simpl in *.
  - reflexivity.
  - apply andb_prop in H as [Hc Hl]. unfold bind.
    rewrite (count_commit_readable c s Hc). apply (IH _ Hl).
Qed.

Lemma get_commit_stats_returns W repo author since until :
  get_commit_stats W repo author since until
  = Ret (counted (api_get_commits W repo author since until)).
Proof.
  unfold get_commit_stats, returning, try_except, for_paged, counted, bind.
  destruct (for_each count_commit _ zero_stats) as [s [[]|e]]; simpl.
  - destruct (failure _); reflexivity.
  - reflexivity.
Qed.

Lemma counted_zero_commits (p : paged Commit) :
  commits (counted p) = 0 -> items p = [].
Proof.
  unfold counted. destruct (items p) as [|c l]; [reflexivity|].
  simpl. unfold bind. intros H. exfalso.
  assert (Hc : commits (fst (count_commit c zero_stats)) = 1).
  { destruct (readable c) eqn:R.
    - rewrite (count_commit_readable c _ R). reflexivity.
    - destruct (count_commit_interrupted c zero_stats R) as [e ->]. reflexivity. }
  destruct (count_commit c zero_stats) as [s' [[]|e]]; simpl in *.
  - pose proof (for_each_count_monotone l s') as [M _]. lia.
  - lia.
Qed.

(** C7: the accumulator always returns; the statistics start from zero and
    grow with every commit the listing yields (a commit whose counts are
    unavailable adds none); a listing that fails returns what the commits
    before the failure added, and a commit whose attributes cannot be read
    ends the count after it was counted itself. *)
Theorem get_commit_stats_never_raises W repo author since until :
  let found := api_get_commits W repo author since until in
  exists s,
    get_commit_stats W repo author since until = Ret s
    /\ stats_le zero_stats s
    /\ (forall c acc, stats_le acc (fst (count_commit c acc)))
    /\ (forall done rest,
          items found = done ++ rest -> forallb readable done = true ->
          stats_le (total_of done) s)
    /\ (items found = [] -> s = zero_stats)
    /\ (forallb readable (items found) = true -> s = total_of (items found))
    /\ (forall done c rest,
          items found = done ++ c :: rest ->
          forallb readable done = true -> readable c = false ->
          s = add_stats (total_of done) (interrupted c)).
Proof.
  intros found. exists (counted found).
  split; [apply get_commit_stats_returns|].
  split; [apply for_each_count_monotone|].
  split; [apply count_commit_monotone|].
  assert (Hz : forall t, add_stats zero_stats t = t).
  { intros [a b c d]. reflexivity. }
  split; [|split; [|split]].
  - unfold counted. intros done rest -> R.
    rewrite for_each_app, (for_each_count_readable _ _ R), Hz.
    apply for_each_count_monotone.
  - unfold counted. intros ->. reflexivity.
  - unfold counted. intros R. rewrite (for_each_count_readable _ _ R). apply Hz.
  - unfold counted. intros done c rest -> R U.
    rewrite for_each_app, (for_each_count_readable _ _ R), Hz. simpl. unfold bind.
    destruct (count_commit_interrupted c (total_of done) U) as [e ->]. reflexivity.
Qed.

Lemma get_commit_stats_never_raises_witness :
  get_commit_stats flaky (repo_named "a/b") "djok" 0 1
  = Ret {| commits := 1; additions := 3; deletions := 1; files_changed := 2 |}
  /\ get_commit_stats flaky (repo_named "c/d") "djok" 0 1
     = Ret {| commits := 2; additions := 8; deletions := 5; files_changed := 2 |}
  /\ get_commit_stats flaky (repo_named "e/f") "djok" 0 1 = Ret zero_stats.
Proof.
  split; [|split].
  - destruct (get_commit_stats_never_raises flaky (repo_named "a/b") "djok" 0 1)
      as (s & E & _ & _ & _ & _ & R & _).
    rewrite E, R; reflexivity.
  - destruct (get_commit_stats_never_raises flaky (repo_named "c/d") "djok" 0 1)
      as (s & E & _ & _ & _ & _ & _ & I).
    rewrite E.
    rewrite (I [plain_commit 3 1 ["x"; "y"]] unreadable_commit [plain_commit 9 9 []]);
      reflexivity.
  - destruct (get_commit_stats_never_raises flaky (repo_named "e/f") "djok" 0 1)
      as (s & E & _ & _ & _ & Z & _ & _).
    rewrite E, Z; reflexivity.
Defined.

Lemma pset_pget {A : Type} (p : period) (m : period_map A) : pset p (pget p m) m = m.
Proof. destruct p, m; reflexivity. Qed.

Lemma pget_pset {A : Type} (p q : period) (a : A) (m : period_map A) :
  pget p (pset q a m) = if period_eqb p q then a else pget p m.
Proof. destruct p, q; reflexivity. Qed.

Lemma add_zero_stats (t : Stats) : add_stats t zero_stats = t.
Proof. destruct t; unfold add_stats, zero_stats; simpl; f_equal; lia. Qed.

Lemma period_step_returns W cfg repo rd results act p since until :
  period_step W cfg repo (rd, results, act) (p, (since, until))
  = let stats := counted (api_get_commits W repo (GH_USERNAME cfg) since until) in
    Ret (set_periods (pset p stats (rd_periods rd)) rd,
         set_summary (pset p (add_stats (pget p (summary results)) stats)
                           (summary results)) results,
         if 0 <? commits stats then true else act).
Proof.
  unfold period_step. rewrite get_commit_stats_returns. reflexivity.
Qed.

(** C10: statistics with no commit counted have no additions, deletions or
    files either, so adding them to a total changes nothing; a period in
    which a repository has no commit leaves the summary of the run as it
    was and does not mark the repository active. *)
Theorem zero_commits_contribute_nothing :
  (forall W repo author since until s,
     get_commit_stats W repo author since until = Ret s ->
     commits s = 0 ->
     additions s = 0 /\ deletions s = 0 /\ files_changed s = 0
     /\ forall total, add_stats total s = total)
  /\ (forall W cfg repo rd results act p window rd' results' act',
        period_step W cfg repo (rd, results, act) (p, window)
        = Ret (rd', results', act') ->
        commits (pget p (rd_periods rd')) = 0 ->
        summary results' = summary results /\ act' = act).
Proof.
  split.
  - intros W repo author since until s E H.
    rewrite get_commit_stats_returns in E. injection E as <-.
    assert (Z : counted (api_get_commits W repo author since until) = zero_stats).
    { unfold counted. rewrite (counted_zero_commits _ H). reflexivity. }
    rewrite Z. repeat split. apply add_zero_stats.
  - intros W cfg repo rd results act p [since until] rd' results' act' E H.
    rewrite period_step_returns in E. simpl in E. injection E as <- <- <-.
    simpl in H. rewrite pget_pset in H.
    replace (period_eqb p p) with true in H by (destruct p; reflexivity).
    assert (Z : counted (api_get_commits W repo (GH_USERNAME cfg) since until) = zero_stats).
    { unfold counted. rewrite (counted_zero_commits _ H). reflexivity. }
    rewrite Z. simpl. rewrite add_zero_stats, pset_pget. split; reflexivity.
Qed.

Lemma zero_commits_contribute_nothing_witness :
  let quiet := repo_named "c/d" in
  let total := {| commits := 4; additions := 30; deletions := 20; files_changed := 10 |} in
  get_commit_stats small quiet "djok" (noon - days 7) noon = Ret zero_stats
  /\ add_stats total zero_stats = total.
Proof.
  intros quiet total.
  assert (E : get_commit_stats small quiet "djok" (noon - days 7) noon = Ret zero_stats)
    by reflexivity.
  split; [exact E|].
  exact (proj2 (proj2 (proj2
    (proj1 zero_commits_contribute_nothing small quiet "djok" (noon - days 7) noon
           zero_stats E eq_refl))) total).
Defined.

(** ** Time windows *)

Lemma midnight_shift (t n : Z) : midnight (t - days n) = midnight t - days n.
Proof.
  unfold midnight, days.
  replace (t - n * us_per_day) with (t + (- n) * us_per_day) by ring.
  rewrite Z_mod_plus_full. unfold datetime. lia.
Qed.

Lemma midnight_bounds (t : Z) : midnight t <= t < midnight t + us_per_day.
Proof.
  unfold midnight.
  pose proof (Z.mod_pos_bound t us_per_day ltac:(reflexivity)). lia.
Qed.

(** C4: the window of "today" starts at 00:00:00 of the calendar day before
    the day of the run and ends at the instant of the run; any instant of the
    minute 23:59 of the previous day is inside it, any instant of the minute
    23:59 two days before is outside it; the start itself is inside and the
    end is not. *)
Theorem today_spans_since_yesterday_midnight (now extra : Z) :
  let w := period_window now today in
  let within_minute := extra mod us_per_minute in
  let day := toordinal now in
  fst w = instant (day - 1) 0 0
  /\ fst w mod us_per_day = 0
  /\ toordinal (fst w) = day - 1
  /\ fst w = midnight now - days 1
  /\ snd w = now
  /\ fst w <= instant (day - 1) 23 59 + within_minute < snd w
  /\ instant (day - 2) 23 59 + within_minute < fst w
  /\ in_window (fst w) (snd w) (instant (day - 1) 23 59 + within_minute) = true
  /\ in_window (fst w) (snd w) (instant (day - 2) 23 59 + within_minute) = false
  /\ at_time (now - days 1) 23 59 = instant (day - 1) 23 59
  /\ at_time (now - days 2) 23 59 = instant (day - 2) 23 59
  /\ in_window (fst w) (snd w) (at_time (now - days 1) 23 59 + within_minute) = true
  /\ in_window (fst w) (snd w) (at_time (now - days 2) 23 59 + within_minute) = false
  /\ in_window (fst w) (snd w) (fst w) = true
  /\ in_window (fst w) (snd w) (snd w) = false.
Proof.
  intros w m day. subst w day. unfold period_window. cbn [fst snd].
  pose proof (Z.mod_pos_bound extra us_per_minute ltac:(reflexivity)) as Hm.
  fold m in Hm.
  pose proof (midnight_bounds now) as Hn.
  assert (Hd : midnight now = instant (toordinal now) 0 0).
  { unfold midnight, instant, toordinal.
    pose proof (Z.div_mod now us_per_day ltac:(discriminate)) as D.
    unfold datetime in *. lia. }
  assert (Hz : forall k, (instant k 0 0) mod us_per_day = 0).
  { intros k. unfold instant.
    replace ((k - 1) * us_per_day + 0 * us_per_hour + 0 * us_per_minute)
      with ((k - 1) * us_per_day) by lia.
    apply Z_mod_mult. }
  assert (Ho : forall k, toordinal (instant k 0 0) = k).
  { intros k. unfold toordinal, instant.
    replace ((k - 1) * us_per_day + 0 * us_per_hour + 0 * us_per_minute)
      with ((k - 1) * us_per_day) by lia.
    rewrite Z_div_mult by reflexivity. lia. }
  assert (Hs : midnight (now - days 1) = instant (toordinal now - 1) 0 0).
  { rewrite midnight_shift, Hd. unfold instant, days. unfold datetime. lia. }
  split; [exact Hs|]. split; [rewrite Hs; apply Hz|]. split; [rewrite Hs; apply Ho|].
  unfold in_window, at_time. rewrite !midnight_shift, Hd.
  unfold instant, days, us_per_day, us_per_hour, us_per_minute, us_per_second in *.
  unfold datetime in *.
  repeat split; try reflexivity;
    rewrite ?andb_true_iff, ?andb_false_iff, ?Z.leb_le, ?Z.ltb_lt, ?Z.leb_gt, ?Z.ltb_ge;
    lia.
Qed.

Lemma today_spans_since_yesterday_midnight_witness :
  let w := period_window noon today in
  isoformat noon = "2026-11-04T12:00:00"
  /\ isoformat (fst w) = "2026-11-03T00:00:00"
  /\ fst w = instant 739923 0 0
  /\ snd w = noon
  /\ isoformat (instant 739923 23 59) = "2026-11-03T23:59:00"
  /\ in_window (fst w) (snd w) (instant 739923 23 59) = true
  /\ isoformat (instant 739922 23 59) = "2026-11-02T23:59:00"
  /\ in_window (fst w) (snd w) (instant 739922 23 59) = false.
Proof.
  pose proof (today_spans_since_yesterday_midnight noon 0)
    as (S & _ & _ & _ & N & _ & _ & I & O & _).
  cbv zeta in *. repeat split; try reflexivity; assumption.
Defined.

(** ** get_daily_stats *)

Lemma get_daily_stats_returns W now repo author ndays :
  get_daily_stats W now repo author ndays
  = Ret (map (day_entry W now repo author) (range_down ndays)).
Proof.
  unfold get_daily_stats. apply mapM_total. intros i.
  rewrite get_commit_stats_returns. reflexivity.
Qed.

Lemma range_down_length (n : Z) : List.length (range_down n) = Z.to_nat (n + 1).
Proof. unfold range_down. rewrite length_map, length_seq. reflexivity. Qed.

Lemma range_down_nth (n k : Z) :
  0 <= k <= n -> nth_error (range_down n) (Z.to_nat k) = Some (n - k).
Proof.
  intros H. unfold range_down.
  rewrite nth_error_map, nth_error_seq.
  replace (Z.to_nat k <? Z.to_nat (n + 1))%nat with true
    by (symmetry; apply Nat.ltb_lt; lia).
  simpl. f_equal. lia.
Qed.

(** ** collect_all_metrics: one repository *)

Lemma periods_loop W cfg now repo rd results :
  foldM (period_step W cfg repo) (periods now) (rd, results, false)
  = Ret (set_periods (period_stats W cfg now repo) rd,
         set_summary (padd (summary results) (period_stats W cfg now repo)) results,
         active W cfg now repo).
Proof.
  unfold periods, all_periods. cbn [map foldM period_window].
  repeat (rewrite period_step_returns; cbn [rbind fst snd]).
  cbv zeta. cbn [rbind foldM]. f_equal.
  unfold active, all_periods, stats_in, period_stats, padd, set_periods, set_summary,
    stats_in, existsb.
  cbn [period_window fst snd pset pget rd_periods rd_name rd_full_name rd_url
       rd_description rd_stars rd_forks summary meta repos daily languages top_repos
       at_today at_week at_month at_quarter at_year].
  f_equal.
  repeat match goal with |- context [0 <? ?x] => destruct (0 <? x) end; reflexivity.
Qed.

Lemma get_language_stats_returns W repo :
  get_language_stats W repo = Ret (languages_of W repo).
Proof.
  unfold get_language_stats, languages_of.
  destruct (api_get_languages W repo); reflexivity.
Qed.

Lemma process_repo_returns W cfg now st repo :
  process_repo W cfg (periods now) st repo = Ret (processed W cfg now st repo).
Proof.
  destruct st as [tick results]. unfold process_repo, processed.
  rewrite periods_loop. cbn [rbind fst snd].
  rewrite get_daily_stats_returns, get_language_stats_returns.
  destruct (active W cfg now repo); reflexivity.
Qed.

Lemma add_day_frame (l : list DailyEntry) (r : Metrics) :
  summary (fold_left add_day l r) = summary r
  /\ repos (fold_left add_day l r) = repos r
  /\ languages (fold_left add_day l r) = languages r
  /\ meta (fold_left add_day l r) = meta r.
Proof.
  revert r. induction l as [|d l IH]; intros r; simpl.
  - repeat split.
  - destruct (IH (add_day r d)) as (-> & -> & -> & ->). repeat split.
Qed.

Lemma add_language_frame (l : dict N) (r : Metrics) :
  summary (fold_left add_language l r) = summary r
  /\ repos (fold_left add_language l r) = repos r
  /\ daily (fold_left add_language l r) = daily r
  /\ meta (fold_left add_language l r) = meta r
  /\ languages (fold_left add_language l r) = fold_left merge_language l (languages r).
Proof.
  revert r. induction l as [|kv l IH]; intros r; simpl.
  - repeat split.
  - destruct (IH (add_language r kv)) as (-> & -> & -> & -> & ->). repeat split.
Qed.

Lemma processed_summary W cfg now st repo :
  summary (snd (processed W cfg now st repo))
  = padd (summary (snd st)) (period_stats W cfg now repo).
Proof.
  unfold processed. cbn [snd].
  destruct (active W cfg now repo); cbn [summary set_repos];
    rewrite (proj1 (add_language_frame _ _)); [rewrite (proj1 (add_day_frame _ _))|];
    reflexivity.
Qed.

Lemma processed_repos W cfg now st repo :
  repos (snd (processed W cfg now st repo))
  = if active W cfg now repo
    then dict_set (full_name repo) (detail W cfg now repo) (repos (snd st))
    else repos (snd st).
Proof.
  unfold processed. cbn [snd].
  destruct (active W cfg now repo); cbn [repos set_repos];
    rewrite (proj1 (proj2 (add_language_frame _ _)));
    [rewrite (proj1 (proj2 (add_day_frame _ _)))|]; reflexivity.
Qed.

Lemma processed_languages W cfg now st repo :
  languages (snd (processed W cfg now st repo))
  = fold_left merge_language (languages_of W repo) (languages (snd st)).
Proof.
  unfold processed. cbn [snd].
  destruct (active W cfg now repo); cbn [languages set_repos];
    rewrite (proj2 (proj2 (proj2 (proj2 (add_language_frame _ _)))));
    [rewrite (proj1 (proj2 (proj2 (add_day_frame _ _))))|]; reflexivity.
Qed.

Lemma processed_daily W cfg now st repo :
  daily (snd (processed W cfg now st repo))
  = if active W cfg now repo
    then daily (fold_left add_day (series_90 W cfg (fst st) repo) (snd st))
    else daily (snd st).
Proof.
  unfold processed. cbn [snd].
  destruct (active W cfg now repo); cbn [daily set_repos];
    rewrite (proj1 (proj2 (proj2 (add_language_frame _ _)))); [|reflexivity].
  generalize (series_90 W cfg (fst st) repo) as l.
  generalize (padd (summary (snd st)) (period_stats W cfg now repo)) as sm.
  destruct st as [tick r]. cbn [snd]. intros sm l. revert r.
  induction l as [|d l IH]; intros r; [reflexivity|].
  simpl. change (add_day (set_summary sm r) d) with (set_summary sm (add_day r d)).
  apply IH.
Qed.

(** ** collect_all_metrics: the run *)


(** ** get_repos_to_track *)

Lemma preserves_bind {S A B : Type} (I : S -> Prop) (c : proc S A) (k : A -> proc S B) :
  preserves I c -> (forall a, preserves I (k a)) -> preserves I (bind c k).
Proof.
  intros Hc Hk s Hs. unfold bind. specialize (Hc s Hs).
  destruct (c s) as [s' [a|e]]; simpl in *; [apply Hk; exact Hc | exact Hc].
Qed.

Lemma preserves_for_each {S A : Type} (I : S -> Prop) (body : A -> proc S unit) l :
  (forall x, preserves I (body x)) -> preserves I (for_each body l).
Proof.
  intros Hb. induction l as [|x l IH]; simpl.
  - intros s Hs. exact Hs.
  - apply preserves_bind; [apply Hb | intros _; exact IH].
Qed.

Lemma preserves_for_paged {S A : Type} (I : S -> Prop) (body : A -> proc S unit) p :
  (forall x, preserves I (body x)) -> preserves I (for_paged body p).
Proof.
  intros Hb. unfold for_paged. apply preserves_bind.
  - apply preserves_for_each, Hb.
  - intros _ s Hs. destruct (failure p); exact Hs.
Qed.

Lemma preserves_try_except {S : Type} (I : S -> Prop) (body : proc S unit) :
  preserves I body -> preserves I (try_except body).
Proof. intros Hb s Hs. apply Hb, Hs. Qed.

Lemma returns_try_except {S : Type} (body : proc S unit) : returns (try_except body).
Proof. intros s. reflexivity. Qed.

Lemma returns_bind {S : Type} (c k : proc S unit) :
  returns c -> returns k -> returns (bind c (fun _ => k)).
Proof.
  intros Hc Hk s. unfold bind. specialize (Hc s).
  destruct (c s) as [s' [[]|e]]; simpl in *; [apply Hk | discriminate].
Qed.

Lemma returns_for_each {S A : Type} (body : A -> proc S unit) l :
  (forall x, returns (body x)) -> returns (for_each body l).
Proof.
  intros Hb. induction l as [|x l IH]; simpl.
  - intros s. reflexivity.
  - apply returns_bind; [apply Hb | exact IH].
Qed.

Lemma returning_returns {S A : Type} (c : proc S unit) (f : S -> A) (s0 : S) :
  returns c -> returning c f s0 = Ret (f (fst (c s0))).
Proof.
  intros Hc. unfold returning. specialize (Hc s0).
  destruct (c s0) as [s [[]|e]]; simpl in *; [reflexivity | discriminate].
Qed.

Lemma track_configured_returns W entry : returns (track_configured W entry).
Proof.
  unfold track_configured.
  destruct (negb (strip entry =? "")%string && contains "/" (strip entry)).
  - apply returns_try_except.
  - intros s. reflexivity.
Qed.

(** The enumeration never raises. *)
Lemma get_repos_to_track_returns W cfg user :
  exists rs, get_repos_to_track W cfg user = Ret rs.
Proof.
  unfold get_repos_to_track.
  destruct (negb (REPOS_TO_TRACK cfg =? "")%string).
  - rewrite returning_returns; [eexists; reflexivity|].
    apply returns_for_each, track_configured_returns.
  - rewrite returning_returns; [eexists; reflexivity|].
    apply returns_bind; apply returns_try_except.
Qed.

Lemma is_seen_false_not_tracked (t : Tracking) (k : string) :
  distinct_tracking t -> is_seen k t = false -> ~ In k (map full_name (tracked t)).
Proof.
  intros [_ Hs] Hk Hin. apply in_map_iff in Hin as (r & <- & Hr).
  rewrite (Hs r Hr) in Hk. discriminate.
Qed.

Lemma track_unseen_distinct (repo : Repository) :
  preserves distinct_tracking (track_unseen repo).
Proof.
  intros t Ht. unfold track_unseen.
  destruct (is_seen (full_name repo) t) eqn:E; simpl; [exact Ht|].
  pose proof (is_seen_false_not_tracked t _ Ht E) as Hnot.
  destruct Ht as [Hn Hs]. split; simpl.
  - rewrite map_app. simpl.
    apply NoDup_app; [exact Hn | repeat constructor; intros [] | ].
    intros x Hx [<-|[]]. exact (Hnot Hx).
  - intros r Hr. unfold is_seen. simpl.
    apply in_app_or in Hr as [Hr|[<-|[]]].
    + apply orb_true_iff. right. apply (Hs r Hr).
    + rewrite String.eqb_refl. reflexivity.
Qed.

Lemma discovery_distinct W user :
  preserves distinct_tracking
    (try_except (for_paged track_unseen (api_auth_repos W)) ;;
     try_except
       (for_paged (fun org => for_paged track_unseen (api_org_repos W org))
                  (api_get_orgs W user)))%proc.
Proof.
  exact (preserves_bind distinct_tracking _ _
           (preserves_try_except _ _
              (preserves_for_paged _ _ _ track_unseen_distinct))
           (fun _ => preserves_try_except _ _
              (preserves_for_paged _ _ _
                 (fun org => preserves_for_paged _ _ _ track_unseen_distinct)))).
Qed.

(** X1: discovery returns repositories with pairwise distinct full identifiers:
    a repository already met is skipped, so the first occurrence is the one
    kept. *)
Theorem discovery_has_no_duplicates W cfg user rs :
  REPOS_TO_TRACK cfg = "" ->
  get_repos_to_track W cfg user = Ret rs ->
  NoDup (map full_name rs).
Proof.
  intros Hc. unfold get_repos_to_track. rewrite Hc.
  change (negb ("" =? "")%string) with false. cbv iota.
  rewrite returning_returns by (apply returns_bind; apply returns_try_except).
  intros E. injection E as <-.
  apply (discovery_distinct W user). split; [constructor | intros r []].
Qed.

Lemma discovery_has_no_duplicates_witness :
  get_repos_to_track small discover "djok" = Ret [repo_named "a/b"; repo_named "c/d"]
  /\ NoDup (map full_name [repo_named "a/b"; repo_named "c/d"]).
Proof.
  assert (E : get_repos_to_track small discover "djok"
              = Ret [repo_named "a/b"; repo_named "c/d"]) by reflexivity.
  split; [exact E|].
  exact (discovery_has_no_duplicates small discover "djok" _ eq_refl E).
Defined.

(** *** What the two branches return *)

Lemma for_each_track_unseen (l : list Repository) (t : Tracking) :
  for_each track_unseen l t = (fold_left see l t, Ret tt).
Proof.
  revert t. induction l as [|r l IH]; intros t; simpl; [reflexivity|].
  unfold bind, track_unseen at 1, see at 2, track, modify, ret.
  destruct (is_seen (full_name r) t); apply IH.
Qed.

Lemma for_paged_track_unseen (p : paged Repository) (t : Tracking) :
  fst (for_paged track_unseen p t) = fold_left see (items p) t
  /\ (failure p = None -> snd (for_paged track_unseen p t) = Ret tt)
  /\ (failure p <> None -> exists e, snd (for_paged track_unseen p t) = Raise e).
Proof.
  unfold for_paged, bind. rewrite for_each_track_unseen.
  destruct (failure p) as [e|]; simpl; repeat split; try congruence.
  intros _. exists e. reflexivity.
Qed.

Lemma org_loop_state W (orgs : list Organization) (t : Tracking) :
  fst (for_each (fun org => for_paged track_unseen (api_org_repos W org)) orgs t)
  = fold_left see (fst (org_visits W orgs)) t.
Proof.
  revert t. induction orgs as [|org orgs IH]; intros t; simpl; [reflexivity|].
  unfold bind.
  destruct (for_paged_track_unseen (api_org_repos W org) t) as (S1 & S2 & S3).
  destruct (for_paged track_unseen (api_org_repos W org) t) as [t1 r1]. simpl in *.
  destruct (failure (api_org_repos W org)) as [e|].
  - destruct (S3 ltac:(discriminate)) as [e' ->]. simpl. exact S1.
  - rewrite (S2 eq_refl). simpl. rewrite fold_left_app, IH, S1. reflexivity.
Qed.

Lemma is_seen_see (k : string) (t : Tracking) (r : Repository) :
  is_seen k (see t r) = is_seen k t || String.eqb k (full_name r).
Proof.
  unfold see. destruct (is_seen (full_name r) t) eqn:E.
  - destruct (String.eqb k (full_name r)) eqn:K.
    + apply String.eqb_eq in K as ->. rewrite E. reflexivity.
    + rewrite orb_false_r. reflexivity.
  - unfold is_seen. simpl. apply orb_comm.
Qed.

Lemma filter_unseen_see (l : list Repository) (t : Tracking) (r : Repository) :
  filter (fun x => negb (is_seen (full_name x) (see t r))) l
  = filter (fun x => negb (is_seen (full_name x) t))
           (filter (fun x => negb (String.eqb (full_name x) (full_name r))) l).
Proof.
  induction l as [|x l IH]; simpl; [reflexivity|].
  rewrite is_seen_see.
  destruct (String.eqb (full_name x) (full_name r)); simpl.
  - rewrite orb_true_r. simpl. exact IH.
  - rewrite orb_false_r. destruct (is_seen (full_name x) t); simpl;
      [exact IH | f_equal; exact IH].
Qed.

Lemma fold_see_tracked (l : list Repository) (t : Tracking) :
  tracked (fold_left see l t)
  = tracked t ++ filter (fun r => negb (is_seen (full_name r) t)) (first_by_name l).
Proof.
  revert t. induction l as [|r l IH]; intros t; simpl.
  - symmetry. apply app_nil_r.
  - rewrite IH, filter_unseen_see. unfold see at 1.
    destruct (is_seen (full_name r) t); simpl; [reflexivity|].
    rewrite <- app_assoc. reflexivity.
Qed.

Lemma filter_unseen_start (l : list Repository) :
  filter (fun r => negb (is_seen (full_name r) {| tracked := []; seen := [] |})) l = l.
Proof.
  induction l as [|x l IH]; simpl; [reflexivity | f_equal; exact IH].
Qed.

Lemma try_then_try {S : Type} (a b : proc S unit) (s : S) :
  fst (bind (try_except a) (fun _ => try_except b) s) = fst (b (fst (a s))).
Proof. reflexivity. Qed.

Lemma for_paged_state {S A : Type} (body : A -> proc S unit) (p : paged A) (s : S) :
  fst (for_paged body p s) = fst (for_each body (items p) s).
Proof.
  unfold for_paged, bind.
  destruct (for_each body (items p) s) as [s' [[]|e]]; [|reflexivity].
  destruct (failure p); reflexivity.
Qed.

(** X3: discovery returns the repositories it visits, each full identifier
    at its first occurrence. *)
Theorem discovery_keeps_first_occurrences W cfg user :
  REPOS_TO_TRACK cfg = "" ->
  get_repos_to_track W cfg user = Ret (first_by_name (visited W user)).
Proof.
  intros Hc. unfold get_repos_to_track. rewrite Hc.
  change (negb ("" =? "")%string) with false. cbv iota.
  rewrite returning_returns by (apply returns_bind; apply returns_try_except).
  f_equal. rewrite try_then_try, !for_paged_state, org_loop_state.
  rewrite for_each_track_unseen. cbn [fst].
  rewrite <- fold_left_app. fold (visited W user).
  rewrite fold_see_tracked. cbn [tracked app]. apply filter_unseen_start.
Qed.

Lemma discovery_keeps_first_occurrences_witness :
  get_repos_to_track small discover "djok" = Ret [repo_named "a/b"; repo_named "c/d"].
Proof.
  rewrite (discovery_keeps_first_occurrences small discover "djok" eq_refl).
  reflexivity.
Defined.

Lemma for_each_track_configured W (entries : list string) (t : Tracking) :
  tracked (fst (for_each (track_configured W) entries t))
  = tracked t ++ resolved W entries.
Proof.
  revert t. induction entries as [|entry entries IH]; intros t; simpl.
  - symmetry. apply app_nil_r.
  - unfold bind. pose proof (track_configured_returns W entry t) as R.
    destruct (track_configured W entry t) as [t1 r1] eqn:T. simpl in R. subst r1.
    rewrite IH. unfold track_configured in T.
    destruct (negb (strip entry =? "")%string && contains "/" (strip entry)).
    + unfold try_except, bind, lift, track, modify in T.
      destruct (api_get_repo W (strip entry)) as [repo|e];
        simpl in T; injection T as <-; simpl.
      * rewrite <- app_assoc. reflexivity.
      * reflexivity.
    + injection T as <-. reflexivity.
Qed.

(** ** White space *)

Lemma white_space_bytes :
  white_space
  = map string_of_list_ascii
      (map (map ascii_of_nat)
         [[9]; [10]; [11]; [12]; [13]; [28]; [29]; [30]; [31]; [32];
          [194; 133]; [194; 160]; [225; 154; 128];
          [226; 128; 128]; [226; 128; 129]; [226; 128; 130]; [226; 128; 131];
          [226; 128; 132]; [226; 128; 133]; [226; 128; 134]; [226; 128; 135];
          [226; 128; 136]; [226; 128; 137]; [226; 128; 138];
          [226; 128; 168]; [226; 128; 169]; [226; 128; 175]; [226; 129; 159];
          [227; 128; 128]]%nat).
Proof. vm_compute. reflexivity. Qed.

Lemma in_white_space (w : string) :
  existsb (String.eqb w) white_space = true -> In w white_space.
Proof.
  intros H. apply existsb_exists in H as (x & Hx & E).
  apply String.eqb_eq in E. subst. exact Hx.
Qed.

Lemma isspace_white (a : ascii) :
  isspace a = true -> In (String a "") white_space.
Proof.
  intros H. apply in_white_space. revert H.
  destruct a as [[] [] [] [] [] [] [] []]; vm_compute; congruence.
Qed.

Lemma isspace2_white (a b : ascii) :
  isspace2 a b = true -> In (String a (String b "")) white_space.
Proof.
  unfold isspace2. cbv zeta. intros H.
  rewrite <- (ascii_nat_embedding a), <- (ascii_nat_embedding b).
  apply andb_true_iff in H as [Ha Hb]. apply Nat.eqb_eq in Ha. rewrite Ha.
  apply in_white_space.
  apply orb_true_iff in Hb as [Hb|Hb]; apply Nat.eqb_eq in Hb; rewrite Hb;
    vm_compute; reflexivity.
Qed.

Lemma isspace3_white (a b c : ascii) :
  isspace3 a b c = true -> In (String a (String b (String c ""))) white_space.
Proof.
  unfold isspace3. cbv zeta. intros H.
  rewrite <- (ascii_nat_embedding a), <- (ascii_nat_embedding b),
    <- (ascii_nat_embedding c).
  apply in_white_space.
  repeat match type of H with
         | (_ || _)%bool = true => apply orb_true_iff in H as [H|H]
         end;
    repeat match type of H with
           | (_ && _)%bool = true =>
               let H1 := fresh "H" in apply andb_true_iff in H as [H H1]
           end;
    repeat match goal with
           | E : (_ || _)%bool = true |- _ => apply orb_true_iff in E as [E|E]
           | E : (_ && _)%bool = true |- _ =>
               let H1 := fresh "H" in apply andb_true_iff in E as [E H1]
           | E : (_ =? _)%nat = true |- _ => apply Nat.eqb_eq in E; rewrite E; clear E
           | E : (_ <=? _)%nat = true |- _ => apply Nat.leb_le in E
           end;
    try (vm_compute; reflexivity).
  assert (R : (nat_of_ascii c = 128 \/ nat_of_ascii c = 129 \/ nat_of_ascii c = 130
               \/ nat_of_ascii c = 131 \/ nat_of_ascii c = 132 \/ nat_of_ascii c = 133
               \/ nat_of_ascii c = 134 \/ nat_of_ascii c = 135 \/ nat_of_ascii c = 136
               \/ nat_of_ascii c = 137 \/ nat_of_ascii c = 138)%nat) by lia.
  repeat destruct R as [R|R]; rewrite R; vm_compute; reflexivity.
Qed.

Ltac break_bool :=
  repeat match goal with
         | H : (_ || _)%bool = true |- _ => apply orb_true_iff in H as [H|H]
         | H : (_ && _)%bool = true |- _ =>
             let H1 := fresh "H" in apply andb_true_iff in H as [H H1]
         | H : (_ =? _)%nat = true |- _ => apply Nat.eqb_eq in H
         | H : (_ <=? _)%nat = true |- _ => apply Nat.leb_le in H
         end.

Lemma starts_with_app (w s : string) : starts_with w (w ++ s) = true.
Proof.
  induction w as [|a w IH]; simpl; [reflexivity|].
  rewrite Ascii.eqb_refl. exact IH.
Qed.

Lemma starts_with_inv (w s : string) :
  starts_with w s = true -> exists t, s = (w ++ t)%string.
Proof.
  revert s. induction w as [|a w IH]; intros s H.
  - exists s. reflexivity.
  - destruct s as [|b s]; [discriminate|]. simpl in H.
    apply andb_true_iff in H as [E H]. apply Ascii.eqb_eq in E. subst b.
    destruct (IH s H) as [t ->]. exists t. reflexivity.
Qed.

Lemma starts_blank_white (w s : string) :
  In w white_space -> starts_blank (w ++ s) = true.
Proof.
  intros H. apply existsb_exists. exists w. split; [exact H|apply starts_with_app].
Qed.

Lemma lstrip_eq (a : ascii) (s1 : string) :
  lstrip (String a s1)
  = if isspace a then lstrip s1
    else match s1 with
         | EmptyString => String a s1
         | String b s2 =>
             if isspace2 a b then lstrip s2
             else match s2 with
                  | EmptyString => String a s1
                  | String c s3 => if isspace3 a b c then lstrip s3 else String a s1
                  end
         end.
Proof. reflexivity. Qed.

Lemma lstrip_white (w s : string) :
  In w white_space -> lstrip (w ++ s) = lstrip s.
Proof.
  rewrite white_space_bytes. cbn [map]. intros H.
  repeat (destruct H as [<-|H]; [reflexivity|]). destruct H.
Qed.

Lemma blanks_cons (w : string) (l : list string) :
  blanks (w :: l) = true -> In w white_space /\ blanks l = true.
Proof.
  unfold blanks. cbn [forallb]. intros H. apply andb_true_iff in H as [H1 H2].
  split; [apply in_white_space, H1|exact H2].
Qed.

Lemma append_assoc' (a b c : string) : ((a ++ b) ++ c = a ++ (b ++ c))%string.
Proof. induction a as [|x a IH]; simpl; [reflexivity|]. rewrite IH. reflexivity. Qed.

Lemma append_nil_r (a : string) : (a ++ "")%string = a.
Proof. induction a as [|x a IH]; simpl; [reflexivity|]. rewrite IH. reflexivity. Qed.

Lemma lstrip_blanks (l : list string) (s : string) :
  blanks l = true -> lstrip (joined l ++ s) = lstrip s.
Proof.
  induction l as [|w l IH]; intros H; [reflexivity|].
  apply blanks_cons in H as [Hw Hl]. cbn [joined fold_right].
  fold (joined l). rewrite append_assoc', lstrip_white by exact Hw. apply IH, Hl.
Qed.

Lemma joined_lead (r : list string) :
  blanks r = true ->
  joined r = "" \/ exists a t, joined r = String a t /\ lead a = true.
Proof.
  induction r as [|w r IH]; intros H; [left; reflexivity|].
  apply blanks_cons in H as [Hw Hr]. right. cbn [joined fold_right]. fold (joined r).
  revert Hw. rewrite white_space_bytes. cbn [map]. intros Hw.
  repeat (destruct Hw as [<-|Hw]; [eexists _, _; split; [reflexivity|reflexivity]|]).
  destruct Hw.
Qed.

Lemma lead_isspace2 (a b : ascii) : lead b = true -> isspace2 a b = false.
Proof.
  unfold lead, isspace2. cbv zeta. intros H.
  match goal with |- ?e = false => destruct e eqn:E; [exfalso|reflexivity] end.
  break_bool; lia.
Qed.

Lemma lead_isspace3_mid (a b c : ascii) : lead b = true -> isspace3 a b c = false.
Proof.
  unfold lead, isspace3. cbv zeta. intros H.
  match goal with |- ?e = false => destruct e eqn:E; [exfalso|reflexivity] end.
  break_bool; lia.
Qed.

Lemma lead_isspace3_last (a b c : ascii) : lead c = true -> isspace3 a b c = false.
Proof.
  unfold lead, isspace3. cbv zeta. intros H.
  match goal with |- ?e = false => destruct e eqn:E; [exfalso|reflexivity] end.
  break_bool; lia.
Qed.

Lemma not_blank_1 (a : ascii) (s : string) :
  starts_blank (String a s) = false -> isspace a = false.
Proof.
  intros H. destruct (isspace a) eqn:E; [|reflexivity].
  rewrite <- H. symmetry. apply (starts_blank_white (String a "") s), isspace_white, E.
Qed.

Lemma not_blank_2 (a b : ascii) (s : string) :
  starts_blank (String a (String b s)) = false -> isspace2 a b = false.
Proof.
  intros H. destruct (isspace2 a b) eqn:E; [|reflexivity].
  rewrite <- H. symmetry.
  apply (starts_blank_white (String a (String b "")) s), isspace2_white, E.
Qed.

Lemma not_blank_3 (a b c : ascii) (s : string) :
  starts_blank (String a (String b (String c s))) = false -> isspace3 a b c = false.
Proof.
  intros H. destruct (isspace3 a b c) eqn:E; [|reflexivity].
  rewrite <- H. symmetry.
  apply (starts_blank_white (String a (String b (String c ""))) s), isspace3_white, E.
Qed.

Lemma lstrip_core (core : string) (r : list string) :
  starts_blank core = false -> core <> "" -> blanks r = true ->
  lstrip (core ++ joined r) = (core ++ joined r)%string.
Proof.
  intros B N R. pose proof (joined_lead r R) as J.
  destruct core as [|a [|b [|c core]]]; [congruence| | |]; cbn [append] in *.
  - rewrite lstrip_eq, (not_blank_1 _ _ B).
    destruct J as [->|(b & t & -> & L)]; [reflexivity|].
    rewrite (lead_isspace2 a b L). destruct t as [|c t]; [reflexivity|].
    rewrite (lead_isspace3_mid a b c L). reflexivity.
  - rewrite lstrip_eq, (not_blank_1 _ _ B), (not_blank_2 _ _ _ B).
    destruct J as [->|(c & t & -> & L)]; [reflexivity|].
    rewrite (lead_isspace3_last a b c L). reflexivity.
  - rewrite lstrip_eq, (not_blank_1 _ _ B), (not_blank_2 _ _ _ B), (not_blank_3 _ _ _ _ B).
    reflexivity.
Qed.

(** The same from the end. *)

Lemma bytes_app (s t : string) :
  list_ascii_of_string (s ++ t) = list_ascii_of_string s ++ list_ascii_of_string t.
Proof. induction s as [|a s IH]; simpl; [reflexivity|]. rewrite IH. reflexivity. Qed.

Lemma drop_space_white (w : string) (r : list ascii) :
  In w white_space -> drop_space (rev (list_ascii_of_string w) ++ r) = drop_space r.
Proof.
  rewrite white_space_bytes. cbn [map]. intros H.
  repeat (destruct H as [<-|H]; [reflexivity|]). destruct H.
Qed.

Lemma rstrip_white (s w : string) : In w white_space -> rstrip (s ++ w) = rstrip s.
Proof.
  intros H. unfold rstrip. rewrite bytes_app, rev_app_distr, drop_space_white by exact H.
  reflexivity.
Qed.

Lemma rstrip_blanks (r : list string) (s : string) :
  blanks r = true -> rstrip (s ++ joined r) = rstrip s.
Proof.
  revert s. induction r as [|w r IH]; intros s H.
  - cbn [joined fold_right]. rewrite append_nil_r. reflexivity.
  - apply blanks_cons in H as [Hw Hr]. cbn [joined fold_right]. fold (joined r).
    rewrite <- append_assoc', IH by exact Hr. apply rstrip_white, Hw.
Qed.

Lemma drop_space_eq (a : ascii) (r1 : list ascii) :
  drop_space (a :: r1)
  = if isspace a then drop_space r1
    else match r1 with
         | [] => a :: r1
         | b :: r2 =>
             if isspace2 b a then drop_space r2
             else match r2 with
                  | [] => a :: r1
                  | c :: r3 => if isspace3 c b a then drop_space r3 else a :: r1
                  end
         end.
Proof. reflexivity. Qed.

Lemma ends_blank_white (w s : string) :
  In w white_space -> starts_with (reversed w) (reversed s) = true -> ends_blank s = true.
Proof. intros H E. apply existsb_exists. exists w. split; assumption. Qed.

Lemma starts_with_list (w : list ascii) (r : list ascii) :
  starts_with (string_of_list_ascii w) (string_of_list_ascii (w ++ r)) = true.
Proof.
  induction w as [|a w IH]; simpl; [reflexivity|]. rewrite Ascii.eqb_refl. exact IH.
Qed.

Lemma drop_space_core (s : string) :
  ends_blank s = false ->
  drop_space (rev (list_ascii_of_string s)) = rev (list_ascii_of_string s).
Proof.
  intros B.
  assert (P : forall w, In w white_space ->
                        starts_with (reversed w) (reversed s) = false).
  { intros w Hw. destruct (starts_with _ _) eqn:E; [|reflexivity].
    rewrite (ends_blank_white w s Hw E) in B. discriminate. }
  unfold reversed in P. clear B.
  destruct (rev (list_ascii_of_string s)) as [|a [|b [|c r]]]; [reflexivity| | |];
    rewrite drop_space_eq.
  - destruct (isspace a) eqn:E; [|reflexivity].
    apply isspace_white, P in E. cbn in E. rewrite Ascii.eqb_refl in E. discriminate.
  - destruct (isspace a) eqn:E.
    { apply isspace_white, P in E. cbn in E. rewrite Ascii.eqb_refl in E. discriminate. }
    destruct (isspace2 b a) eqn:E2; [|reflexivity].
    apply isspace2_white, P in E2. cbn in E2. rewrite !Ascii.eqb_refl in E2. discriminate.
  - destruct (isspace a) eqn:E.
    { apply isspace_white, P in E. cbn in E. rewrite Ascii.eqb_refl in E. discriminate. }
    destruct (isspace2 b a) eqn:E2.
    { apply isspace2_white, P in E2. cbn in E2. rewrite !Ascii.eqb_refl in E2.
      discriminate. }
    destruct (isspace3 c b a) eqn:E3; [|reflexivity].
    apply isspace3_white, P in E3. cbn in E3. rewrite !Ascii.eqb_refl in E3. discriminate.
Qed.

Lemma rstrip_core (s : string) : ends_blank s = false -> rstrip s = s.
Proof.
  intros B. unfold rstrip. rewrite (drop_space_core s B), rev_involutive.
  apply string_of_list_ascii_of_string.
Qed.

(** What [strip] returns, told without the byte tests: the one string with no
    white space at either end that the white space of the entry surrounds. *)
Lemma strip_trims (entry core : string) : trims entry core -> strip entry = core.
Proof.
  intros (l & r & L & R & T & ->). unfold trimmed in T.
  apply andb_true_iff in T as [T1 T2]. apply negb_true_iff in T1, T2.
  unfold strip. rewrite (lstrip_blanks l _ L).
  destruct core as [|a core].
  - cbn [append]. rewrite <- (append_nil_r (joined r)), (lstrip_blanks r "" R).
    reflexivity.
  - rewrite lstrip_core by (assumption || discriminate).
    rewrite rstrip_blanks by exact R. apply rstrip_core, T2.
Qed.

(** Every string has such a core. *)

Lemma white_space_in (w : string) :
  In w white_space -> existsb (String.eqb w) white_space = true.
Proof. intros H. apply existsb_exists. exists w. split; [exact H|apply String.eqb_refl]. Qed.

Lemma blanks_add (w : string) (l : list string) :
  In w white_space -> blanks l = true -> blanks (w :: l) = true.
Proof.
  intros Hw Hl. unfold blanks. cbn [forallb]. rewrite (white_space_in w Hw). exact Hl.
Qed.

Lemma blanks_snoc (w : string) (l : list string) :
  In w white_space -> blanks l = true -> blanks (l ++ [w]) = true.
Proof.
  intros Hw Hl. unfold blanks in *. rewrite forallb_app, Hl. cbn [forallb].
  rewrite (white_space_in w Hw). reflexivity.
Qed.

Lemma joined_snoc (l : list string) (w : string) :
  joined (l ++ [w]) = (joined l ++ w)%string.
Proof.
  induction l as [|x l IH]; cbn [joined fold_right app].
  - apply append_nil_r.
  - fold (joined (l ++ [w])) (joined l). rewrite IH, append_assoc'. reflexivity.
Qed.

Lemma starts_blank_inv (s : string) :
  starts_blank s = true ->
  match s with
  | EmptyString => False
  | String a s1 =>
      isspace a = true
      \/ match s1 with
         | EmptyString => False
         | String b s2 =>
             isspace2 a b = true
             \/ match s2 with
                | EmptyString => False
                | String c _ => isspace3 a b c = true
                end
         end
  end.
Proof.
  intros H. apply existsb_exists in H as (w & Hw & S).
  rewrite white_space_bytes in Hw. cbn [map] in Hw.
  repeat (destruct Hw as [<-|Hw];
          [destruct s as [|a [|b [|c s3]]];
           cbn [starts_with string_of_list_ascii] in S; try discriminate S;
           repeat (let E := fresh "E" in
                   apply andb_true_iff in S as [E S];
                   apply Ascii.eqb_eq in E; subst);
           try discriminate S;
           first [ left; reflexivity
                 | right; left; reflexivity
                 | right; right; reflexivity ]|]).
  destruct Hw.
Qed.

Lemma lstrip_decomp (n : nat) :
  forall s, (String.length s <= n)%nat ->
  exists l, blanks l = true /\ s = (joined l ++ lstrip s)%string
            /\ starts_blank (lstrip s) = false.
Proof.
  induction n as [|n IH]; intros s Hn.
  - destruct s; [|simpl in Hn; lia]. exists []. repeat split.
  - destruct s as [|a s1]; [exists []; repeat split|].
    simpl in Hn. rewrite lstrip_eq.
    assert (Keep : forall t, lstrip t = t -> starts_blank t = false ->
                             exists l, blanks l = true /\ t = (joined l ++ t)%string
                                       /\ starts_blank t = false).
    { intros t _ B. exists []. repeat split. exact B. }
    destruct (isspace a) eqn:E1.
    { destruct (IH s1 ltac:(lia)) as (l & L & D & B).
      exists (String a "" :: l). split; [apply blanks_add; [apply isspace_white, E1|exact L]|].
      split; [|exact B]. cbn [joined fold_right append]. fold (joined l). f_equal. exact D. }
    destruct s1 as [|b s2].
    { exists []. repeat split. destruct (starts_blank (String a "")) eqn:B; [|reflexivity].
      apply starts_blank_inv in B as [B|[]]. congruence. }
    destruct (isspace2 a b) eqn:E2.
    { simpl in Hn. destruct (IH s2 ltac:(lia)) as (l & L & D & B).
      exists (String a (String b "") :: l).
      split; [apply blanks_add; [apply isspace2_white, E2|exact L]|].
      split; [|exact B]. cbn [joined fold_right append]. fold (joined l).
      do 2 f_equal. exact D. }
    destruct s2 as [|c s3].
    { exists []. repeat split.
      destruct (starts_blank (String a (String b ""))) eqn:B; [|reflexivity].
      apply starts_blank_inv in B as [B|[B|[]]]; congruence. }
    destruct (isspace3 a b c) eqn:E3.
    { simpl in Hn. destruct (IH s3 ltac:(lia)) as (l & L & D & B).
      exists (String a (String b (String c "")) :: l).
      split; [apply blanks_add; [apply isspace3_white, E3|exact L]|].
      split; [|exact B]. cbn [joined fold_right append]. fold (joined l).
      do 3 f_equal. exact D. }
    exists []. repeat split.
    destruct (starts_blank (String a (String b (String c s3)))) eqn:B; [|reflexivity].
    apply starts_blank_inv in B as [B|[B|B]]; congruence.
Qed.

Lemma starts_reversed_inv (r : list ascii) :
  (exists w, In w white_space
             /\ starts_with (reversed w) (string_of_list_ascii r) = true) ->
  match r with
  | [] => False
  | a :: r1 =>
      isspace a = true
      \/ match r1 with
         | [] => False
         | b :: r2 =>
             isspace2 b a = true
             \/ match r2 with
                | [] => False
                | c :: _ => isspace3 c b a = true
                end
         end
  end.
Proof.
  intros (w & Hw & S).
  rewrite white_space_bytes in Hw. cbn [map] in Hw.
  repeat (destruct Hw as [<-|Hw];
          [destruct r as [|a [|b [|c r3]]];
           cbn [starts_with string_of_list_ascii reversed list_ascii_of_string
                  rev app map] in S;
           try discriminate S;
           repeat (let E := fresh "E" in
                   apply andb_true_iff in S as [E S];
                   apply Ascii.eqb_eq in E; subst);
           try discriminate S;
           first [ left; reflexivity
                 | right; left; reflexivity
                 | right; right; reflexivity ]|]).
  destruct Hw.
Qed.

Lemma bytes_joined_snoc (l : list string) (w : string) (d : list ascii) :
  rev (list_ascii_of_string w) ++ rev (list_ascii_of_string (joined l)) ++ d
  = rev (list_ascii_of_string (joined (l ++ [w]))) ++ d.
Proof. rewrite joined_snoc, bytes_app, rev_app_distr, app_assoc. reflexivity. Qed.

Lemma drop_space_decomp (n : nat) :
  forall r, (List.length r <= n)%nat ->
  exists l, blanks l = true
            /\ r = rev (list_ascii_of_string (joined l)) ++ drop_space r
            /\ forall w, In w white_space ->
                 starts_with (reversed w) (string_of_list_ascii (drop_space r)) = false.
Proof.
  induction n as [|n IH]; intros r Hn.
  - destruct r; [|simpl in Hn; lia]. exists []. repeat split.
    intros w Hw. destruct (starts_with _ _) eqn:S; [|reflexivity].
    destruct (starts_reversed_inv [] (ex_intro _ w (conj Hw S))).
  - destruct r as [|a r1].
    { exists []. repeat split. intros w Hw. destruct (starts_with _ _) eqn:S; [|reflexivity].
      destruct (starts_reversed_inv [] (ex_intro _ w (conj Hw S))). }
    simpl in Hn. rewrite drop_space_eq.
    assert (Keep : forall t : list ascii,
               (forall w, In w white_space ->
                          starts_with (reversed w) (string_of_list_ascii t) = true ->
                          False) ->
               exists l, blanks l = true
                         /\ t = rev (list_ascii_of_string (joined l)) ++ t
                         /\ forall w, In w white_space ->
                              starts_with (reversed w) (string_of_list_ascii t) = false).
    { intros t F. exists []. repeat split. intros w Hw.
      destruct (starts_with _ _) eqn:S; [|reflexivity]. destruct (F w Hw S). }
    destruct (isspace a) eqn:E1.
    { destruct (IH r1 ltac:(lia)) as (l & L & D & B).
      exists (l ++ [String a ""]).
      split; [apply blanks_snoc; [apply isspace_white, E1|exact L]|].
      split; [|exact B]. rewrite <- bytes_joined_snoc. cbn [list_ascii_of_string rev app].
      f_equal. exact D. }
    destruct r1 as [|b r2].
    { apply Keep. intros w Hw S.
      destruct (starts_reversed_inv _ (ex_intro _ w (conj Hw S))) as [B|[]]. congruence. }
    destruct (isspace2 b a) eqn:E2.
    { simpl in Hn. destruct (IH r2 ltac:(lia)) as (l & L & D & B).
      exists (l ++ [String b (String a "")]).
      split; [apply blanks_snoc; [apply isspace2_white, E2|exact L]|].
      split; [|exact B]. rewrite <- bytes_joined_snoc. cbn [list_ascii_of_string rev app].
      do 2 f_equal. exact D. }
    destruct r2 as [|c r3].
    { apply Keep. intros w Hw S.
      destruct (starts_reversed_inv _ (ex_intro _ w (conj Hw S))) as [B|[B|[]]];
        congruence. }
    destruct (isspace3 c b a) eqn:E3.
    { simpl in Hn. destruct (IH r3 ltac:(lia)) as (l & L & D & B).
      exists (l ++ [String c (String b (String a ""))]).
      split; [apply blanks_snoc; [apply isspace3_white, E3|exact L]|].
      split; [|exact B]. rewrite <- bytes_joined_snoc. cbn [list_ascii_of_string rev app].
      do 3 f_equal. exact D. }
    apply Keep. intros w Hw S.
    destruct (starts_reversed_inv _ (ex_intro _ w (conj Hw S))) as [B|[B|B]]; congruence.
Qed.

Lemma string_of_app (x y : list ascii) :
  string_of_list_ascii (x ++ y) = (string_of_list_ascii x ++ string_of_list_ascii y)%string.
Proof. induction x as [|a x IH]; simpl; [reflexivity|]. rewrite IH. reflexivity. Qed.

Lemma rstrip_decomp (s : string) :
  exists r, blanks r = true /\ s = (rstrip s ++ joined r)%string
            /\ ends_blank (rstrip s) = false.
Proof.
  destruct (drop_space_decomp _ (rev (list_ascii_of_string s)) (le_n _))
    as (l & L & D & B).
  exists l. split; [exact L|]. unfold rstrip. split.
  - rewrite <- (string_of_list_ascii_of_string s) at 1.
    rewrite <- (rev_involutive (list_ascii_of_string s)), D at 1.
    rewrite rev_app_distr, rev_involutive, string_of_app,
      string_of_list_ascii_of_string. reflexivity.
  - destruct (ends_blank _) eqn:E; [|reflexivity].
    apply existsb_exists in E as (w & Hw & S).
    unfold reversed at 2 in S.
    rewrite list_ascii_of_string_of_list_ascii, rev_involutive in S.
    rewrite (B w Hw) in S. discriminate.
Qed.

Lemma starts_blank_app (s t : string) :
  starts_blank s = true -> starts_blank (s ++ t) = true.
Proof.
  intros H. apply existsb_exists in H as (w & Hw & S).
  apply starts_with_inv in S as [u ->]. rewrite append_assoc'.
  apply starts_blank_white, Hw.
Qed.

Lemma trims_strip (entry : string) : trims entry (strip entry).
Proof.
  destruct (lstrip_decomp _ entry (le_n _)) as (l & L & D & B).
  destruct (rstrip_decomp (lstrip entry)) as (r & R & D' & B').
  exists l, r. split; [exact L|]. split; [exact R|]. unfold strip. split.
  - unfold trimmed. rewrite B'. rewrite andb_true_r. apply negb_true_iff.
    destruct (starts_blank (rstrip (lstrip entry))) eqn:S; [|reflexivity].
    apply (starts_blank_app _ (joined r)) in S. rewrite <- D' in S. congruence.
  - rewrite <- D'. exact D.
Qed.
(** ** The fields of a comma-separated list *)

Lemma split_not_nil (sep : ascii) (s : string) : split sep s <> [].
Proof.
  induction s as [|c s IH]; simpl; [discriminate|].
  destruct (Ascii.eqb c sep); [discriminate|]. destruct (split sep s); discriminate.
Qed.

Lemma concat_split (sep : ascii) (s : string) :
  String.concat (String sep "") (split sep s) = s.
Proof.
  induction s as [|c s IH]; [reflexivity|]. simpl split.
  pose proof (split_not_nil sep s) as N.
  destruct (Ascii.eqb c sep) eqn:E.
  - apply Ascii.eqb_eq in E. subst c.
    destruct (split sep s) as [|f fs]; [congruence|].
    cbn [String.concat append] in *. rewrite IH. reflexivity.
  - destruct (split sep s) as [|f fs]; [congruence|].
    destruct fs as [|g fs]; cbn [String.concat append] in *; rewrite IH; reflexivity.
Qed.

Lemma split_fields (sep : ascii) (s : string) :
  forallb (fun e => negb (existsb (Ascii.eqb sep) (list_ascii_of_string e)))
          (split sep s) = true.
Proof.
  induction s as [|c s IH]; [reflexivity|]. simpl split.
  destruct (Ascii.eqb c sep) eqn:E.
  - cbn [forallb list_ascii_of_string existsb negb andb]. exact IH.
  - destruct (split sep s) as [|f fs]; cbn [forallb list_ascii_of_string existsb] in *.
    + rewrite Ascii.eqb_sym, E. reflexivity.
    + rewrite Ascii.eqb_sym, E. exact IH.
Qed.

Lemma split_field (sep : ascii) (e : string) :
  existsb (Ascii.eqb sep) (list_ascii_of_string e) = false -> split sep e = [e].
Proof.
  induction e as [|c e IH]; [reflexivity|]. cbn [list_ascii_of_string existsb].
  intros H. apply orb_false_iff in H as [H1 H2]. simpl split.
  rewrite Ascii.eqb_sym, H1, (IH H2). reflexivity.
Qed.

Lemma split_field_app (sep : ascii) (e t : string) :
  existsb (Ascii.eqb sep) (list_ascii_of_string e) = false ->
  split sep (e ++ String sep t) = e :: split sep t.
Proof.
  induction e as [|c e IH]; cbn [list_ascii_of_string existsb append]; intros H.
  - simpl split. rewrite Ascii.eqb_refl. reflexivity.
  - apply orb_false_iff in H as [H1 H2]. simpl split.
    rewrite Ascii.eqb_sym, H1. fold (split sep (e ++ String sep t)).
    rewrite (IH H2). reflexivity.
Qed.

Lemma split_concat (sep : ascii) (entries : list string) :
  entries <> [] ->
  forallb (fun e => negb (existsb (Ascii.eqb sep) (list_ascii_of_string e))) entries = true ->
  split sep (String.concat (String sep "") entries) = entries.
Proof.
  induction entries as [|e es IH]; [congruence|]. intros _ F.
  cbn [forallb] in F. apply andb_true_iff in F as [Fe Fs]. apply negb_true_iff in Fe.
  destruct es as [|e2 es].
  - apply split_field, Fe.
  - change (String.concat (String sep "") (e :: e2 :: es))
      with (e ++ String sep (String.concat (String sep "") (e2 :: es)))%string.
    rewrite split_field_app by exact Fe. f_equal. apply IH; [discriminate|exact Fs].
Qed.

Lemma listed_split (entries : list string) (s : string) :
  listed entries s -> split ","%char s = entries.
Proof. intros (N & -> & F). apply split_concat; assumption. Qed.

Lemma split_listed (s : string) : listed (split ","%char s) s.
Proof.
  split; [apply split_not_nil|]. split; [symmetry; apply concat_split|apply split_fields].
Qed.

Lemma contains_exists (c : ascii) (s : string) :
  contains c s = existsb (Ascii.eqb c) (list_ascii_of_string s).
Proof. induction s as [|a s IH]; simpl; [reflexivity|]. rewrite IH. reflexivity. Qed.

Lemma resolved_looked_up W (entries : list string) :
  resolved W entries = looked_up W (map strip entries).
Proof.
  induction entries as [|e es IH]; [reflexivity|].
  cbn [resolved map looked_up flat_map]. fold (looked_up W (map strip es)).
  rewrite contains_exists, IH.
  destruct (negb (strip e =? "")%string
            && existsb (Ascii.eqb "/") (list_ascii_of_string (strip e)));
    [|reflexivity].
  destruct (api_get_repo W (strip e)); reflexivity.
Qed.

Lemma trims_all (entries names : list string) :
  Forall2 trims entries names -> names = map strip entries.
Proof.
  induction 1 as [|e n es ns T _ IH]; [reflexivity|].
  cbn [map]. rewrite (strip_trims e n T), IH. reflexivity.
Qed.

Lemma trims_total (entries : list string) : Forall2 trims entries (map strip entries).
Proof.
  induction entries as [|e es IH]; constructor; [apply trims_strip|exact IH].
Qed.

(** X4: a configured list returns one repository per entry whose name, the
    entry without the white space around it, is not empty, holds a slash and
    can be looked up; the repositories come in the order of the list, an
    entry that cannot be looked up is skipped and a repeated entry is
    returned again. The entries are the fields between the commas; white
    space is the characters [str.isspace] accepts, of one byte or more. *)
Theorem configured_list_returns_every_entry W cfg user :
  REPOS_TO_TRACK cfg <> "" ->
  get_repos_to_track W cfg user
  = Ret (resolved W (split ","%char (REPOS_TO_TRACK cfg)))
  /\ (exists entries names,
        listed entries (REPOS_TO_TRACK cfg) /\ Forall2 trims entries names)
  /\ (forall entries names,
        listed entries (REPOS_TO_TRACK cfg) -> Forall2 trims entries names ->
        get_repos_to_track W cfg user = Ret (looked_up W names)).
Proof.
  intros Hc.
  assert (G : get_repos_to_track W cfg user
              = Ret (resolved W (split ","%char (REPOS_TO_TRACK cfg)))).
  { unfold get_repos_to_track.
    replace (negb (REPOS_TO_TRACK cfg =? "")%string) with true
      by (symmetry; apply negb_true_iff, String.eqb_neq, Hc).
    rewrite returning_returns by (apply returns_for_each, track_configured_returns).
    rewrite for_each_track_configured. reflexivity. }
  split; [exact G|]. split.
  - exists (split ","%char (REPOS_TO_TRACK cfg)), (map strip (split ","%char (REPOS_TO_TRACK cfg))).
    split; [apply split_listed|apply trims_total].
  - intros entries names L T. rewrite G, (listed_split _ _ L), resolved_looked_up.
    rewrite (trims_all _ _ T). reflexivity.
Qed.

Lemma configured_list_returns_every_entry_witness :
  list_ascii_of_string (REPOS_TO_TRACK padded)
  = map ascii_of_nat
      [32; 97; 47; 98; 32; 44; 194; 160; 99; 47; 100; 226; 128; 131; 9; 44;
       120; 44; 44; 97; 47; 98]%nat
  /\ get_repos_to_track small padded "djok"
     = Ret [repo_named "a/b"; repo_named "c/d"; repo_named "a/b"].
Proof.
  split; [reflexivity|].
  destruct (configured_list_returns_every_entry small padded "djok" ltac:(discriminate))
    as (_ & _ & H).
  rewrite (H [" a/b "; (utf8 160 ++ "c/d" ++ utf8 8195 ++ utf8 9)%string; "x"; ""; "a/b"]
             ["a/b"; "c/d"; "x"; ""; "a/b"]).
  - reflexivity.
  - split; [discriminate|]. split; reflexivity.
  - repeat apply Forall2_cons; try apply Forall2_nil.
    + exists [" "], [" "]. repeat split.
    + exists [utf8 160], [utf8 8195; utf8 9]. repeat split.
    + exists [], []. repeat split.
    + exists [], []. repeat split.
    + exists [], []. repeat split.
Defined.

(** ** collect_all_metrics *)

Lemma collect_all_metrics_unfold W cfg :
  collect_all_metrics W cfg
  = match api_get_user W (GH_USERNAME cfg) with
    | Ret _ =>
        let f := final W cfg (enumerated W cfg) in
        Ret (set_top_repos (top_ranking (repos f)) f)
    | Raise e => Raise e
    end.
Proof.
  unfold collect_all_metrics, enumerated, final.
  destruct (api_get_user W (GH_USERNAME cfg)) as [user|e]; [|reflexivity].
  cbn [rbind]. destruct (get_repos_to_track_returns W cfg user) as [rs ->].
  cbn [rbind].
  rewrite (foldM_total _ (processed W cfg (clock W 0)))
    by (intros; apply process_repo_returns).
  cbn [rbind]. unfold initial.
  destruct (fold_left _ rs _) as [tick results]. reflexivity.
Qed.

(** The run returns a snapshot unless the lookup of the user fails. *)
Lemma collect_all_metrics_returns W cfg user :
  api_get_user W (GH_USERNAME cfg) = Ret user ->
  exists snap, collect_all_metrics W cfg = Ret snap.
Proof.
  intros E. rewrite collect_all_metrics_unfold, E. eexists; reflexivity.
Qed.

Lemma collect_all_metrics_inv W cfg snap :
  collect_all_metrics W cfg = Ret snap ->
  snap = set_top_repos (top_ranking (repos (final W cfg (enumerated W cfg))))
                       (final W cfg (enumerated W cfg)).
Proof.
  rewrite collect_all_metrics_unfold.
  destruct (api_get_user W (GH_USERNAME cfg)); [|discriminate].
  intros E. injection E as <-. reflexivity.
Qed.

(** ** Dictionaries *)

Lemma dict_get_set {V : Type} (k k' : string) (v : V) (d : dict V) :
  dict_get k (dict_set k' v d) = if String.eqb k k' then Some v else dict_get k d.
Proof.
  induction d as [|[k0 v0] d IH]; simpl.
  - reflexivity.
  - destruct (String.eqb k' k0) eqn:E'; simpl.
    + apply String.eqb_eq in E' as <-. destruct (String.eqb k k'); reflexivity.
    + rewrite IH. destruct (String.eqb k k0) eqn:E0; [|reflexivity].
      apply String.eqb_eq in E0 as <-.
      rewrite String.eqb_sym, E'. reflexivity.
Qed.

Lemma dict_get_none {V : Type} (k : string) (d : dict V) :
  dict_get k d = None <-> ~ In k (dict_keys d).
Proof.
  induction d as [|[k0 v0] d IH]; simpl.
  - tauto.
  - destruct (String.eqb k k0) eqn:E.
    + apply String.eqb_eq in E as <-. split; [discriminate | intros H; exfalso; tauto].
    + apply String.eqb_neq in E. rewrite IH. split; [intros H [H'|H']; congruence | tauto].
Qed.

Lemma dict_get_in {V : Type} (k : string) (v : V) (d : dict V) :
  dict_get k d = Some v -> In (k, v) d.
Proof.
  induction d as [|[k0 v0] d IH]; simpl; [discriminate|].
  destruct (String.eqb k k0) eqn:E.
  - apply String.eqb_eq in E as <-. intros H; injection H as <-. left; reflexivity.
  - intros H. right. apply IH, H.
Qed.

Lemma in_dict_get {V : Type} (k : string) (v : V) (d : dict V) :
  NoDup (dict_keys d) -> In (k, v) d -> dict_get k d = Some v.
Proof.
  induction d as [|[k0 v0] d IH]; simpl; [tauto|].
  intros Hn [H|H].
  - injection H as -> ->. rewrite String.eqb_refl. reflexivity.
  - inversion Hn as [|? ? Hk Hd]; subst.
    destruct (String.eqb k k0) eqn:E.
    + apply String.eqb_eq in E as ->. exfalso. apply Hk.
      change k0 with (fst (k0, v)). apply in_map, H.
    + apply IH; assumption.
Qed.

(** A new key goes last. *)
Lemma dict_set_new {V : Type} (k : string) (v : V) (d : dict V) :
  ~ In k (dict_keys d) -> dict_set k v d = d ++ [(k, v)].
Proof.
  induction d as [|[k0 v0] d IH]; simpl; intros H.
  - reflexivity.
  - destruct (String.eqb k k0) eqn:E.
    + apply String.eqb_eq in E. exfalso. apply H. left. congruence.
    + rewrite IH; [reflexivity | tauto].
Qed.

(** An existing key keeps its place. *)
Lemma dict_set_keys_old {V : Type} (k : string) (v : V) (d : dict V) :
  In k (dict_keys d) -> dict_keys (dict_set k v d) = dict_keys d.
Proof.
  induction d as [|[k0 v0] d IH]; simpl; intros H.
  - contradiction.
  - destruct (String.eqb k k0) eqn:E; simpl; [reflexivity|].
    apply String.eqb_neq in E. f_equal. apply IH. destruct H; [congruence | assumption].
Qed.

Lemma dict_set_keys_nodup {V : Type} (k : string) (v : V) (d : dict V) :
  NoDup (dict_keys d) -> NoDup (dict_keys (dict_set k v d)).
Proof.
  intros H. destruct (in_dec string_dec k (dict_keys d)) as [Hin|Hout].
  - rewrite dict_set_keys_old; assumption.
  - rewrite dict_set_new by assumption. unfold dict_keys. rewrite map_app. simpl.
    apply NoDup_app; [exact H | repeat constructor; intros [] | ].
    intros x Hx [<-|[]]. exact (Hout Hx).
Qed.

(** ** Sums of statistics *)

Lemma add_stats_assoc (a b c : Stats) :
  add_stats (add_stats a b) c = add_stats a (add_stats b c).
Proof. unfold add_stats; simpl; f_equal; lia. Qed.

Lemma add_stats_zero_l (a : Stats) : add_stats zero_stats a = a.
Proof. destruct a; reflexivity. Qed.

Lemma pget_padd (p : period) (m1 m2 : period_map Stats) :
  pget p (padd m1 m2) = add_stats (pget p m1) (pget p m2).
Proof. destruct p; reflexivity. Qed.

Lemma pget_period_stats W cfg now repo p :
  pget p (period_stats W cfg now repo) = stats_in W cfg now repo p.
Proof. destruct p; reflexivity. Qed.

Lemma counted_zero (p : paged Commit) : commits (counted p) = 0 -> counted p = zero_stats.
Proof.
  intros H. unfold counted. rewrite (counted_zero_commits p H). reflexivity.
Qed.

Lemma counted_commits_nonneg (p : paged Commit) : 0 <= commits (counted p).
Proof. apply (for_each_count_monotone (items p) zero_stats). Qed.

(** An inactive repository has all-zero statistics in every period. *)
Lemma inactive_stats W cfg now repo p :
  active W cfg now repo = false -> stats_in W cfg now repo p = zero_stats.
Proof.
  unfold active. intros H.
  assert (Hp : (0 <? commits (stats_in W cfg now repo p)) = false).
  { destruct (0 <? commits (stats_in W cfg now repo p)) eqn:E; [|reflexivity].
    rewrite <- H. symmetry. apply existsb_exists. exists p. split; [|exact E].
    destruct p; simpl; tauto. }
  apply Z.ltb_ge in Hp. unfold stats_in in *. apply counted_zero.
  pose proof (counted_commits_nonneg
                (api_get_commits W repo (GH_USERNAME cfg)
                   (fst (period_window now p)) (snd (period_window now p)))).
  lia.
Qed.

Lemma active_has_commits W cfg now repo :
  active W cfg now repo = true ->
  exists p, 1 <= commits (stats_in W cfg now repo p).
Proof.
  unfold active. intros H. apply existsb_exists in H as (p & _ & Hp).
  exists p. apply Z.ltb_lt in Hp. lia.
Qed.

(** ** The state after the loop over the repositories *)

Lemma fold_processed_summary W cfg now rs st p :
  pget p (summary (snd (fold_left (processed W cfg now) rs st)))
  = add_stats (pget p (summary (snd st)))
              (sum_stats (map (fun r => stats_in W cfg now r p) rs)).
Proof.
  revert st. induction rs as [|r rs IH]; intros st; simpl.
  - symmetry. apply add_zero_stats.
  - rewrite IH, processed_summary, pget_padd, pget_period_stats.
    apply add_stats_assoc.
Qed.

Lemma fold_processed_repos W cfg now rs st :
  repos (snd (fold_left (processed W cfg now) rs st))
  = recorded W cfg now (repos (snd st)) rs.
Proof.
  unfold recorded. revert st. induction rs as [|r rs IH]; intros st; simpl.
  - reflexivity.
  - rewrite IH, processed_repos. reflexivity.
Qed.

Lemma fold_processed_languages W cfg now rs st :
  languages (snd (fold_left (processed W cfg now) rs st))
  = fold_left (fun d r => fold_left merge_language (languages_of W r) d) rs
              (languages (snd st)).
Proof.
  revert st. induction rs as [|r rs IH]; intros st; simpl.
  - reflexivity.
  - rewrite IH, processed_languages. reflexivity.
Qed.

Lemma recorded_distinct W cfg now rs d :
  NoDup (dict_keys d ++ map full_name rs) ->
  recorded W cfg now d rs
  = d ++ map (fun r => (full_name r, detail W cfg now r)) (filter (active W cfg now) rs).
Proof.
  unfold recorded. revert d. induction rs as [|r rs IH]; intros d H; simpl.
  - symmetry. apply app_nil_r.
  - assert (Hr : ~ In (full_name r) (dict_keys d)).
    { intros Hin. apply NoDup_remove_2 in H. apply H, in_or_app. left. exact Hin. }
    destruct (active W cfg now r).
    + rewrite IH.
      * rewrite dict_set_new by exact Hr. rewrite <- app_assoc. reflexivity.
      * rewrite dict_set_new by exact Hr. unfold dict_keys. rewrite map_app. simpl.
        rewrite <- app_assoc. exact H.
    + apply IH. apply NoDup_remove_1 in H. exact H.
Qed.

Lemma recorded_get_none W cfg now rs d k :
  dict_get k (recorded W cfg now d rs) = None
  <-> dict_get k d = None
      /\ forall r, In r rs -> full_name r = k -> active W cfg now r = false.
Proof.
  unfold recorded. revert d. induction rs as [|r rs IH]; intros d; simpl.
  - split; [intros H; split; [exact H | intros r []] | tauto].
  - rewrite IH. destruct (active W cfg now r) eqn:A.
    + rewrite dict_get_set. destruct (String.eqb k (full_name r)) eqn:E.
      * apply String.eqb_eq in E. split; [intros [H _]; discriminate|].
        intros [_ H]. specialize (H r (or_introl eq_refl) (eq_sym E)). congruence.
      * apply String.eqb_neq in E. split.
        -- intros [H1 H2]. split; [exact H1|]. intros r' [<-|Hr'] Hk; [congruence|].
           apply H2; assumption.
        -- intros [H1 H2]. split; [exact H1|]. intros r' Hr'. apply H2. right; exact Hr'.
    + split.
      * intros [H1 H2]. split; [exact H1|]. intros r' [<-|Hr'] Hk; [exact A|].
        apply H2; assumption.
      * intros [H1 H2]. split; [exact H1|]. intros r' Hr'. apply H2. right; exact Hr'.
Qed.

Lemma recorded_get_some W cfg now rs d k v :
  dict_get k (recorded W cfg now d rs) = Some v ->
  dict_get k d = Some v
  \/ exists r, In r rs /\ active W cfg now r = true /\ full_name r = k
               /\ v = detail W cfg now r.
Proof.
  unfold recorded. revert d. induction rs as [|r rs IH]; intros d; simpl.
  - tauto.
  - intros H. apply IH in H as [H|(r' & Hr' & A' & K' & V')].
    + destruct (active W cfg now r) eqn:A; [|left; exact H].
      rewrite dict_get_set in H. destruct (String.eqb k (full_name r)) eqn:E.
      * apply String.eqb_eq in E. injection H as <-. right. exists r. auto.
      * left; exact H.
    + right. exists r'. auto.
Qed.

(** Every item of the detail mapping is stored under the identifier it
    holds, and the keys are distinct. *)
Lemma recorded_items W cfg now rs d :
  NoDup (dict_keys d) ->
  (forall k v, In (k, v) d -> rd_full_name v = k) ->
  NoDup (dict_keys (recorded W cfg now d rs))
  /\ forall k v, In (k, v) (recorded W cfg now d rs) ->
       rd_full_name v = k
       /\ (In (k, v) d
           \/ exists r, In r rs /\ active W cfg now r = true /\ full_name r = k
                        /\ v = detail W cfg now r).
Proof.
  intros Hn Hd.
  assert (N : NoDup (dict_keys (recorded W cfg now d rs))).
  { unfold recorded. revert d Hn Hd. induction rs as [|r rs IH]; intros d Hn Hd; simpl.
    - exact Hn.
    - destruct (active W cfg now r); apply IH; auto.
      + apply dict_set_keys_nodup, Hn.
      + intros k v Hin. apply (in_dict_get _ _ _ (dict_set_keys_nodup _ _ _ Hn)) in Hin.
        rewrite dict_get_set in Hin. destruct (String.eqb k (full_name r)) eqn:E.
        * apply String.eqb_eq in E. injection Hin as <-. simpl. congruence.
        * apply Hd, dict_get_in, Hin. }
  split; [exact N|]. intros k v Hin.
  apply (in_dict_get _ _ _ N) in Hin.
  destruct (recorded_get_some _ _ _ _ _ _ _ Hin) as [H|(r & Hr & A & K & V)].
  - apply dict_get_in in H. split; [apply Hd, H | left; exact H].
  - split; [subst; reflexivity | right; exists r; auto].
Qed.

Lemma sum_stats_active W cfg now rs p :
  sum_stats (map (fun r => stats_in W cfg now r p) rs)
  = sum_stats (map (fun r => stats_in W cfg now r p) (filter (active W cfg now) rs)).
Proof.
  induction rs as [|r rs IH]; simpl; [reflexivity|].
  destruct (active W cfg now r) eqn:A; simpl.
  - rewrite IH. reflexivity.
  - rewrite (inactive_stats _ _ _ _ p A), add_stats_zero_l. exact IH.
Qed.

(** X2: when the enumerated repositories have pairwise distinct full
    identifiers, the summary of every period is the sum of that period's
    statistics over the detail records of the snapshot, which are the records
    of the active repositories in enumeration order. *)
Theorem summary_matches_details W cfg snap :
  collect_all_metrics W cfg = Ret snap ->
  NoDup (map full_name (enumerated W cfg)) ->
  repos snap
  = map (fun r => (full_name r, detail W cfg (clock W 0) r))
        (filter (active W cfg (clock W 0)) (enumerated W cfg))
  /\ forall p,
       pget p (summary snap)
       = sum_stats (map (fun d => pget p (rd_periods d)) (dict_values (repos snap))).
Proof.
  intros E Hn. rewrite (collect_all_metrics_inv _ _ _ E). cbn [repos summary set_top_repos].
  unfold final. rewrite fold_processed_repos. cbn [snd initial repos].
  rewrite recorded_distinct by exact Hn. cbn [app].
  split; [reflexivity|]. intros p.
  rewrite fold_processed_summary. cbn [snd initial summary].
  replace (pget p (pconst zero_stats)) with zero_stats by (destruct p; reflexivity).
  rewrite add_stats_zero_l, sum_stats_active.
  unfold dict_values. rewrite !map_map. cbn [snd detail rd_periods].
  f_equal. apply map_ext. intros r. symmetry. apply pget_period_stats.
Qed.

Lemma summary_matches_details_witness :
  exists snap,
    collect_all_metrics small discover = Ret snap
    /\ dict_keys (repos snap) = ["a/b"]
    /\ pget year (summary snap)
       = {| commits := 1; additions := 10; deletions := 2; files_changed := 1 |}
    /\ forall p,
         pget p (summary snap)
         = sum_stats (map (fun d => pget p (rd_periods d)) (dict_values (repos snap))).
Proof.
  eexists. split; [vm_compute; reflexivity|].
  split; [reflexivity|]. split; [reflexivity|].
  refine (proj2 (summary_matches_details small discover _ _ _)).
  - vm_compute. reflexivity.
  - vm_compute. repeat constructor; simpl; intuition discriminate.
Defined.

(** C5 at a configured list that names one repository twice: the enumerator
    returns it twice, where discovery would have kept the first occurrence
    only. *)
Theorem configured_list_keeps_duplicates :
  get_repos_to_track small twice "djok" = Ret [repo_named "a/b"; repo_named "a/b"]
  /\ ~ NoDup (map full_name [repo_named "a/b"; repo_named "a/b"]).
Proof.
  split; [reflexivity|].
  intros H. inversion H as [|x l Hx _]; subst. apply Hx. left. reflexivity.
Qed.

(** C1 at a configured list that names one repository twice: its commits
    are added to the summary twice, while the detail mapping holds the
    repository once, so the summary is not the sum over the details. *)
Theorem duplicate_entry_counted_twice :
  exists snap,
    collect_all_metrics small twice = Ret snap
    /\ dict_keys (repos snap) = ["a/b"]
    /\ active small twice (clock small 0) (repo_named "a/b") = true
    /\ pget year (summary snap)
       = {| commits := 2; additions := 20; deletions := 4; files_changed := 2 |}
    /\ sum_stats (map (fun d => pget year (rd_periods d)) (dict_values (repos snap)))
       = {| commits := 1; additions := 10; deletions := 2; files_changed := 1 |}.
Proof.
  eexists. split; [vm_compute; reflexivity|].
  repeat split; reflexivity.
Qed.

(** ** Languages *)

Lemma dict_get_merge (lang : string) (d : dict Z) (kv : string * N) :
  dict_get lang (merge_language d kv)
  = if String.eqb lang (fst kv) then Some (bytes_of (fst kv) d + Z.of_N (snd kv))
    else dict_get lang d.
Proof.
  unfold merge_language, dict_update, bytes_of.
  destruct (dict_get (fst kv) d); rewrite dict_get_set; reflexivity.
Qed.

Lemma bytes_of_merge (lang : string) (d : dict Z) (kv : string * N) :
  bytes_of lang (merge_language d kv)
  = bytes_of lang d + (if String.eqb lang (fst kv) then Z.of_N (snd kv) else 0).
Proof.
  unfold bytes_of at 1. rewrite dict_get_merge.
  destruct (String.eqb lang (fst kv)) eqn:E.
  - apply String.eqb_eq in E as <-. reflexivity.
  - unfold bytes_of. lia.
Qed.

Lemma bytes_of_fold_merge (lang : string) (l : dict N) (d : dict Z) :
  bytes_of lang (fold_left merge_language l d) = bytes_of lang d + bytes_in lang l.
Proof.
  revert d. induction l as [|kv l IH]; intros d; simpl.
  - lia.
  - rewrite IH, bytes_of_merge. destruct (String.eqb lang (fst kv)); lia.
Qed.

Lemma dict_get_fold_merge_none (lang : string) (l : dict N) (d : dict Z) :
  dict_get lang (fold_left merge_language l d) = None
  <-> dict_get lang d = None /\ ~ In lang (dict_keys l).
Proof.
  revert d. induction l as [|kv l IH]; intros d; simpl.
  - tauto.
  - rewrite IH, dict_get_merge. destruct (String.eqb lang (fst kv)) eqn:E.
    + apply String.eqb_eq in E. split; [intros [H _]; discriminate|].
      intros [_ H]. exfalso. apply H. left. congruence.
    + apply String.eqb_neq in E. split; [intros [H1 H2]; split; [exact H1|] | tauto].
      intros [H|H]; [congruence | tauto].
Qed.

Lemma bytes_in_nonneg (lang : string) (l : dict N) : 0 <= bytes_in lang l.
Proof.
  induction l as [|kv l IH]; simpl; [lia|].
  destruct (String.eqb lang (fst kv)); lia.
Qed.

Lemma bytes_in_member (lang : string) (b : N) (l : dict N) :
  In (lang, b) l -> Z.of_N b <= bytes_in lang l.
Proof.
  induction l as [|kv l IH]; simpl; [tauto|].
  pose proof (bytes_in_nonneg lang l).
  intros [->|H']; simpl.
  - rewrite String.eqb_refl. lia.
  - specialize (IH H'). destruct (String.eqb lang (fst kv)); lia.
Qed.

Lemma merged_bytes_nonneg W lang rs : 0 <= merged_bytes W lang rs.
Proof.
  induction rs as [|r rs IH]; simpl; [lia|].
  pose proof (bytes_in_nonneg lang (languages_of W r)). lia.
Qed.

Lemma merged_bytes_member W lang rs r :
  In r rs -> bytes_in lang (languages_of W r) <= merged_bytes W lang rs.
Proof.
  induction rs as [|r' rs IH]; simpl; [tauto|].
  pose proof (merged_bytes_nonneg W lang rs).
  pose proof (bytes_in_nonneg lang (languages_of W r')).
  intros [->|H']; [lia | specialize (IH H'); lia].
Qed.

Lemma languages_after W lang rs d :
  bytes_of lang (fold_left (fun d r => fold_left merge_language (languages_of W r) d) rs d)
  = bytes_of lang d + merged_bytes W lang rs.
Proof.
  revert d. induction rs as [|r rs IH]; intros d; simpl.
  - lia.
  - rewrite IH, bytes_of_fold_merge. lia.
Qed.

Lemma languages_after_none W lang rs d :
  dict_get lang (fold_left (fun d r => fold_left merge_language (languages_of W r) d) rs d)
  = None
  <-> dict_get lang d = None
      /\ forall r, In r rs -> ~ In lang (dict_keys (languages_of W r)).
Proof.
  revert d. induction rs as [|r rs IH]; intros d; simpl.
  - split; [intros H; split; [exact H | intros r []] | tauto].
  - rewrite IH, dict_get_fold_merge_none. split.
    + intros [[H1 H2] H3]. split; [exact H1|]. intros r' [<-|Hr']; auto.
    + intros [H1 H2]. split; [split; [exact H1 | apply H2; left; reflexivity]|].
      intros r' Hr'. apply H2. right. exact Hr'.
Qed.

Lemma listing_counted (l : paged Commit) :
  (0 <? commits (counted l)) = match items l with
                               | [] => false
                               | _ :: _ => true
                               end.
Proof.
  destruct (items l) as [|c rest] eqn:I.
  - unfold counted. rewrite I. reflexivity.
  - apply Z.ltb_lt. pose proof (counted_commits_nonneg l) as N.
    destruct (Z.eq_dec (commits (counted l)) 0) as [Z0|Z0]; [|lia].
    apply counted_zero_commits in Z0. congruence.
Qed.

(** The flag the loop over the periods computes says whether the platform
    listed a commit. *)
Lemma active_has_commit W cfg now repo :
  active W cfg now repo = has_commit W cfg now repo.
Proof.
  unfold active, has_commit, all_periods, stats_in, period_listing. cbn [existsb].
  rewrite !listing_counted. reflexivity.
Qed.

Lemma period_stats_returned W cfg now repo p :
  get_commit_stats W repo (GH_USERNAME cfg)
    (fst (period_window now p)) (snd (period_window now p))
  = Ret (pget p (period_stats W cfg now repo)).
Proof. rewrite get_commit_stats_returns, pget_period_stats. reflexivity. Qed.

Lemma period_stats_readable W cfg now repo p :
  forallb readable (items (period_listing W cfg now repo p)) = true ->
  pget p (period_stats W cfg now repo) = total_of (items (period_listing W cfg now repo p)).
Proof.
  intros R. rewrite pget_period_stats. unfold stats_in, counted.
  fold (period_listing W cfg now repo p).
  rewrite (for_each_count_readable _ _ R). apply add_stats_zero_l.
Qed.

(** C2, a repository being identified by its full identifier, as the detail
    mapping identifies it, and having a commit in a period when the platform
    lists one for that period: the mapping has no entry for an identifier
    none of whose handles has a commit in any period; the language bytes of
    every enumerated repository, with commits or without, are summed into the
    language mapping; and a repository with a commit in some period has a
    detail record that holds the name, identifier, URL, description, star and
    fork counts of a handle with that identifier (its own, when no other
    handle bears the identifier) and, for each period, the statistics the
    accumulator returns for it, which count at least one commit in some
    period and are the sums over the listed commits when these are
    readable. *)
Theorem inactive_excluded_languages_merged W cfg snap :
  collect_all_metrics W cfg = Ret snap ->
  let rs := enumerated W cfg in
  let now := clock W 0 in
  (forall r, In r rs ->
     (forall r', In r' rs -> full_name r' = full_name r ->
                 has_commit W cfg now r' = false) ->
     dict_get (full_name r) (repos snap) = None)
  /\ (forall lang, bytes_of lang (languages snap) = merged_bytes W lang rs)
  /\ (forall r lang b, In r rs -> In (lang, b) (languages_of W r) ->
        exists total, dict_get lang (languages snap) = Some total /\ Z.of_N b <= total)
  /\ (forall r, In r rs -> has_commit W cfg now r = true ->
        exists r' stats,
          In r' rs /\ full_name r' = full_name r /\ has_commit W cfg now r' = true
          /\ dict_get (full_name r) (repos snap)
             = Some {| rd_name := name r'; rd_full_name := full_name r';
                       rd_url := html_url r'; rd_description := description r';
                       rd_stars := stargazers_count r'; rd_forks := forks_count r';
                       rd_periods := stats |}
          /\ (forall p,
                get_commit_stats W r' (GH_USERNAME cfg)
                  (fst (period_window now p)) (snd (period_window now p))
                = Ret (pget p stats))
          /\ (forall p,
                forallb readable (items (period_listing W cfg now r' p)) = true ->
                pget p stats = total_of (items (period_listing W cfg now r' p)))
          /\ (exists p, 1 <= commits (pget p stats))
          /\ ((forall r'', In r'' rs -> full_name r'' = full_name r -> r'' = r) -> r' = r)).
Proof.
  intros E rs now. rewrite (collect_all_metrics_inv _ _ _ E).
  cbn [repos languages set_top_repos]. unfold final.
  rewrite fold_processed_repos, fold_processed_languages. cbn [snd initial repos languages].
  fold rs now. split; [|split; [|split]].
  - intros r Hr Hall. apply recorded_get_none. split; [reflexivity|].
    intros r' Hr' Hk. rewrite active_has_commit. apply Hall; assumption.
  - intros lang. rewrite languages_after. reflexivity.
  - intros r lang b Hr Hb.
    pose proof (languages_after W lang rs []) as T.
    pose proof (languages_after_none W lang rs []) as G'.
    set (merged := fold_left
                     (fun d r => fold_left merge_language (languages_of W r) d) rs []) in *.
    destruct (dict_get lang merged) as [total|] eqn:G.
    + exists total. split; [reflexivity|].
      unfold bytes_of at 1 in T. rewrite G in T. cbn in T.
      pose proof (merged_bytes_member W lang rs r Hr).
      pose proof (bytes_in_member lang b _ Hb). lia.
    + exfalso. destruct (proj1 G' eq_refl) as [_ G'']. apply (G'' r Hr).
      change lang with (fst (lang, b)). apply in_map, Hb.
  - intros r Hr A. rewrite <- active_has_commit in A.
    destruct (dict_get (full_name r) (recorded W cfg now [] rs)) as [v|] eqn:G.
    + apply recorded_get_some in G as [G|(r' & Hr' & A' & K' & ->)]; [discriminate|].
      exists r', (period_stats W cfg now r').
      split; [exact Hr'|]. split; [exact K'|].
      split; [rewrite <- active_has_commit; exact A'|].
      split; [reflexivity|].
      split; [intros p; apply period_stats_returned|].
      split; [intros p; apply period_stats_readable|].
      split.
      * destruct (active_has_commits _ _ _ _ A') as [p Hp]. exists p.
        rewrite pget_period_stats. exact Hp.
      * intros U. apply U; assumption.
    + exfalso. apply recorded_get_none in G as [_ G].
      rewrite (G r Hr eq_refl) in A. discriminate.
Qed.

Lemma inactive_excluded_languages_merged_witness :
  exists snap,
    collect_all_metrics small discover = Ret snap
    /\ enumerated small discover = [repo_named "a/b"; repo_named "c/d"]
    /\ has_commit small discover (clock small 0) (repo_named "c/d") = false
    /\ dict_get "c/d" (repos snap) = None
    /\ has_commit small discover (clock small 0) (repo_named "a/b") = true
    /\ dict_get "a/b" (repos snap)
       = Some {| rd_name := "b"; rd_full_name := "a/b";
                 rd_url := "https://github.com/a/b"; rd_description := None;
                 rd_stars := 0; rd_forks := 0;
                 rd_periods :=
                   pconst {| commits := 1; additions := 10; deletions := 2;
                             files_changed := 1 |} |}
    /\ bytes_of "Python" (languages snap) = 900
    /\ bytes_of "Shell" (languages snap) = 7.
Proof.
  destruct (collect_all_metrics small discover) as [snap|e] eqn:E;
    [|vm_compute in E; discriminate].
  exists snap. split; [reflexivity|].
  destruct (inactive_excluded_languages_merged small discover snap E) as (A & B & _ & C).
  assert (Hrs : enumerated small discover = [repo_named "a/b"; repo_named "c/d"])
    by reflexivity.
  split; [exact Hrs|]. split; [reflexivity|]. split; [|split; [reflexivity|split]].
  - apply (A (repo_named "c/d")); [rewrite Hrs; right; left; reflexivity|].
    intros r' Hr' Hk. rewrite Hrs in Hr'. destruct Hr' as [<-|[<-|[]]].
    + vm_compute in Hk. discriminate.
    + reflexivity.
  - destruct (C (repo_named "a/b")) as (r' & stats & Hr' & K & _ & G & S & _);
      [rewrite Hrs; left; reflexivity | reflexivity |].
    etransitivity; [exact G|]. clear G.
    rewrite Hrs in Hr'. destruct Hr' as [<-|[<-|[]]];
      [|vm_compute in K; discriminate].
    assert (St : stats = pconst {| commits := 1; additions := 10; deletions := 2;
                                   files_changed := 1 |}).
    { pose proof (S today) as S1. pose proof (S week) as S2. pose proof (S month) as S3.
      pose proof (S quarter) as S4. pose proof (S year) as S5.
      vm_compute in S1, S2, S3, S4, S5.
      injection S1 as S1. injection S2 as S2. injection S3 as S3.
      injection S4 as S4. injection S5 as S5.
      destruct stats as [t w m q y]. cbn in *. subst. reflexivity. }
    rewrite St. reflexivity.
  - split; rewrite B; reflexivity.
Defined.

(** ** Stable descending sort *)

Section Sorting.
Context {A : Type} (key : A -> Z).

Lemma insert_desc_in (x y : A) (l : list A) :
  In y (insert_desc key x l) <-> y = x \/ In y l.
Proof.
  induction l as [|z l IH]; simpl.
  - intuition.
  - destruct (key x <? key z); simpl; [rewrite IH|]; intuition.
Qed.

Lemma sorted_desc_in (y : A) (l : list A) : In y (sorted_desc key l) <-> In y l.
Proof.
  induction l as [|x l IH]; simpl; [tauto|].
  rewrite insert_desc_in, IH. intuition.
Qed.

Lemma insert_desc_length (x : A) (l : list A) :
  List.length (insert_desc key x l) = S (List.length l).
Proof.
  induction l as [|z l IH]; simpl; [reflexivity|].
  destruct (key x <? key z); simpl; [rewrite IH|]; reflexivity.
Qed.

Lemma sorted_desc_length (l : list A) : List.length (sorted_desc key l) = List.length l.
Proof.
  induction l as [|x l IH]; simpl; [reflexivity|].
  rewrite insert_desc_length, IH. reflexivity.
Qed.

Lemma insert_desc_perm (x : A) (l : list A) : Permutation (x :: l) (insert_desc key x l).
Proof.
  induction l as [|z l IH]; simpl; [reflexivity|].
  destruct (key x <? key z); [|reflexivity].
  rewrite perm_swap. apply perm_skip, IH.
Qed.

Lemma sorted_desc_perm (l : list A) : Permutation l (sorted_desc key l).
Proof.
  induction l as [|x l IH]; simpl; [constructor|].
  rewrite <- insert_desc_perm. apply perm_skip, IH.
Qed.

Lemma insert_desc_sorted (x : A) (l : list A) :
  StronglySorted (desc key) l -> StronglySorted (desc key) (insert_desc key x l).
Proof.
  induction l as [|z l IH]; simpl; intros H.
  - repeat constructor.
  - inversion H as [|? ? Hl Hz]; subst.
    destruct (key x <? key z) eqn:E.
    + apply Z.ltb_lt in E. constructor; [apply IH, Hl|].
      apply Forall_forall. intros y Hy. apply insert_desc_in in Hy as [->|Hy].
      * unfold desc; lia.
      * rewrite Forall_forall in Hz. apply Hz, Hy.
    + apply Z.ltb_ge in E. constructor; [exact H|].
      constructor; [unfold desc; lia|].
      rewrite Forall_forall in Hz |- *. intros y Hy. specialize (Hz y Hy).
      unfold desc in *; lia.
Qed.

Lemma sorted_desc_sorted (l : list A) : StronglySorted (desc key) (sorted_desc key l).
Proof.
  induction l as [|x l IH]; simpl; [constructor | apply insert_desc_sorted, IH].
Qed.

Lemma firstn_sorted (n : nat) (l : list A) :
  StronglySorted (desc key) l -> StronglySorted (desc key) (firstn n l).
Proof.
  revert l. induction n as [|n IH]; intros [|x l] H; simpl; try constructor.
  - inversion H; subst. apply IH; assumption.
  - inversion H as [|? ? _ Hx]; subst.
    rewrite Forall_forall in Hx |- *. intros y Hy. apply Hx.
    rewrite <- (firstn_skipn n l). apply in_or_app. left. exact Hy.
Qed.

(** Where an element stands after an insertion. *)
Lemma before_insert_desc (a x y : A) (l : list A) :
  before x y (insert_desc key a l) ->
  before x y l \/ (x = a /\ In y l) \/ (y = a /\ In x l /\ key a < key x).
Proof.
  induction l as [|z l IH]; simpl.
  - intros H. inversion H as [? Hy|? ? Hb]; subst; [destruct Hy | inversion Hb].
  - destruct (key a <? key z) eqn:E.
    + apply Z.ltb_lt in E. intros H. inversion H as [? Hy|? ? Hb]; subst.
      * apply insert_desc_in in Hy as [->|Hy].
        -- right; right. repeat split; [left; reflexivity | exact E].
        -- left. constructor. exact Hy.
      * apply IH in Hb as [Hb|[[-> Hy]|(-> & Hx & Hk)]].
        -- left. apply before_later, Hb.
        -- right; left. split; [reflexivity | right; exact Hy].
        -- right; right. repeat split; [right; exact Hx | exact Hk].
    + intros H. inversion H as [? Hy|? ? Hb]; subst.
      * right; left. split; [reflexivity | exact Hy].
      * left. exact Hb.
Qed.

(** Stability: two elements with equal keys keep their order. *)
Lemma sorted_desc_stable (x y : A) (l : list A) :
  before x y (sorted_desc key l) -> key x = key y -> before x y l.
Proof.
  induction l as [|a l IH]; simpl; intros H K.
  - inversion H.
  - apply before_insert_desc in H as [H|[[-> Hy]|(-> & Hx & Hk)]].
    + apply before_later, IH; assumption.
    + apply before_here. apply sorted_desc_in, Hy.
    + lia.
Qed.

End Sorting.

Lemma before_firstn {A : Type} (x y : A) (n : nat) (l : list A) :
  before x y (firstn n l) -> before x y l.
Proof.
  revert l. induction n as [|n IH]; intros [|z l]; simpl; intros H; try (inversion H; fail).
  inversion H as [? Hy|? ? Hb]; subst.
  - apply before_here. rewrite <- (firstn_skipn n l). apply in_or_app. left. exact Hy.
  - apply before_later, IH, Hb.
Qed.

Lemma before_filter {A : Type} (f : A -> bool) (x y : A) (l : list A) :
  before x y (filter f l) -> before x y l.
Proof.
  induction l as [|z l IH]; simpl; intros H; [inversion H|].
  destruct (f z).
  - inversion H as [? Hy|? ? Hb]; subst.
    + apply before_here. apply filter_In in Hy. tauto.
    + apply before_later, IH, Hb.
  - apply before_later, IH, H.
Qed.

Lemma before_map_inv {A B : Type} (f : A -> B) (x y : B) (l : list A) :
  before x y (map f l) -> exists a b, f a = x /\ f b = y /\ before a b l.
Proof.
  induction l as [|z l IH]; simpl; intros H; [inversion H|].
  inversion H as [? Hy|? ? Hb]; subst.
  - apply in_map_iff in Hy as (b & Hb & Hin). exists z, b. repeat split; auto.
    apply before_here, Hin.
  - apply IH in Hb as (a & b & Ha & Hb' & Hab). exists a, b. repeat split; auto.
    apply before_later, Hab.
Qed.

Lemma before_map {A B : Type} (f : A -> B) (a b : A) (l : list A) :
  before a b l -> before (f a) (f b) (map f l).
Proof.
  induction 1 as [l Hy|z l Hb IH]; simpl.
  - apply before_here, in_map, Hy.
  - apply before_later, IH.
Qed.

Lemma before_in {A : Type} (x y : A) (l : list A) : before x y l -> In x l /\ In y l.
Proof.
  induction 1 as [l Hy|z l Hb [IH1 IH2]]; simpl; auto.
Qed.

(** ** Order of the detail mapping *)

Lemma mem_in (k : string) (l : list string) : mem k l = true <-> In k l.
Proof.
  unfold mem. rewrite existsb_exists. split.
  - intros (x & Hx & E). apply String.eqb_eq in E as ->. exact Hx.
  - intros H. exists k. split; [exact H | apply String.eqb_refl].
Qed.

Lemma filter_absent_present (k : string) (ks l : list string) :
  In k ks ->
  filter (fun y => negb (mem y ks)) (filter (fun y => negb (String.eqb y k)) l)
  = filter (fun y => negb (mem y ks)) l.
Proof.
  intros Hk. induction l as [|x l IH]; simpl; [reflexivity|].
  destruct (String.eqb x k) eqn:E; simpl.
  - apply String.eqb_eq in E as ->.
    replace (mem k ks) with true by (symmetry; apply mem_in, Hk). simpl. exact IH.
  - destruct (mem x ks); simpl; [exact IH | f_equal; exact IH].
Qed.

Lemma filter_absent_snoc (k : string) (ks l : list string) :
  filter (fun y => negb (mem y (ks ++ [k]))) l
  = filter (fun y => negb (mem y ks)) (filter (fun y => negb (String.eqb y k)) l).
Proof.
  induction l as [|x l IH]; simpl; [reflexivity|].
  unfold mem at 1. rewrite existsb_app. simpl. rewrite orb_false_r. fold (mem x ks).
  destruct (String.eqb x k); simpl.
  - rewrite orb_true_r. simpl. exact IH.
  - rewrite orb_false_r. destruct (mem x ks); simpl; [exact IH | f_equal; exact IH].
Qed.

Lemma filter_absent_nil (l : list string) : filter (fun y => negb (mem y [])) l = l.
Proof.
  induction l as [|x l IH]; simpl; [reflexivity | f_equal; exact IH].
Qed.

Lemma recorded_keys_from W cfg now rs d :
  dict_keys (recorded W cfg now d rs)
  = dict_keys d
    ++ filter (fun k => negb (mem k (dict_keys d)))
              (first_seen (map full_name (filter (active W cfg now) rs))).
Proof.
  unfold recorded. revert d. induction rs as [|r rs IH]; intros d; simpl.
  - symmetry. apply app_nil_r.
  - destruct (active W cfg now r); [|apply IH].
    rewrite IH. simpl.
    destruct (in_dec string_dec (full_name r) (dict_keys d)) as [Hin|Hout].
    + rewrite dict_set_keys_old by exact Hin.
      replace (mem (full_name r) (dict_keys d)) with true
        by (symmetry; apply mem_in, Hin).
      simpl. rewrite filter_absent_present by exact Hin. reflexivity.
    + rewrite dict_set_new by exact Hout. unfold dict_keys at 1 2. rewrite map_app.
      simpl. fold (dict_keys d).
      replace (mem (full_name r) (dict_keys d)) with false
        by (symmetry; apply not_true_is_false; rewrite mem_in; exact Hout).
      simpl. rewrite <- app_assoc. simpl. rewrite filter_absent_snoc. reflexivity.
Qed.

(** The keys of the detail mapping are the identifiers of the active
    repositories in the order in which the loop first met them. *)
Lemma recorded_keys W cfg now rs :
  dict_keys (recorded W cfg now [] rs)
  = first_seen (map full_name (filter (active W cfg now) rs)).
Proof. rewrite recorded_keys_from. simpl. apply filter_absent_nil. Qed.

(** ** The ranking *)

(** C3: the ranking has at most ten entries (ten, or all the repositories
    with a commit in the year when they are fewer); every entry is that of an
    enumerated, active repository and carries its yearly figures, with at
    least one commit; the additions never increase along the list; and two
    entries with equal additions stand in the order in which the loop over
    the repositories first met their repositories. *)
Theorem top_repos_ranking W cfg snap :
  collect_all_metrics W cfg = Ret snap ->
  let rs := enumerated W cfg in
  let now := clock W 0 in
  (List.length (top_repos snap) <= 10)%nat
  /\ List.length (top_repos snap)
     = Nat.min 10 (List.length (filter has_year_commits (repos snap)))
  /\ (forall e, In e (top_repos snap) ->
        1 <= top_commits e
        /\ exists r,
             In r rs /\ active W cfg now r = true
             /\ e = {| top_name := full_name r; top_url := html_url r;
                       top_commits := commits (stats_in W cfg now r year);
                       top_additions := additions (stats_in W cfg now r year);
                       top_deletions := deletions (stats_in W cfg now r year) |})
  /\ StronglySorted (fun a b => top_additions b <= top_additions a) (top_repos snap)
  /\ (forall a b,
        before a b (top_repos snap) -> top_additions a = top_additions b ->
        before (top_name a) (top_name b)
               (first_seen (map full_name (filter (active W cfg now) rs)))).
Proof.
  intros E rs now. rewrite (collect_all_metrics_inv _ _ _ E).
  cbn [repos top_repos set_top_repos]. unfold final.
  rewrite fold_processed_repos. cbn [snd initial repos]. fold rs now.
  set (items := recorded W cfg now [] rs).
  destruct (recorded_items W cfg now rs [] (NoDup_nil _) (fun k v H => match H with end))
    as [Hn Hitems]. fold items in Hn, Hitems.
  assert (Hlen : List.length (top_ranking items)
                 = Nat.min 10 (List.length (filter has_year_commits items))).
  { unfold top_ranking. rewrite length_firstn, sorted_desc_length, length_map. reflexivity. }
  split; [rewrite Hlen; apply Nat.le_min_l|]. split; [exact Hlen|].
  split; [|split].
  - intros e He. unfold top_ranking in He.
    assert (He' : In e (sorted_desc top_additions
                          (map top_entry (filter has_year_commits items)))).
    { rewrite <- (firstn_skipn 10 (sorted_desc _ _)). apply in_or_app. left. exact He. }
    apply sorted_desc_in, in_map_iff in He' as ([k v] & <- & Hkv).
    apply filter_In in Hkv as [Hkv Hy].
    destruct (Hitems k v Hkv) as [_ [[]|(r & Hr & A & K & ->)]].
    unfold has_year_commits in Hy. cbn [snd detail rd_periods] in Hy.
    apply Z.ltb_lt in Hy. rewrite pget_period_stats in Hy.
    split.
    + unfold top_entry. cbn [snd detail rd_periods top_commits].
      rewrite pget_period_stats. lia.
    + exists r. split; [exact Hr|]. split; [exact A|].
      unfold top_entry. cbn [snd detail rd_periods rd_full_name rd_url].
      rewrite pget_period_stats. reflexivity.
  - unfold top_ranking. apply (firstn_sorted top_additions), sorted_desc_sorted.
  - intros a b Hab K. unfold top_ranking in Hab.
    apply before_firstn in Hab. apply (sorted_desc_stable top_additions) in Hab; [|exact K].
    apply before_map_inv in Hab as (ia & ib & <- & <- & Hab).
    apply before_filter in Hab.
    destruct (before_in _ _ _ Hab) as [Ha Hb].
    destruct ia as [ka va], ib as [kb vb].
    destruct (Hitems ka va Ha) as [Na _]. destruct (Hitems kb vb Hb) as [Nb _].
    unfold top_entry. cbn [snd top_name]. rewrite Na, Nb.
    rewrite <- recorded_keys. fold items.
    apply (before_map fst) in Hab. exact Hab.
Qed.

Lemma top_repos_ranking_witness :
  (exists snap,
     collect_all_metrics ranked discover = Ret snap
     /\ map top_name (top_repos snap) = ["x/b"; "x/e"; "x/a"; "x/c"]
     /\ map top_additions (top_repos snap) = [9; 7; 5; 5]
     /\ (List.length (top_repos snap) <= 10)%nat)
  /\ (exists snap,
        collect_all_metrics crowded discover = Ret snap
        /\ List.length (repos snap) = 12%nat
        /\ map top_name (top_repos snap)
           = ["o/12"; "o/11"; "o/10"; "o/09"; "o/08"; "o/07"; "o/05"; "o/06"; "o/04";
              "o/03"]
        /\ (List.length (top_repos snap) <= 10)%nat).
Proof.
  split.
  - destruct (collect_all_metrics ranked discover) as [snap|e] eqn:E;
      [|vm_compute in E; discriminate].
    exists snap. split; [reflexivity|].
    pose proof (top_repos_ranking ranked discover snap E) as (L & _).
    vm_compute in E. injection E as <-.
    split; [reflexivity|]. split; [reflexivity | exact L].
  - destruct (collect_all_metrics crowded discover) as [snap|e] eqn:E;
      [|vm_compute in E; discriminate].
    exists snap. split; [reflexivity|].
    pose proof (top_repos_ranking crowded discover snap E) as (L & _).
    vm_compute in E. injection E as <-.
    split; [reflexivity|]. split; [reflexivity | exact L].
Defined.

(** ** The daily series *)

Lemma day_start_is_midnight (now i : Z) : day_start now i = midnight now - days i.
Proof. apply midnight_shift. Qed.

(** C6: for a window of [ndays >= 0] days the builder returns [ndays + 1]
    entries; the entry at position [k] is the one of the offset [ndays - k],
    dated with the day that starts at the midnight of now minus that offset
    and holding the statistics of the 24 hours from that midnight; the days
    ascend, each window ending where the next begins, and the last entry is
    the current day. For a repository the loop
    finds active, the assembler folds into the daily buckets the series of a
    90-day window, 91 entries, and for any other it leaves the buckets as
    they were. *)
Theorem daily_series_covers_window :
  (forall W now repo author ndays,
     0 <= ndays ->
     exists series,
       get_daily_stats W now repo author ndays = Ret series
       /\ List.length series = Z.to_nat (ndays + 1)
       /\ (forall k, 0 <= k <= ndays ->
             let start := midnight (now - days (ndays - k)) in
             start = midnight now - days (ndays - k)
             /\ exists stats,
                  get_commit_stats W repo author start (start + days 1) = Ret stats
                  /\ nth_error series (Z.to_nat k)
                     = Some (daily_entry (strftime_ymd start) stats))
       /\ (forall i j, i < j -> day_start now j < day_start now i)
       /\ (forall i, day_end now i = day_start now (i - 1))
       /\ (exists stats,
             get_commit_stats W repo author (midnight now) (midnight now + days 1)
             = Ret stats
             /\ last series (daily_entry "" zero_stats)
                = daily_entry (strftime_ymd (midnight now)) stats)
       /\ midnight now <= now < midnight now + days 1)
  /\ (forall W cfg now tick results repo,
        exists tick' results' series,
          process_repo W cfg (periods now) (tick, results) repo = Ret (tick', results')
          /\ get_daily_stats W (clock W tick) repo (GH_USERNAME cfg) 90 = Ret series
          /\ List.length series = 91%nat
          /\ daily results'
             = if active W cfg now repo
               then daily (fold_left add_day series results)
               else daily results).
Proof.
  split.
  - intros W now repo author ndays Hn.
    exists (map (day_entry W now repo author) (range_down ndays)).
    split; [apply get_daily_stats_returns|].
    split; [rewrite length_map; apply range_down_length|].
    split; [|split; [|split; [|split]]].
    + intros k Hk start. split; [apply midnight_shift|].
      eexists. split; [apply get_commit_stats_returns|].
      rewrite nth_error_map, (range_down_nth ndays k Hk). reflexivity.
    + intros i j Hij. rewrite !day_start_is_midnight.
      unfold days, us_per_day, us_per_hour, us_per_minute, us_per_second. lia.
    + intros i. unfold day_end. rewrite !day_start_is_midnight.
      unfold days, us_per_day, us_per_hour, us_per_minute, us_per_second. lia.
    + eexists. split; [apply get_commit_stats_returns|].
      unfold range_down. replace (Z.to_nat (ndays + 1)) with (S (Z.to_nat ndays)) by lia.
      rewrite seq_S, !map_app. simpl. rewrite last_last.
      unfold day_entry, day_end. rewrite day_start_is_midnight.
      replace (ndays - Z.of_nat (Z.to_nat ndays)) with 0 by lia.
      replace (midnight now - days 0) with (midnight now)
        by (unfold days; unfold datetime; lia).
      reflexivity.
    + pose proof (midnight_bounds now) as B. unfold days.
      replace (1 * us_per_day) with us_per_day by lia. exact B.
  - intros W cfg now tick results repo.
    exists (fst (processed W cfg now (tick, results) repo)),
           (snd (processed W cfg now (tick, results) repo)),
           (series_90 W cfg tick repo).
    split; [rewrite process_repo_returns; destruct (processed _ _ _ _ _); reflexivity|].
    split; [apply get_daily_stats_returns|].
    split; [unfold series_90; rewrite length_map; apply range_down_length|].
    apply processed_daily.
Qed.

Lemma daily_series_covers_window_witness :
  exists series,
    get_daily_stats small noon (repo_named "a/b") "djok" 2 = Ret series
    /\ map date series = ["2026-11-02"; "2026-11-03"; "2026-11-04"]
    /\ map day_commits series = [0; 0; 1]
    /\ List.length series = 3%nat.
Proof.
  destruct (proj1 daily_series_covers_window small noon (repo_named "a/b") "djok" 2
              ltac:(lia)) as (series & E & L & _).
  exists series. split; [exact E|].
  vm_compute in E. injection E as <-.
  split; [reflexivity|]. split; [reflexivity | exact L].
Defined.

(** ** The markdown summary *)

Lemma append_assoc (a b c : string) : ((a ++ b) ++ c)%string = (a ++ b ++ c)%string.
Proof. induction a as [|ch a IH]; simpl; [reflexivity | rewrite IH; reflexivity]. Qed.

(** C9: with the month of the scenario in the summary, the line of the
    markdown table labelled "Month" reads 12 commits, +340, -55 and the net
    285, whatever the rest of the snapshot is. *)
Theorem month_row_of_readme (metrics : Metrics) :
  pget month (summary metrics)
  = {| commits := 12; additions := 340; deletions := 55; files_changed := 8 |} ->
  summary_row "Month" (pget month (summary metrics)) = "| Month | 12 | +340 | -55 | 285 |"
  /\ is_line "| Month | 12 | +340 | -55 | 285 |" (generate_readme metrics)
  /\ generate_readme metrics
     = (readme_head metrics
        ++ summary_row "Today" (pget today (summary metrics)) ++ nl
        ++ summary_row "Week" (pget week (summary metrics)) ++ nl
        ++ "| Month | 12 | +340 | -55 | 285 |" ++ nl
        ++ summary_row "Year" (pget year (summary metrics)) ++ nl
        ++ top_heading
        ++ String.concat "" (map top_row (firstn 10 (top_repos metrics)))
        ++ readme_foot)%string.
Proof.
  intros H.
  assert (R : summary_row "Month" (pget month (summary metrics))
              = "| Month | 12 | +340 | -55 | 285 |") by (rewrite H; reflexivity).
  assert (G : generate_readme metrics
     = (readme_head metrics
        ++ summary_row "Today" (pget today (summary metrics)) ++ nl
        ++ summary_row "Week" (pget week (summary metrics)) ++ nl
        ++ "| Month | 12 | +340 | -55 | 285 |" ++ nl
        ++ summary_row "Year" (pget year (summary metrics)) ++ nl
        ++ top_heading
        ++ String.concat "" (map top_row (firstn 10 (top_repos metrics)))
        ++ readme_foot)%string).
  { unfold generate_readme. cbv zeta. rewrite R. reflexivity. }
  split; [exact R|]. split; [|exact G].
  exists (readme_head metrics
          ++ summary_row "Today" (pget today (summary metrics)) ++ nl
          ++ summary_row "Week" (pget week (summary metrics)))%string.
  eexists. rewrite G, !append_assoc. reflexivity.
Qed.

Lemma month_row_of_readme_witness :
  is_line "| Month | 12 | +340 | -55 | 285 |" (generate_readme scenario)
  /\ generate_readme scenario
     = ("# 📊 Code Metrics Dashboard" ++ nl
        ++ nl
        ++ "> **@djok** · Updated: 2026-11-04 07:20 UTC" ++ nl
        ++ nl
        ++ "| Period | Commits | Additions | Deletions | Net |" ++ nl
        ++ "|--------|---------|-----------|-----------|-----|" ++ nl
        ++ "| Today | 0 | +0 | -0 | 0 |" ++ nl
        ++ "| Week | 3 | +1.5K | -20 | 1.5K |" ++ nl
        ++ "| Month | 12 | +340 | -55 | 285 |" ++ nl
        ++ "| Year | 900 | +1.2M | -2.3M | -1111111 |" ++ nl
        ++ nl
        ++ "## Top Repositories" ++ nl
        ++ nl
        ++ "| Repository | Commits | ++ | -- |" ++ nl
        ++ "|------------|---------|----|----|" ++ nl
        ++ "| [me](https://github.com/djok/me) | 5 | +999 | -1.0K |" ++ nl
        ++ nl
        ++ "---" ++ nl
        ++ "🔗 [View Dashboard](../../) · 🤖 Auto-updated daily" ++ nl)%string.
Proof.
  split.
  - exact (proj1 (proj2 (month_row_of_readme scenario eq_refl))).
  - vm_compute. reflexivity.
Defined.

(** ** The language list *)

Lemma mapM_inv {A B : Type} (f : A -> res B) (l : list A) (ys : list B) :
  mapM f l = Ret ys -> Forall2 (fun x y => f x = Ret y) l ys.
Proof.
  revert ys. induction l as [|x l IH]; simpl; intros ys H.
  - injection H as <-. constructor.
  - destruct (f x) as [y|e] eqn:Fx; simpl in H; [|discriminate].
    destruct (mapM f l) as [ys'|e]; simpl in H; [|discriminate].
    injection H as <-. constructor; [exact Fx | apply IH; reflexivity].
Qed.

Lemma lang_entry_inv (total : Z) (l : string * Z) (e : LangEntry) :
  lang_entry total l = Ret e ->
  (lang_name e, lang_bytes e) = l
  /\ exists q, truediv (lang_bytes e) total = Ret q
               /\ lang_percent e = round (fmul_int q 100) 1.
Proof.
  unfold lang_entry. destruct (truediv (snd l) total) as [q|x] eqn:D; simpl; [|discriminate].
  intros H. injection H as <-. simpl. split; [destruct l; reflexivity|].
  exists q. split; [exact D | reflexivity].
Qed.

Lemma Forall2_in_right {A B : Type} (R : A -> B -> Prop) (l : list A) (l' : list B) (y : B) :
  Forall2 R l l' -> In y l' -> exists x, In x l /\ R x y.
Proof.
  induction 1 as [|x y' l l' Hxy _ IH]; simpl; [tauto|].
  intros [<-|Hy].
  - exists x. auto.
  - destruct (IH Hy) as (x' & Hx' & Hr). exists x'. auto.
Qed.

(** In a descending list, the first [n] elements are at least as large as
    all the others. *)
Lemma sorted_firstn_skipn {A : Type} (key : A -> Z) (n : nat) (l : list A) (x y : A) :
  StronglySorted (desc key) l -> In x (firstn n l) -> In y (skipn n l) -> key y <= key x.
Proof.
  revert l. induction n as [|n IH]; intros [|z l] H Hx Hy; simpl in *; try contradiction.
  inversion H as [|? ? Hl Hz]; subst. destruct Hx as [->|Hx].
  - rewrite Forall_forall in Hz. apply Hz.
    rewrite <- (firstn_skipn n l). apply in_or_app. right. exact Hy.
  - apply (IH l); assumption.
Qed.

(** The list is computed whenever the divisor is not zero. *)
Lemma lang_data_returns (languages : dict Z) :
  total_bytes languages <> 0 -> exists entries, lang_data languages = Ret entries.
Proof.
  intros H. unfold lang_data.
  exists (map (fun l => {| lang_name := fst l; lang_bytes := snd l;
                           lang_percent :=
                             round (fmul_int (float_of_int (snd l)
                                              / float_of_int (total_bytes languages))%float
                                             100) 1 |})
              (sorted_langs languages)).
  apply mapM_total. intros l. unfold lang_entry, truediv.
  destruct (total_bytes languages =? 0) eqn:E; [apply Z.eqb_eq in E; contradiction|].
  reflexivity.
Qed.

(** C8, without the bound on the sum: the list holds the six languages with
    the most bytes, or all of them when they are fewer, in descending order
    of bytes, languages of equal size in the order of the mapping; the
    percentage of each is its bytes divided by the total, times 100, rounded
    to one decimal, the total being the sum of all the bytes, or 1 for an
    empty mapping; and the mapping of the scenario yields 80.0 for Python
    and 20.0 for JavaScript. *)
Theorem lang_data_top_six :
  (forall languages entries,
     lang_data languages = Ret entries ->
     let shown := map (fun e => (lang_name e, lang_bytes e)) entries in
     (List.length entries <= 6)%nat
     /\ List.length entries = Nat.min 6 (List.length languages)
     /\ shown = firstn 6 (sorted_desc snd languages)
     /\ StronglySorted (fun a b => snd b <= snd a) shown
     /\ (exists rest,
           Permutation languages (shown ++ rest)
           /\ forall s r, In s shown -> In r rest -> snd r <= snd s)
     /\ (forall a b, before a b shown -> snd a = snd b -> before a b languages)
     /\ (languages = [] -> total_bytes languages = 1)
     /\ (languages <> [] -> total_bytes languages = sum (dict_values languages))
     /\ (forall e, In e entries ->
           In (lang_name e, lang_bytes e) languages
           /\ exists q,
                truediv (lang_bytes e) (total_bytes languages) = Ret q
                /\ lang_percent e = round (fmul_int q 100) 1))
  /\ lang_data [("Python", 800); ("JavaScript", 200)]
     = Ret [{| lang_name := "Python"; lang_bytes := 800; lang_percent := 80%float |};
            {| lang_name := "JavaScript"; lang_bytes := 200; lang_percent := 20%float |}].
Proof.
  split; [|vm_compute; reflexivity].
  intros languages entries H shown. unfold lang_data in H. apply mapM_inv in H.
  assert (Hshown : shown = sorted_langs languages).
  { subst shown. induction H as [|l e ls es Hle _ IH]; simpl; [reflexivity|].
    rewrite IH. f_equal. apply (lang_entry_inv _ _ _ Hle). }
  assert (Hlen : List.length entries = Nat.min 6 (List.length languages)).
  { rewrite <- (Forall2_length H). unfold sorted_langs.
    rewrite length_firstn, sorted_desc_length. reflexivity. }
  split; [rewrite Hlen; apply Nat.le_min_l|]. split; [exact Hlen|].
  split; [exact Hshown|]. rewrite Hshown. unfold sorted_langs.
  split; [apply (firstn_sorted snd), sorted_desc_sorted|].
  split; [|split; [|split; [|split]]].
  - exists (skipn 6 (sorted_desc snd languages)). split.
    + rewrite firstn_skipn. apply sorted_desc_perm.
    + intros s r Hs Hr.
      apply (sorted_firstn_skipn snd 6 (sorted_desc snd languages));
        [apply sorted_desc_sorted | exact Hs | exact Hr].
  - intros a b Hab K. apply before_firstn in Hab.
    apply (sorted_desc_stable snd); assumption.
  - intros ->. reflexivity.
  - destruct languages; [congruence | reflexivity].
  - intros e He. destruct (Forall2_in_right _ _ _ _ H He) as (l & Hl & Hle).
    apply lang_entry_inv in Hle as [Hpair Hq]. split; [|exact Hq].
    rewrite Hpair. unfold sorted_langs in Hl.
    apply (sorted_desc_in snd). rewrite <- (firstn_skipn 6 (sorted_desc snd languages)).
    apply in_or_app. left. exact Hl.
Qed.

Lemma lang_data_top_six_witness :
  exists entries,
    lang_data (languages scenario) = Ret entries
    /\ map (fun e => (lang_name e, lang_bytes e)) entries
       = [("Python", 800); ("JavaScript", 200)]
    /\ map lang_percent entries = [80%float; 20%float]
    /\ (List.length entries <= 6)%nat.
Proof.
  destruct (lang_data (languages scenario)) as [entries|e] eqn:E;
    [|vm_compute in E; discriminate].
  exists entries. split; [reflexivity|].
  pose proof (proj1 lang_data_top_six (languages scenario) entries E) as (L & _).
  vm_compute in E. injection E as <-.
  split; [reflexivity|]. split; [reflexivity | exact L].
Defined.

(** C8 as stated fails on six languages of one byte each: every share is
    16.666..., shown as 16.7, and the six shown percentages add up to more
    than 100. *)
Lemma six_equal_shares_exceed_100 :
  exists entries,
    lang_data six_equal = Ret entries
    /\ List.length entries = 6%nat
    /\ map (fun e => scaled (lang_percent e) 1) entries
       = repeat (Some (false, 167)) 6
    /\ (100 <? fsum (map lang_percent entries))%float = true
    /\ (fsum (map lang_percent entries) <=? 100)%float = false.
Proof.
  eexists. split; [vm_compute; reflexivity|].
  repeat split; vm_compute; reflexivity.
Qed.

(* ================================================================== *)
(** * Further properties                                               *)
(* ================================================================== *)

(** ** What a run raises *)

(** X5: a run raises exactly when the lookup of the user raises, and then
    with that exception; no failure of a repository lookup, of a listing, of
    a commit or of a language query reaches the caller. When it returns,
    the snapshot carries the configured user name and the instant of the
    run. *)
Theorem run_raises_only_on_user_lookup W cfg :
  (forall e, collect_all_metrics W cfg = Raise e
             <-> api_get_user W (GH_USERNAME cfg) = Raise e)
  /\ (forall snap, collect_all_metrics W cfg = Ret snap ->
        username (meta snap) = GH_USERNAME cfg
        /\ updated_at (meta snap) = isoformat (clock W 0)).
Proof.
  rewrite collect_all_metrics_unfold.
  destruct (api_get_user W (GH_USERNAME cfg)) as [user|e0]; split.
  - intros e. split; discriminate.
  - intros snap E. injection E as <-. cbn [meta set_top_repos]. unfold final.
    generalize (enumerated W cfg) as rs.
    assert (M : forall rs st, meta (snd (fold_left (processed W cfg (clock W 0)) rs st))
                              = meta (snd st)).
    { induction rs as [|r rs IH]; intros st; simpl; [reflexivity|].
      rewrite IH. unfold processed. cbn [snd].
      destruct (active W cfg (clock W 0) r); cbn [meta set_repos];
        rewrite (proj1 (proj2 (proj2 (proj2 (add_language_frame _ _)))));
        [rewrite (proj2 (proj2 (proj2 (add_day_frame _ _))))|]; reflexivity. }
    intros rs. rewrite M. split; reflexivity.
  - intros e. split; intros E; injection E as <-; reflexivity.
  - intros snap E. discriminate.
Qed.

Lemma run_raises_only_on_user_lookup_witness :
  collect_all_metrics unknown_user discover = Raise (GithubException 404)
  /\ exists snap, collect_all_metrics flaky discover = Ret snap
                  /\ username (meta snap) = "djok".
Proof.
  split.
  - apply (proj1 (run_raises_only_on_user_lookup unknown_user discover)). reflexivity.
  - destruct (collect_all_metrics flaky discover) as [snap|e] eqn:E;
      [|vm_compute in E; discriminate].
    exists snap. split; [reflexivity|].
    exact (proj1 (proj2 (run_raises_only_on_user_lookup flaky discover) snap E)).
Defined.

(** ** The periods *)

(** X6: the five periods end at the instant of the run; the week, the
    month, the quarter and the year are 7, 30, 90 and 365 days long to the
    microsecond, "today" is at least one day long and less than two; and the
    periods are nested: an instant inside "today" is inside the week, the
    week is inside the month, the month inside the quarter and the quarter
    inside the year. *)
Theorem periods_are_nested (now t : datetime) :
  (forall p, snd (period_window now p) = now)
  /\ now - fst (period_window now week) = 7 * 86400000000
  /\ now - fst (period_window now month) = 30 * 86400000000
  /\ now - fst (period_window now quarter) = 90 * 86400000000
  /\ now - fst (period_window now year) = 365 * 86400000000
  /\ 86400000000 <= now - fst (period_window now today) < 2 * 86400000000
  /\ (let inside p := in_window (fst (period_window now p)) (snd (period_window now p)) t in
      (inside today = true -> inside week = true)
      /\ (inside week = true -> inside month = true)
      /\ (inside month = true -> inside quarter = true)
      /\ (inside quarter = true -> inside year = true)).
Proof.
  split; [intros []; reflexivity|].
  cbv zeta. unfold period_window, in_window. cbn [fst snd].
  pose proof (midnight_bounds (now - days 1)) as B.
  unfold days, us_per_day, us_per_hour, us_per_minute, us_per_second in *.
  rewrite !andb_true_iff, !Z.leb_le, !Z.ltb_lt.
  unfold datetime in *.
  repeat split; lia.
Qed.

(** ** A configured list without a repository *)

Lemma slash_in_strip (c : ascii) (s : string) :
  existsb (Ascii.eqb c) (list_ascii_of_string (strip s)) = true ->
  existsb (Ascii.eqb c) (list_ascii_of_string s) = true.
Proof.
  destruct (trims_strip s) as (l & r & _ & _ & _ & E). intros H.
  rewrite E, !bytes_app, !existsb_app, H. rewrite orb_true_r. reflexivity.
Qed.

Lemma contains_split (c sep : ascii) (s e : string) :
  In e (split sep s) -> contains c e = true -> contains c s = true.
Proof.
  revert e. induction s as [|a s IH]; simpl; intros e.
  - intros [<-|[]]. auto.
  - destruct (Ascii.eqb a sep).
    + intros [<-|H] C; [discriminate|]. rewrite (IH e H C). apply orb_true_r.
    + destruct (split sep s) as [|f fs] eqn:S.
      * intros [<-|[]]. simpl. rewrite orb_false_r. intros ->. reflexivity.
      * intros [<-|H] C.
        -- simpl in C. apply orb_true_iff in C as [C|C]; [rewrite C; reflexivity|].
           rewrite (IH f (or_introl eq_refl) C). apply orb_true_r.
        -- rewrite (IH e (or_intror H) C). apply orb_true_r.
Qed.

Lemma resolved_without_slash W (entries : list string) :
  (forall e, In e entries ->
             existsb (Ascii.eqb "/"%char) (list_ascii_of_string e) = false) ->
  resolved W entries = [].
Proof.
  induction entries as [|e es IH]; simpl; intros H; [reflexivity|].
  replace (contains "/" (strip e)) with false.
  - rewrite andb_false_r. apply IH. intros e' He'. apply H. right. exact He'.
  - symmetry. apply not_true_is_false. intros C. rewrite contains_exists in C.
    apply slash_in_strip in C. rewrite (H e (or_introl eq_refl)) in C. discriminate.
Qed.

(** X7: a configured list that is not empty but holds no slash (blanks,
    commas, bare names) switches discovery off and names no repository: the
    enumerator returns nothing, whatever the platform would list, and the
    snapshot of the run is empty. *)
Theorem slashless_list_tracks_nothing W cfg :
  REPOS_TO_TRACK cfg <> "" ->
  existsb (Ascii.eqb "/"%char) (list_ascii_of_string (REPOS_TO_TRACK cfg)) = false ->
  (forall user, get_repos_to_track W cfg user = Ret [])
  /\ (forall snap, collect_all_metrics W cfg = Ret snap ->
        summary snap = pconst zero_stats
        /\ repos snap = [] /\ daily snap = [] /\ languages snap = []
        /\ top_repos snap = []).
Proof.
  intros Hne Hs.
  assert (G : forall user, get_repos_to_track W cfg user = Ret []).
  { intros user. unfold get_repos_to_track.
    replace (negb (REPOS_TO_TRACK cfg =? "")%string) with true
      by (symmetry; apply negb_true_iff, String.eqb_neq, Hne).
    rewrite returning_returns by (apply returns_for_each, track_configured_returns).
    rewrite for_each_track_configured. cbn [tracked app]. f_equal.
    apply resolved_without_slash. intros e He.
    apply not_true_is_false. intros C. rewrite <- contains_exists in C, Hs.
    rewrite (contains_split _ _ _ _ He C) in Hs. discriminate. }
  split; [exact G|]. intros snap E.
  rewrite (collect_all_metrics_inv _ _ _ E).
  assert (N : enumerated W cfg = []).
  { unfold enumerated. destruct (api_get_user W (GH_USERNAME cfg)); [|reflexivity].
    rewrite G. reflexivity. }
  rewrite N. repeat split.
Qed.

Lemma slashless_list_tracks_nothing_witness :
  get_repos_to_track small blank "djok" = Ret []
  /\ get_repos_to_track small discover "djok" = Ret [repo_named "a/b"; repo_named "c/d"].
Proof.
  split; [|reflexivity].
  exact (proj1 (slashless_list_tracks_nothing small blank ltac:(discriminate) eq_refl)
               "djok").
Defined.

(** ** The daily buckets *)

Lemma add_day_daily (l : list DailyEntry) (r : Metrics) :
  daily (fold_left add_day l r) = fold_left merge_day l (daily r).
Proof.
  revert r. induction l as [|e l IH]; intros r; simpl; [reflexivity|].
  rewrite IH. reflexivity.
Qed.

Lemma processed_tick W cfg now st repo :
  fst (processed W cfg now st repo)
  = if active W cfg now repo then S (fst st) else fst st.
Proof. reflexivity. Qed.

Lemma fold_processed_daily W cfg now rs st :
  daily (snd (fold_left (processed W cfg now) rs st))
  = fold_left merge_day (folded_days W cfg now (fst st) rs) (daily (snd st)).
Proof.
  revert st. induction rs as [|r rs IH]; intros st; cbn [fold_left folded_days];
    [reflexivity|].
  rewrite IH, processed_tick, processed_daily, <- active_has_commit.
  destruct (active W cfg now r); [|reflexivity].
  rewrite fold_left_app, add_day_daily. reflexivity.
Qed.

Lemma dict_get_merge_day (d : string) (m : dict DailyTotals) (e : DailyEntry) :
  dict_get d (merge_day m e)
  = if String.eqb d (date e)
    then Some {| total_commits := bucket total_commits m (date e) + day_commits e;
                 total_additions := bucket total_additions m (date e) + day_additions e;
                 total_deletions := bucket total_deletions m (date e) + day_deletions e |}
    else dict_get d m.
Proof.
  unfold merge_day, dict_update, bucket.
  destruct (dict_get (date e) m); rewrite dict_get_set; reflexivity.
Qed.

Lemma bucket_fold_merge_day (d : string) (l : list DailyEntry) (m : dict DailyTotals) :
  bucket total_commits (fold_left merge_day l m) d
  = bucket total_commits m d + day_sum day_commits d l
  /\ bucket total_additions (fold_left merge_day l m) d
     = bucket total_additions m d + day_sum day_additions d l
  /\ bucket total_deletions (fold_left merge_day l m) d
     = bucket total_deletions m d + day_sum day_deletions d l.
Proof.
  revert m. induction l as [|e l IH]; intros m; simpl.
  - repeat split; lia.
  - destruct (IH (merge_day m e)) as (-> & -> & ->).
    unfold bucket at 1 3 5. rewrite dict_get_merge_day.
    destruct (String.eqb d (date e)) eqn:E.
    + apply String.eqb_eq in E as <-. cbn. repeat split; lia.
    + fold (bucket total_commits m d) (bucket total_additions m d)
           (bucket total_deletions m d). repeat split; lia.
Qed.

Lemma dict_get_fold_merge_day_none (d : string) (l : list DailyEntry) (m : dict DailyTotals) :
  dict_get d (fold_left merge_day l m) = None
  <-> dict_get d m = None /\ forall e, In e l -> date e <> d.
Proof.
  revert m. induction l as [|e l IH]; intros m; simpl.
  - split; [intros H; split; [exact H | intros e []] | tauto].
  - rewrite IH, dict_get_merge_day. destruct (String.eqb d (date e)) eqn:E.
    + apply String.eqb_eq in E. split; [intros [H _]; discriminate|].
      intros [_ H]. exfalso. apply (H e); auto.
    + apply String.eqb_neq in E. split.
      * intros [H1 H2]. split; [exact H1|]. intros e' [<-|He']; [congruence | auto].
      * intros [H1 H2]. split; [exact H1|]. intros e' He'. apply H2. right. exact He'.
Qed.

Lemma buckets_sum_set (f : DailyTotals -> Z) (k : string) (v : DailyTotals)
  (m : dict DailyTotals) :
  buckets_sum f (dict_set k v m) = buckets_sum f m - bucket f m k + f v.
Proof.
  unfold bucket. induction m as [|[k0 v0] m IH]; simpl.
  - lia.
  - destruct (String.eqb k k0); simpl; [lia | rewrite IH; lia].
Qed.

Lemma buckets_sum_fold (l : list DailyEntry) (m : dict DailyTotals) :
  buckets_sum total_commits (fold_left merge_day l m)
  = buckets_sum total_commits m + entries_sum day_commits l
  /\ buckets_sum total_additions (fold_left merge_day l m)
     = buckets_sum total_additions m + entries_sum day_additions l
  /\ buckets_sum total_deletions (fold_left merge_day l m)
     = buckets_sum total_deletions m + entries_sum day_deletions l.
Proof.
  revert m. induction l as [|e l IH]; intros m; simpl.
  - repeat split; lia.
  - destruct (IH (merge_day m e)) as (-> & -> & ->).
    unfold merge_day, dict_update, bucket.
    destruct (dict_get (date e) m) as [b|] eqn:G; rewrite !buckets_sum_set;
      unfold bucket; rewrite G; cbn; repeat split; lia.
Qed.

Lemma folded_days_nil W cfg now tick rs :
  folded_days W cfg now tick rs = []
  <-> forall r, In r rs -> has_commit W cfg now r = false.
Proof.
  revert tick. induction rs as [|r rs IH]; intros tick; cbn [folded_days In].
  - split; [intros _ r [] | reflexivity].
  - destruct (has_commit W cfg now r) eqn:A.
    + split.
      * intros H. apply (f_equal (@List.length _)) in H.
        rewrite length_app in H. unfold series_90 in H.
        rewrite length_map, range_down_length in H. simpl in H. lia.
      * intros H. rewrite (H r (or_introl eq_refl)) in A. discriminate.
    + rewrite IH. split.
      * intros H r' [<-|Hr']; auto.
      * intros H r' Hr'. apply H. right. exact Hr'.
Qed.

(** X8: the daily buckets of a snapshot hold, for every date, the sums of
    the commits, additions and deletions of the entries of that date in the
    90-day series of the repositories with a commit in some period, a series
    being added once per enumeration of its repository; a date has a bucket
    exactly when some series has an entry for it; the buckets together hold
    what the series hold; and there is no bucket at all exactly when no
    repository has a commit in any period. *)
Theorem daily_buckets_sum_series W cfg snap :
  collect_all_metrics W cfg = Ret snap ->
  let entries := folded_days W cfg (clock W 0) 1 (enumerated W cfg) in
  (forall d,
     bucket total_commits (daily snap) d = day_sum day_commits d entries
     /\ bucket total_additions (daily snap) d = day_sum day_additions d entries
     /\ bucket total_deletions (daily snap) d = day_sum day_deletions d entries)
  /\ (forall d, dict_get d (daily snap) = None <-> forall e, In e entries -> date e <> d)
  /\ (buckets_sum total_commits (daily snap) = entries_sum day_commits entries
      /\ buckets_sum total_additions (daily snap) = entries_sum day_additions entries
      /\ buckets_sum total_deletions (daily snap) = entries_sum day_deletions entries)
  /\ (daily snap = [] <->
      forall r, In r (enumerated W cfg) -> has_commit W cfg (clock W 0) r = false).
Proof.
  intros E entries. rewrite (collect_all_metrics_inv _ _ _ E).
  cbn [daily set_top_repos]. unfold final. rewrite fold_processed_daily.
  cbn [fst snd initial daily]. fold entries.
  split; [|split; [|split]].
  - intros d. destruct (bucket_fold_merge_day d entries []) as (-> & -> & ->).
    repeat split.
  - intros d. rewrite dict_get_fold_merge_day_none. split; [tauto|]. intros H.
    split; [reflexivity | exact H].
  - destruct (buckets_sum_fold entries []) as (-> & -> & ->). repeat split.
  - rewrite <- (folded_days_nil W cfg (clock W 0) 1). fold entries. split.
    + intros H. destruct entries as [|e es]; [reflexivity|]. exfalso.
      assert (G : dict_get (date e) (fold_left merge_day (e :: es) []) = None)
        by (rewrite H; reflexivity).
      apply dict_get_fold_merge_day_none in G as [_ G].
      apply (G e); [left|]; reflexivity.
    + intros ->. reflexivity.
Qed.

Lemma daily_buckets_sum_series_witness :
  exists snap,
    collect_all_metrics small twice = Ret snap
    /\ List.length (daily snap) = 91%nat
    /\ bucket total_commits (daily snap) "2026-11-04" = 2
    /\ bucket total_additions (daily snap) "2026-11-04" = 20
    /\ bucket total_commits (daily snap) "2026-11-03" = 0
    /\ buckets_sum total_commits (daily snap) = 2.
Proof.
  destruct (collect_all_metrics small twice) as [snap|e] eqn:E;
    [|vm_compute in E; discriminate].
  exists snap. split; [reflexivity|].
  destruct (daily_buckets_sum_series small twice snap E) as (B & _ & (S & _) & _).
  split; [vm_compute in E; injection E as <-; reflexivity|].
  split; [rewrite (proj1 (B _)); reflexivity|].
  split; [rewrite (proj1 (proj2 (B _))); reflexivity|].
  split; [rewrite (proj1 (B _)); reflexivity|].
  rewrite S. reflexivity.
Defined.

(** ** The order of strings *)

Lemma ascii_compare_trans (a b c : ascii) :
  Ascii.compare a b = Lt -> Ascii.compare b c = Lt -> Ascii.compare a c = Lt.
Proof.
  unfold Ascii.compare. rewrite !N.compare_lt_iff. lia.
Qed.

Lemma ascii_compare_refl (a : ascii) : Ascii.compare a a = Eq.
Proof. unfold Ascii.compare. apply N.compare_refl. Qed.

Lemma string_compare_refl (s : string) : String.compare s s = Eq.
Proof.
  induction s as [|a s IH]; simpl; [reflexivity|].
  rewrite ascii_compare_refl. exact IH.
Qed.

Lemma string_compare_trans (s t u : string) :
  String.compare s t = Lt -> String.compare t u = Lt -> String.compare s u = Lt.
Proof.
  revert t u. induction s as [|a s IH]; intros [|b t] [|c u]; simpl; try congruence.
  destruct (Ascii.compare a b) eqn:Hab; try discriminate;
    destruct (Ascii.compare b c) eqn:Hbc; try discriminate; intros H1 H2.
  - apply Ascii.compare_eq_iff in Hab, Hbc. subst.
    rewrite ascii_compare_refl. apply (IH t u); assumption.
  - apply Ascii.compare_eq_iff in Hab. subst. rewrite Hbc. reflexivity.
  - apply Ascii.compare_eq_iff in Hbc. subst. rewrite Hab. reflexivity.
  - rewrite (ascii_compare_trans _ _ _ Hab Hbc). reflexivity.
Qed.

Lemma ltb_trans (s t u : string) :
  String.ltb s t = true -> String.ltb t u = true -> String.ltb s u = true.
Proof.
  unfold String.ltb.
  destruct (String.compare s t) eqn:A; try discriminate.
  destruct (String.compare t u) eqn:B; try discriminate.
  rewrite (string_compare_trans _ _ _ A B). reflexivity.
Qed.

Lemma ltb_leb (s t : string) : String.ltb s t = true -> String.leb s t = true.
Proof.
  unfold String.ltb, String.leb. destruct (String.compare s t); simpl; congruence.
Qed.

Lemma ltb_false_leb (s t : string) : String.ltb s t = false -> String.leb t s = true.
Proof.
  unfold String.ltb, String.leb. rewrite (String.compare_antisym t s).
  destruct (String.compare s t); simpl; congruence.
Qed.

Lemma ltb_asym (s t : string) : String.ltb s t = true -> String.ltb t s = false.
Proof.
  unfold String.ltb. rewrite (String.compare_antisym t s).
  destruct (String.compare s t); simpl; congruence.
Qed.

Lemma ltb_neq (s t : string) : String.ltb s t = true -> s <> t.
Proof.
  intros H ->. unfold String.ltb in H. rewrite string_compare_refl in H. discriminate.
Qed.

Lemma leb_trans (s t u : string) :
  String.leb s t = true -> String.leb t u = true -> String.leb s u = true.
Proof.
  unfold String.leb.
  destruct (String.compare s t) eqn:A; try discriminate;
    destruct (String.compare t u) eqn:B; try discriminate; intros _ _.
  - apply String.compare_eq_iff in A, B. subst. rewrite string_compare_refl. reflexivity.
  - apply String.compare_eq_iff in A. subst. rewrite B. reflexivity.
  - apply String.compare_eq_iff in B. subst. rewrite A. reflexivity.
  - rewrite (string_compare_trans _ _ _ A B). reflexivity.
Qed.

(** ** The dates of the charts *)

Lemma insert_str_in (x y : string) (l : list string) :
  In y (insert_str x l) <-> y = x \/ In y l.
Proof.
  induction l as [|z l IH]; simpl.
  - intuition.
  - destruct (String.ltb z x); simpl; [rewrite IH|]; intuition.
Qed.

Lemma insert_str_perm (x : string) (l : list string) :
  Permutation (x :: l) (insert_str x l).
Proof.
  induction l as [|z l IH]; simpl; [reflexivity|].
  destruct (String.ltb z x); [|reflexivity].
  rewrite perm_swap. apply perm_skip, IH.
Qed.

Lemma sorted_str_perm (l : list string) : Permutation l (sorted_str l).
Proof.
  induction l as [|x l IH]; simpl; [constructor|].
  rewrite <- insert_str_perm. apply perm_skip, IH.
Qed.

Lemma insert_str_sorted (x : string) (l : list string) :
  StronglySorted ascending l -> StronglySorted ascending (insert_str x l).
Proof.
  induction l as [|z l IH]; simpl; intros H.
  - repeat constructor.
  - inversion H as [|? ? Hl Hz]; subst.
    destruct (String.ltb z x) eqn:E.
    + constructor; [apply IH, Hl|].
      apply Forall_forall. intros y Hy. apply insert_str_in in Hy as [->|Hy].
      * apply ltb_leb, E.
      * rewrite Forall_forall in Hz. apply Hz, Hy.
    + apply ltb_false_leb in E. constructor; [exact H|].
      constructor; [exact E|].
      rewrite Forall_forall in Hz |- *. intros y Hy.
      apply (leb_trans _ _ _ E (Hz y Hy)).
Qed.

Lemma sorted_str_sorted (l : list string) : StronglySorted ascending (sorted_str l).
Proof.
  induction l as [|x l IH]; simpl; [constructor | apply insert_str_sorted, IH].
Qed.

Lemma skipn_sorted {A : Type} (R : A -> A -> Prop) (n : nat) (l : list A) :
  StronglySorted R l -> StronglySorted R (skipn n l).
Proof.
  revert l. induction n as [|n IH]; intros [|x l] H; simpl; auto.
  inversion H; subst. apply IH. assumption.
Qed.

Lemma sorted_split {A : Type} (R : A -> A -> Prop) (n : nat) (l : list A) (x y : A) :
  StronglySorted R l -> In x (firstn n l) -> In y (skipn n l) -> R x y.
Proof.
  revert l. induction n as [|n IH]; intros [|z l] H Hx Hy; simpl in *; try contradiction.
  inversion H as [|? ? Hl Hz]; subst. destruct Hx as [->|Hx].
  - rewrite Forall_forall in Hz. apply Hz.
    rewrite <- (firstn_skipn n l). apply in_or_app. right. exact Hy.
  - apply (IH l); assumption.
Qed.

Lemma last_n_length {A : Type} (n : nat) (l : list A) :
  List.length (last_n n l) = Nat.min n (List.length l).
Proof. unfold last_n. rewrite length_skipn. lia. Qed.

Lemma last_n_all {A : Type} (n : nat) (l : list A) :
  (List.length l <= n)%nat -> last_n n l = l.
Proof.
  intros H. unfold last_n. replace (List.length l - n)%nat with 0%nat by lia. reflexivity.
Qed.

Lemma dates_are_keys (daily : dict DailyTotals) (d : string) :
  In d (dates daily) -> In d (dict_keys daily).
Proof.
  unfold dates, last_n. intros H.
  apply (Permutation_in _ (Permutation_sym (sorted_str_perm (dict_keys daily)))).
  rewrite <- (firstn_skipn (List.length (sorted_str (dict_keys daily)) - 90)
                           (sorted_str (dict_keys daily))).
  apply in_or_app. right. exact H.
Qed.

(** X9: the dates of the charts are keys of the daily mapping, in ascending
    order, at most 90 of them; the keys left out are the smallest ones, and a
    mapping with at most 90 dates is shown whole, nothing added; the three
    data arrays hold, position by position, the commits, additions and
    deletions of the bucket of the date. *)
Theorem chart_dates_are_latest_keys (daily : dict DailyTotals) :
  List.length (dates daily) = Nat.min 90 (List.length daily)
  /\ StronglySorted ascending (dates daily)
  /\ (exists dropped,
        Permutation (dict_keys daily) (dropped ++ dates daily)
        /\ List.length dropped = (List.length daily - 90)%nat
        /\ forall x y, In x dropped -> In y (dates daily) -> String.leb x y = true)
  /\ ((List.length daily <= 90)%nat -> Permutation (dict_keys daily) (dates daily))
  /\ Forall2 (fun d c => exists b, dict_get d daily = Some b /\ c = total_commits b)
             (dates daily) (commits_data daily)
  /\ Forall2 (fun d c => exists b, dict_get d daily = Some b /\ c = total_additions b)
             (dates daily) (additions_data daily)
  /\ Forall2 (fun d c => exists b, dict_get d daily = Some b /\ c = total_deletions b)
             (dates daily) (deletions_data daily).
Proof.
  assert (L : List.length (sorted_str (dict_keys daily)) = List.length daily).
  { rewrite <- (Permutation_length (sorted_str_perm _)). apply length_map. }
  assert (A : forall f,
             Forall2 (fun d c => exists b, dict_get d daily = Some b /\ c = f b)
                     (dates daily) (map (bucket f daily) (dates daily))).
  { intros f. pose proof (dates_are_keys daily) as K.
    induction (dates daily) as [|d ds IH]; simpl; constructor.
    - unfold bucket. destruct (dict_get d daily) as [b|] eqn:G.
      + exists b. split; reflexivity.
      + exfalso. apply dict_get_none in G. apply G, K. left. reflexivity.
    - apply IH. intros x Hx. apply K. right. exact Hx. }
  split; [unfold dates; rewrite last_n_length, L; reflexivity|].
  split; [unfold dates, last_n; apply skipn_sorted, sorted_str_sorted|].
  split; [|split; [|split; [apply A | split; apply A]]].
  - exists (firstn (List.length (sorted_str (dict_keys daily)) - 90)
                   (sorted_str (dict_keys daily))).
    split; [|split].
    + unfold dates, last_n. rewrite firstn_skipn. apply sorted_str_perm.
    + rewrite length_firstn, L. lia.
    + intros x y Hx Hy.
      apply (sorted_split ascending _ _ x y (sorted_str_sorted (dict_keys daily)) Hx Hy).
  - intros H. unfold dates. rewrite last_n_all by (rewrite L; exact H).
    apply sorted_str_perm.
Qed.
